(** * Rating-Magic: a shallow embedding of the grading assistant

    The development follows the TypeScript sources:
    - [types.ts]                 the records [Level], [Criterion], [Student],
                                 [GradingResult];
    - [constants.ts]             [DEFAULT_LEVELS];
    - [services/geminiService]   the response handling of the two structured
                                 AI calls;
    - [App.tsx]                  threshold derivation, batch grading, CSV
                                 import and export, template persistence,
                                 the rubric editor and what the page shows
                                 of a batch.

    Conventions.
    - A JavaScript string is a [string] holding the UTF-8 encoding of its
      text.  Every string operation of the sources that is modelled here
      (splitting on ASCII separators, doubling quotes, concatenation, the
      blank test behind [trim]) gives the same text on the UTF-8 bytes as on
      the UTF-16 code units.
    - A JavaScript number is a double.  The code that computes with the
      rubric scores is modelled on doubles in [Double], over the Standard
      Library's specification of IEEE 754 ([SpecFloat]): there a score can
      be [NaN], which is what [parseInt] gives on an emptied field, and every
      sum is rounded.
    - The rubric editor, and the threshold rule in exact arithmetic, are
      modelled on integer scores ([Z]): a score is a constant of
      [DEFAULT_LEVELS] or an integer read by [parseInt].  What is proved on
      the integers does not depend on the arithmetic of the sums, or is
      carried over to the doubles for the scores on which the two agree
      ([DoubleFacts.thresholds_refine]).  In the batch, the score returned
      by the AI call is a rational ([Q]), since the response schema only
      asks for a number.
    - A thrown exception is [None] in the [option] monad, or the [inl] side
      of a sum where the exception is observed. *)

From Stdlib Require Import ZArith QArith List Ascii String Decimal DecimalString.
From Stdlib Require SpecFloat.
From stdpp Require Import base option list strings gmap.

Local Open Scope Z_scope.

(** ** Strings *)

Module Str.

(** The characters the sources single out. *)
Definition comma : ascii := "044"%char.
Definition newline : ascii := "010"%char.
Definition quote : ascii := "034"%char.

Definition of_char (c : ascii) : string := String c EmptyString.

(** [has c s]: does [s] hold the character [c]. *)
Fixpoint has (c : ascii) (s : string) : bool :=
  match s with
  | EmptyString => false
  | String d s' => if ascii_dec c d then true else has c s'
  end.

Definition cons_first (c : ascii) (l : list string) : list string :=
  match l with
  | x :: xs => String c x :: xs
  | [] => [of_char c]
  end.

(** [String.prototype.split] for a separator that is not empty.  [skip]
    counts the characters of a separator just matched that are still to be
    dropped. *)
Fixpoint split_go (sep : string) (skip : nat) (s : string) : list string :=
  match s with
  | EmptyString => [EmptyString]
  | String c s' =>
      match skip with
      | S k => split_go sep k s'
      | O =>
          if String.prefix sep s
          then EmptyString :: split_go sep (String.length sep - 1) s'
          else cons_first c (split_go sep 0 s')
      end
  end.

Definition split (sep s : string) : list string := split_go sep 0 s.

(** [Array.prototype.join] on strings. *)
Fixpoint join (sep : string) (l : list string) : string :=
  match l with
  | [] => EmptyString
  | [x] => x
  | x :: rest => x +:+ sep +:+ join sep rest
  end.

(** The global replacement of the export, which writes every double quote
    twice. *)
Fixpoint double_quotes (s : string) : string :=
  match s with
  | EmptyString => EmptyString
  | String c s' =>
      if ascii_dec c quote then String quote (String quote (double_quotes s'))
      else String c (double_quotes s')
  end.

(** The template literal of the CSV export: the text with its quotes
    doubled, between two double quotes. *)
Definition quoted (s : string) : string :=
  String quote (double_quotes s +:+ of_char quote).

(** Decimal rendering of an array index, as a template literal does it. *)
Definition of_nat (n : nat) : string := NilEmpty.string_of_uint (Nat.to_uint n).

(** [s.trim()] is the empty string: [s] is made of white space and line terminators
    only.  The characters outside ASCII are matched by their UTF-8 bytes:
    U+00A0, U+1680, U+2000 to U+200A, U+2028, U+2029, U+202F, U+205F,
    U+3000 and U+FEFF. *)
Definition ascii_space (c : ascii) : bool :=
  match c with
  | "009" | "010" | "011" | "012" | "013" | " " => true
  | _ => false
  end%char.

Definition e2_80_space (c : ascii) : bool :=
  let n := nat_of_ascii c in
  ((128 <=? n)%nat && (n <=? 138)%nat)
  || (n =? 168)%nat || (n =? 169)%nat || (n =? 175)%nat.

Fixpoint blank (s : string) : bool :=
  match s with
  | EmptyString => true
  | String c s1 =>
      if ascii_space c then blank s1
      else
        match c, s1 with
        | "194"%char, String "160"%char s2 => blank s2
        | "225"%char, String "154"%char (String "128"%char s3) => blank s3
        | "226"%char, String "128"%char (String d s3) =>
            if e2_80_space d then blank s3 else false
        | "226"%char, String "129"%char (String "159"%char s3) => blank s3
        | "227"%char, String "128"%char (String "128"%char s3) => blank s3
        | "239"%char, String "187"%char (String "191"%char s3) => blank s3
        | _, _ => false
        end
  end.

End Str.

(** ** JavaScript numbers

    A JavaScript number is an IEEE 754 double.  The Standard Library
    specifies them in [SpecFloat]: a number is a [spec_float], and the
    operations are those of binary64, with 53 bits of precision,
    rounding to nearest, ties to even. *)

Module Number.

Definition number : Type := SpecFloat.spec_float.

Definition prec : Z := 53.
Definition emax : Z := 1024.

(** [x + y] and [x - y]. *)
Definition add : number -> number -> number := SpecFloat.SFadd prec emax.
Definition sub : number -> number -> number := SpecFloat.SFsub prec emax.

(** [x <= y]; [x >= y] is [leb y x].  A comparison with [NaN] is false. *)
Definition leb : number -> number -> bool := SpecFloat.SFleb.

(** The number nearest to an integer: the value of an integer literal, and
    of [parseInt] on a run of decimal digits. *)
Definition of_Z (z : Z) : number := SpecFloat.binary_normalize prec emax z 0 false.

Definition NaN : number := SpecFloat.S754_nan.

(** The integer a number is equal to, if it is equal to one. *)
Definition to_Z (x : number) : option Z :=
  match x with
  | SpecFloat.S754_zero _ => Some 0
  | SpecFloat.S754_finite s m e =>
      let v := if s then Z.neg m else Z.pos m in
      if 0 <=? e then Some (v * 2 ^ e)
      else if Z.pos m mod 2 ^ (- e) =? 0 then Some (v / 2 ^ (- e))
      else None
  | _ => None
  end.

(** [Number.MAX_SAFE_INTEGER] and [Number.isSafeInteger]. *)
Definition MAX_SAFE_INTEGER : Z := 2 ^ 53 - 1.

Definition safe (z : Z) : Prop := - MAX_SAFE_INTEGER <= z <= MAX_SAFE_INTEGER.

(** The double of a safe integer in closed form: the mantissa [p] is shifted
    to 53 bits.  [shl p k] is [p * 2 ^ k]. *)
Definition shl (p : positive) (k : Z) : positive :=
  match k with
  | Z.pos q => Pos.iter xO p q
  | _ => p
  end.

Definition enc (s : bool) (p : positive) : number :=
  SpecFloat.S754_finite s (shl p (53 - Z.pos (Pos.size p))) (Z.pos (Pos.size p) - 53).

Definition enc_Z (z : Z) : number :=
  match z with
  | 0 => SpecFloat.S754_zero false
  | Z.pos p => enc false p
  | Z.neg p => enc true p
  end.

End Number.

(** ** The data model ([types.ts]) *)

Record Level := mkLevel {
  label : string;
  score : Z;
  criteria_text : string   (* the field [criteria] of a level *)
}.

Record Criterion := mkCriterion {
  c_id : string;
  focus : string;
  levels : list Level
}.

Inductive Status := idle | loading | done_ | error.

Record Student := mkStudent {
  s_id : string;
  name : string;
  contents : list string;
  feedback : string;
  s_score : option Q;       (* [number | null] *)
  levelLabel : string;
  status : Status;
  errorMsg : option string  (* an optional field *)
}.

Record GradingResult := mkGradingResult {
  r_score : Q;
  r_levelLabel : string;
  r_feedback : string
}.

(** ** Constants ([constants.ts]) *)

Definition DEFAULT_LEVELS : list Level :=
  [ mkLevel "超級優異 (Superb)" 100 EmptyString;
    mkLevel "表現良好 (Good)" 89 EmptyString;
    mkLevel "已經做到 (Done)" 79 EmptyString;
    mkLevel "還要加油 (Developing)" 69 EmptyString;
    mkLevel "努力改進 (Beginning)" 59 EmptyString ].

(** ** Threshold derivation ([App.tsx], [totalScoreThresholds]) *)

Record Threshold := mkThreshold {
  t_label : string;
  floor : Z;
  ceiling : Z
}.

(** [label.split(' (')[0]]; [split] never returns an empty array. *)
Definition base_label (l : string) : string :=
  match Str.split " (" l with
  | x :: _ => x
  | [] => EmptyString
  end.

(** [(lIdx < 4) ? (c.levels[lIdx + 1].score + 1) : 0].  Reading [score] off a
    missing level throws. *)
Definition lowerBound (lvls : list Level) (lIdx : nat) : option Z :=
  if (lIdx <? 4)%nat
  then l ← lvls !! (lIdx + 1)%nat; Some (score l + 1)
  else Some 0.

(** [rawFloors[lIdx] += lowerBound].  Past the fifth cell JavaScript would
    store [NaN] in a new cell, and the final [map] then throws on
    [DEFAULT_LEVELS[lIdx].label]; nothing is observable in between, so the
    model throws at once. *)
Definition add_floor (rawFloors : list Z) (lIdx : nat) (v : Z) : option (list Z) :=
  f ← rawFloors !! lIdx; Some (<[lIdx := f + v]> rawFloors).

(** The inner [c.levels.forEach((lvl, lIdx) => ...)]; [rest] is the part of
    [c.levels] still to visit, starting at index [lIdx]. *)
Fixpoint levels_forEach (lvls rest : list Level) (lIdx : nat) (rawFloors : list Z)
  : option (list Z) :=
  match rest with
  | [] => Some rawFloors
  | _ :: rest' =>
      lb ← lowerBound lvls lIdx;
      rawFloors' ← add_floor rawFloors lIdx lb;
      levels_forEach lvls rest' (S lIdx) rawFloors'
  end.

(** The outer [criteria.forEach(c => ...)] on the pair
    [(rawFloors, maxPossibleScore)]. *)
Fixpoint criteria_forEach (cs : list Criterion) (acc : list Z * Z)
  : option (list Z * Z) :=
  match cs with
  | [] => Some acc
  | c :: cs' =>
      l0 ← levels c !! 0%nat;
      rawFloors' ← levels_forEach (levels c) (levels c) 0 acc.1;
      criteria_forEach cs' (rawFloors', acc.2 + score l0)
  end.

(** The callback of the final [rawFloors.map((floor, i) => ...)]. *)
Definition make_threshold (rawFloors : list Z) (maxPossibleScore : Z)
    (i : nat) (fl : Z) : option Threshold :=
  ceil ← match i with
         | O => Some maxPossibleScore
         | S j => p ← rawFloors !! j; Some (p - 1)
         end;
  d ← DEFAULT_LEVELS !! i;
  Some (mkThreshold (base_label (label d)) fl ceil).

Definition totalScoreThresholds (criteria : list Criterion) : option (list Threshold) :=
  acc ← criteria_forEach criteria ([0; 0; 0; 0; 0], 0);
  mapM id (imap (make_threshold acc.1 acc.2) acc.1).

(** [score >= t.floor && score <= t.ceiling]. *)
Definition in_band (sc : Q) (t : Threshold) : bool :=
  Qle_bool (inject_Z (floor t)) sc && Qle_bool sc (inject_Z (ceiling t)).

Definition UNDETERMINED : string := "未判定".

Definition getLevelLabelFromScore (ths : list Threshold) (sc : Q) : string :=
  match List.find (in_band sc) ths with
  | Some t => t_label t
  | None => UNDETERMINED
  end.

Definition default_criterion (id : string) : Criterion :=
  mkCriterion id EmptyString DEFAULT_LEVELS.

(** *** The threshold rule in the words of the specification

    The floor of a level within one criterion is the score of the next-lower
    level plus one, and zero for the bottom level, which has no next-lower
    level.  The floor of a level is the sum of these over the criteria; the
    ceiling of the top level is the sum of the top scores, and the ceiling of
    any other level is the floor of the level above minus one. *)

Definition sumZ (l : list Z) : Z := foldr Z.add 0 l.

Definition spec_level_floor (c : Criterion) (i : nat) : Z :=
  match levels c !! S i with
  | Some lower => score lower + 1
  | None => 0
  end.

Definition spec_floor (criteria : list Criterion) (i : nat) : Z :=
  sumZ (map (fun c => spec_level_floor c i) criteria).

Definition spec_top_score (c : Criterion) : Z :=
  match levels c !! 0%nat with
  | Some top => score top
  | None => 0
  end.

Definition spec_ceiling (criteria : list Criterion) (i : nat) : Z :=
  match i with
  | O => sumZ (map spec_top_score criteria)
  | S j => spec_floor criteria j - 1
  end.

(** A score lies in a band when the floor and the ceiling bracket it. *)
Definition bracketed (sc : Q) (t : Threshold) : Prop :=
  (inject_Z (floor t) <= sc)%Q /\ (sc <= inject_Z (ceiling t))%Q.

(** ** The threshold derivation on JavaScript numbers

    The definitions above add integers.  [App.tsx] adds numbers: a score is
    a constant of [DEFAULT_LEVELS] or what [parseInt] made of a field, that
    is an integer-valued double or [NaN], and every sum is rounded to a
    double.  [Double] is the same code on [Number.number]; [Integral] maps a
    rubric with integer scores into it, and the two derivations are related
    in [DoubleFacts].  A score that is [null] at run time, which is what
    [JSON.parse] gives back for a saved [NaN], adds as the number 0 in every
    sum of the derivation: 0 is its image here. *)

Module Double.
Import Number.

(** [types.ts]. *)
Record Level := mkLevel {
  label : string;
  score : number;
  criteria_text : string   (* the field [criteria] of a level *)
}.

Record Criterion := mkCriterion {
  c_id : string;
  focus : string;
  levels : list Level
}.

Record Student := mkStudent {
  s_id : string;
  name : string;
  contents : list string;
  feedback : string;
  s_score : option number;  (* [number | null] *)
  levelLabel : string;
  status : Status;
  errorMsg : option string  (* an optional field *)
}.

Record GradingResult := mkGradingResult {
  r_score : number;
  r_levelLabel : string;
  r_feedback : string
}.

(** [constants.ts]. *)
Definition DEFAULT_LEVELS : list Level :=
  [ mkLevel "超級優異 (Superb)" (of_Z 100) EmptyString;
    mkLevel "表現良好 (Good)" (of_Z 89) EmptyString;
    mkLevel "已經做到 (Done)" (of_Z 79) EmptyString;
    mkLevel "還要加油 (Developing)" (of_Z 69) EmptyString;
    mkLevel "努力改進 (Beginning)" (of_Z 59) EmptyString ].

Record Threshold := mkThreshold {
  t_label : string;
  floor : number;
  ceiling : number
}.

(** [(lIdx < 4) ? (c.levels[lIdx + 1].score + 1) : 0]. *)
Definition lowerBound (lvls : list Level) (lIdx : nat) : option number :=
  if (lIdx <? 4)%nat
  then l ← lvls !! (lIdx + 1)%nat; Some (add (score l) (of_Z 1))
  else Some (of_Z 0).

(** [rawFloors[lIdx] += lowerBound]; past the fifth cell the model throws
    at once, as [add_floor] above. *)
Definition add_floor (rawFloors : list number) (lIdx : nat) (v : number)
  : option (list number) :=
  f ← rawFloors !! lIdx; Some (<[lIdx := add f v]> rawFloors).

Fixpoint levels_forEach (lvls rest : list Level) (lIdx : nat) (rawFloors : list number)
  : option (list number) :=
  match rest with
  | [] => Some rawFloors
  | _ :: rest' =>
      lb ← lowerBound lvls lIdx;
      rawFloors' ← add_floor rawFloors lIdx lb;
      levels_forEach lvls rest' (S lIdx) rawFloors'
  end.

(** [maxPossibleScore += c.levels[0].score], then the inner loop. *)
Fixpoint criteria_forEach (cs : list Criterion) (acc : list number * number)
  : option (list number * number) :=
  match cs with
  | [] => Some acc
  | c :: cs' =>
      l0 ← levels c !! 0%nat;
      rawFloors' ← levels_forEach (levels c) (levels c) 0 acc.1;
      criteria_forEach cs' (rawFloors', add acc.2 (score l0))
  end.

(** [(i === 0) ? maxPossibleScore : (rawFloors[i - 1] - 1)] and the label. *)
Definition make_threshold (rawFloors : list number) (maxPossibleScore : number)
    (i : nat) (fl : number) : option Threshold :=
  ceil ← match i with
         | O => Some maxPossibleScore
         | S j => p ← rawFloors !! j; Some (sub p (of_Z 1))
         end;
  d ← DEFAULT_LEVELS !! i;
  Some (mkThreshold (base_label (label d)) fl ceil).

Definition totalScoreThresholds (criteria : list Criterion) : option (list Threshold) :=
  acc ← criteria_forEach criteria ([of_Z 0; of_Z 0; of_Z 0; of_Z 0; of_Z 0], of_Z 0);
  mapM id (imap (make_threshold acc.1 acc.2) acc.1).

(** [score >= t.floor && score <= t.ceiling]. *)
Definition in_band (sc : number) (t : Threshold) : bool :=
  leb (floor t) sc && leb sc (ceiling t).

Definition getLevelLabelFromScore (ths : list Threshold) (sc : number) : string :=
  match List.find (in_band sc) ths with
  | Some t => t_label t
  | None => UNDETERMINED
  end.

(** The callback of [prev.map] in the success branch of [startBatchGrading]. *)
Definition mark_done (id : string) (sc : number) (lbl fb : string) (st : Student)
  : Student :=
  if decide (s_id st = id)
  then {| s_id := s_id st; name := name st; contents := contents st;
          feedback := fb; s_score := Some sc;
          levelLabel := lbl; status := done_;
          errorMsg := errorMsg st |}
  else st.

(** The success branch of one iteration, after the call returned [res]:
    [getLevelLabelFromScore(res.score)], then [setStudents].  The handler and
    [getLevelLabelFromScore] are closures of one render, whose
    [totalScoreThresholds] is the derivation on the [criteria] of that
    render; had the derivation thrown, there would be no handler. *)
Definition on_success (criteria : list Criterion) (s : Student) (res : GradingResult)
    (students : list Student) : option (list Student) :=
  ths ← totalScoreThresholds criteria;
  let autoDetectedLabel := getLevelLabelFromScore ths (r_score res) in
  Some (map (mark_done (s_id s) (r_score res) autoDetectedLabel (r_feedback res))
            students).



End Double.

(** *** The rule of the specification on numbers

    The sums of the rule, taken in the order of the criteria and rounded at
    every step, as the loop takes them. *)

Module DoubleSpec.
Import Number.

Definition sum (l : list number) : number := foldl add (of_Z 0) l.

Definition level_floor (c : Double.Criterion) (i : nat) : number :=
  match Double.levels c !! S i with
  | Some lower => add (Double.score lower) (of_Z 1)
  | None => of_Z 0
  end.

Definition floors (criteria : list Double.Criterion) (i : nat) : number :=
  sum (map (fun c => level_floor c i) criteria).

Definition top_score (c : Double.Criterion) : number :=
  match Double.levels c !! 0%nat with
  | Some top => Double.score top
  | None => of_Z 0
  end.

Definition ceilings (criteria : list Double.Criterion) (i : nat) : number :=
  match i with
  | O => sum (map top_score criteria)
  | S j => sub (floors criteria j) (of_Z 1)
  end.

Definition five (c : Double.Criterion) : Prop := length (Double.levels c) = 5%nat.

(** A score lies in a band when it is at least the floor and at most the
    ceiling, in the order of the numbers. *)
Definition bracketed (sc : number) (t : Double.Threshold) : Prop :=
  leb (Double.floor t) sc = true /\ leb sc (Double.ceiling t) = true.

(** The default label of a rank. *)
Definition rank_label (i : nat) : option string :=
  (base_label ∘ Double.label) <$> Double.DEFAULT_LEVELS !! i.

End DoubleSpec.

(** *** Rubrics with integer scores *)

Module Integral.

Definition level (l : Level) : Double.Level :=
  Double.mkLevel (label l) (Number.of_Z (score l)) (criteria_text l).

Definition criterion (c : Criterion) : Double.Criterion :=
  Double.mkCriterion (c_id c) (focus c) (map level (levels c)).

Definition threshold (t : Threshold) : Double.Threshold :=
  Double.mkThreshold (t_label t) (Number.of_Z (floor t)) (Number.of_Z (ceiling t)).

(** The largest absolute value of a level score of a criterion. *)
Definition magnitude (c : Criterion) : Z :=
  foldr Z.max 0 (map (fun l => Z.abs (score l)) (levels c)).

(** Every sum of the derivation is a safe integer when the magnitudes of
    the criteria, each plus one, add up to a safe integer. *)
Definition weight (criteria : list Criterion) : Z :=
  sumZ (map (fun c => magnitude c + 1) criteria).

Definition safe_rubric (criteria : list Criterion) : Prop :=
  weight criteria <= Number.MAX_SAFE_INTEGER.

End Integral.

(** ** The structured AI calls ([services/geminiService]) *)

Inductive Exn :=
  | Error (msg : string)   (* [new Error(msg)] *)
  | SyntaxError            (* thrown by [JSON.parse] *)
  | Rejected.              (* the request itself failed *)

(** A parsed JSON value. *)
#[warnings="-register-all"]
Inductive json :=
  | JNull
  | JBool (b : bool)
  | JNum (q : Q)
  | JStr (s : string)
  | JArr (l : list json)
  | JObj (l : list (string * json)).

Definition isArray (v : json) : bool :=
  match v with JArr _ => true | _ => false end.

Module Service.
Section Service.

(** [JSON.parse]; [None] is its [SyntaxError]. *)
Variable JSON_parse : string -> option json.

(** [!text] on a [string | undefined]. *)
Definition falsy (text : option string) : bool :=
  match text with
  | None | Some EmptyString => true
  | Some _ => false
  end.

(** The [try] block of [generateRubricCriteria]; the [catch] logs and
    throws the same exception again. *)
Definition generateRubricCriteria_parse (text : option string) : Exn + json :=
  match text with
  | None | Some EmptyString => inl (Error "AI returned empty response")
  | Some t =>
      match JSON_parse t with
      | None => inl SyntaxError
      | Some data => inr (if isArray data then data else JArr [])
      end
  end.

(** The [try] block of [evaluateStudentWork]. *)
Definition evaluateStudentWork_parse (text : option string) : Exn + json :=
  match text with
  | None | Some EmptyString => inl (Error "Empty AI response")
  | Some t =>
      match JSON_parse t with
      | None => inl SyntaxError
      | Some data => inr data
      end
  end.

(** The whole call: [response] is what [await ai.models.generateContent]
    gives, the text of the response or a rejection, which is not caught
    inside the service. *)
Definition generateRubricCriteria (response : Exn + option string) : Exn + json :=
  match response with
  | inl e => inl e
  | inr text => generateRubricCriteria_parse text
  end.

Definition evaluateStudentWork (response : Exn + option string) : Exn + json :=
  match response with
  | inl e => inl e
  | inr text => evaluateStudentWork_parse text
  end.

End Service.

(** A reader of the JSON texts that are one decimal digit, enough to run the
    calls on a response such as [5]. *)
Definition parse_digit (t : string) : option json :=
  match t with
  | String c EmptyString =>
      let n := nat_of_ascii c in
      if ((48 <=? n) && (n <=? 57))%nat then Some (JNum (inject_Z (Z.of_nat (n - 48))))
      else None
  | _ => None
  end.

End Service.

(** ** CSV export and import ([App.tsx]) *)

Module CSV.

(** The byte order mark, U+FEFF. *)
Definition BOM : string := String "239" (String "187" (String "191" EmptyString)).

Section CSV.

(** [Number.prototype.toString], used by [join] on the score. *)
Variable numberToString : Q -> string.
(** The identifiers [uuidv4()] hands out, in the order of the calls. *)
Variable uuidv4 : nat -> string.

Definition sep_comma : string := Str.of_char Str.comma.
Definition sep_newline : string := Str.of_char Str.newline.

(** [join] writes [null] as the empty string. *)
Definition score_cell (o : option Q) : string :=
  match o with
  | Some q => numberToString q
  | None => EmptyString
  end.

Definition header (tasks : list string) : string :=
  Str.join sep_comma
    (["姓名"] ++ imap (fun i _ => "題" +:+ Str.of_nat (i + 1)) tasks
             ++ ["得分"; "等級"; "評語"]).

Definition row (s : Student) : string :=
  Str.join sep_comma
    ([name s] ++ map Str.quoted (contents s)
              ++ [score_cell (s_score s); levelLabel s; Str.quoted (feedback s)]).

(** The text put in the [Blob] of the export. *)
Definition export (tasks : list string) (students : list Student) : string :=
  BOM +:+ header tasks +:+ sep_newline +:+ Str.join sep_newline (map row students).

(** [FileReader.readAsText]: the UTF-8 decoder drops a leading byte order
    mark. *)
Definition readAsText (file : string) : string :=
  match file with
  | String "239" (String "187" (String "191" text)) => text
  | _ => file
  end.

(** [r[i] || ""], also for the name, where [split] guarantees a first
    cell. *)
Definition cell (r : list string) (i : nat) : string := default EmptyString (r !! i).

Definition import_student (tasks : list string) (k : nat) (r : list string) : Student :=
  {| s_id := uuidv4 k;
     name := cell r 0;
     contents := imap (fun i _ => cell r (i + 1)) tasks;
     feedback := EmptyString;
     s_score := None;
     levelLabel := EmptyString;
     status := idle;
     errorMsg := None |}.

(** [text.split('\n').map(x => x.split(',')).slice(1)]. *)
Definition rows (text : string) : list (list string) :=
  tail (map (Str.split sep_comma) (Str.split sep_newline text)).

(** The [onload] handler of the import: the new value of [students]. *)
Definition import (tasks : list string) (text : string) : list Student :=
  imap (import_student tasks) (rows text).

End CSV.
End CSV.

(** *** The round trip in the words of the specification *)

Module CSVSpec.

(** The fields that the import reads back: the name and the answers. *)
Definition same_fields (imported exported : list Student) : Prop :=
  map name imported = map name exported /\
  map contents imported = map contents exported.

(** A student whose row the import can tell apart: no line break in any
    cell, and no comma in the name or in an answer. *)
Definition plain (numberToString : Q -> string) (s : Student) : Prop :=
  Str.has Str.newline (name s) = false /\
  Str.has Str.comma (name s) = false /\
  Forall (fun c => Str.has Str.newline c = false /\ Str.has Str.comma c = false)
         (contents s) /\
  Str.has Str.newline (CSV.score_cell numberToString (s_score s)) = false /\
  Str.has Str.newline (levelLabel s) = false /\
  Str.has Str.newline (feedback s) = false.

End CSVSpec.

(** ** Batch grading ([App.tsx], [startBatchGrading]) *)

Module Grading.

Record State := mkState {
  students : list Student;
  isEvaluating : bool;
  evaluatingProgress : nat * nat;   (* [current], [total] *)
  errorToast : option string;
  calls : list Student              (* the students handed to the AI call, oldest first *)
}.

Definition ERROR_MSG : string := "能量中斷 (API 頻率限制)".
Definition TOAST_MSG : string := "月亮能量不足（API 頻率限制），評分已暫停。".

Definition is_done (x : Status) : bool :=
  match x with done_ => true | _ => false end.

(** [s.status !== 'done' && s.contents.some(c => c.trim() !== "")]. *)
Definition is_target (s : Student) : bool :=
  negb (is_done (status s)) && existsb (fun c => negb (Str.blank c)) (contents s).

(** The three callbacks given to [prev.map]. *)
Definition mark_loading (id : string) (st : Student) : Student :=
  if decide (s_id st = id)
  then {| s_id := s_id st; name := name st; contents := contents st;
          feedback := feedback st; s_score := s_score st;
          levelLabel := levelLabel st; status := loading;
          errorMsg := errorMsg st |}
  else st.

Definition mark_done (id : string) (sc : Q) (lbl fb : string) (st : Student) : Student :=
  if decide (s_id st = id)
  then {| s_id := s_id st; name := name st; contents := contents st;
          feedback := fb; s_score := Some sc;
          levelLabel := lbl; status := done_;
          errorMsg := errorMsg st |}
  else st.

Definition mark_error (id : string) (st : Student) : Student :=
  if decide (s_id st = id)
  then {| s_id := s_id st; name := name st; contents := contents st;
          feedback := feedback st; s_score := s_score st;
          levelLabel := levelLabel st; status := error;
          errorMsg := Some ERROR_MSG |}
  else st.

Definition setStudents (f : list Student -> list Student) (st : State) : State :=
  mkState (f (students st)) (isEvaluating st) (evaluatingProgress st)
          (errorToast st) (calls st).
Definition setIsEvaluating (b : bool) (st : State) : State :=
  mkState (students st) b (evaluatingProgress st) (errorToast st) (calls st).
Definition setEvaluatingProgress (f : nat * nat -> nat * nat) (st : State) : State :=
  mkState (students st) (isEvaluating st) (f (evaluatingProgress st))
          (errorToast st) (calls st).
Definition setErrorToast (m : string) (st : State) : State :=
  mkState (students st) (isEvaluating st) (evaluatingProgress st) (Some m) (calls st).
Definition record_call (s : Student) (st : State) : State :=
  mkState (students st) (isEvaluating st) (evaluatingProgress st)
          (errorToast st) (calls st ++ [s]).

Section Grading.

(** The AI call as the loop sees it.  Its first argument numbers the
    iteration, since the service need not answer the same way twice.  An
    answer that is [null] makes the read of [res.score] throw inside the
    same [try]; it is an [inl] here.  Any other answer is taken to have the
    shape its type, [GradingResult], promises. *)
Variable evaluateStudentWork :
  nat -> Student -> list string -> list Criterion -> Exn + GradingResult.

(** What the handler closes over: the tasks, the rubric and the memoised
    value of [totalScoreThresholds]. *)
Variable tasks : list string.
Variable criteria : list Criterion.
Variable thresholds : list Threshold.

(** The [try] and the [catch] branch of one iteration, after the call
    returned. *)
Definition on_success (s : Student) (res : GradingResult) (st : State) : State :=
  let autoDetectedLabel := getLevelLabelFromScore thresholds (r_score res) in
  setStudents (map (mark_done (s_id s) (r_score res) autoDetectedLabel (r_feedback res))) st.

Definition on_failure (s : Student) (st : State) : State :=
  setErrorToast TOAST_MSG (setStudents (map (mark_error (s_id s))) st).

(** One turn of the [for] loop on [targets[i] = s].  The pause of four
    seconds that follows a success changes no state and is left out. *)
Definition iteration (i : nat) (s : Student) (st : State) : State :=
  let st := setEvaluatingProgress (fun prev => (i + 1, prev.2)%nat) st in
  let st := setStudents (map (mark_loading (s_id s))) st in
  let st := record_call s st in
  match evaluateStudentWork i s tasks criteria with
  | inr res => on_success s res st
  | inl _ => on_failure s st
  end.

(** The [for] loop from index [i] on; [targets] is what is left of the
    array. *)
Fixpoint loop (i : nat) (targets : list Student) (st : State) : State :=
  match targets with
  | [] => st
  | s :: rest => loop (S i) rest (iteration i s st)
  end.

Definition startBatchGrading (st : State) : State :=
  let targets := List.filter is_target (students st) in
  match targets with
  | [] => st
  | _ :: _ =>
      let st := setIsEvaluating true st in
      let st := setEvaluatingProgress (fun _ => (0, length targets)%nat) st in
      setIsEvaluating false (loop 0 targets st)
  end.

(** What one iteration, and what the rest of the loop, does to one record
    of [students]: the callbacks of the iteration, composed. *)
Definition settle (i : nat) (s : Student) (x : Student) : Student :=
  match evaluateStudentWork i s tasks criteria with
  | inr res =>
      mark_done (s_id s) (r_score res)
        (getLevelLabelFromScore thresholds (r_score res)) (r_feedback res)
        (mark_loading (s_id s) x)
  | inl _ => mark_error (s_id s) (mark_loading (s_id s) x)
  end.

Fixpoint settle_all (i : nat) (targets : list Student) (x : Student) : Student :=
  match targets with
  | [] => x
  | s :: rest => settle_all (S i) rest (settle i s x)
  end.

End Grading.
End Grading.

(** *** Batch grading in the words of the specification *)

Module GradingSpec.

(** A student lacks a result when its status is not [done]. *)
Definition lacks_result (s : Student) : bool := negb (Grading.is_done (status s)).

(** A student has an answer when one of its answers is not blank. *)
Definition has_answer (s : Student) : bool :=
  existsb (fun c => negb (Str.blank c)) (contents s).

(** What the failure of its call leaves of a student: the status and the
    error message are set, the other fields are kept. *)
Definition failed (x : Student) : Student :=
  {| s_id := s_id x; name := name x; contents := contents x;
     feedback := feedback x; s_score := s_score x; levelLabel := levelLabel x;
     status := error; errorMsg := Some Grading.ERROR_MSG |}.

End GradingSpec.

(** ** The rubric editor and the template library ([App.tsx])

    The handlers write fields of [Criterion] and [Level] objects in place,
    and a saved template keeps the very array of criteria the editor shows.
    The objects therefore live in a store: a reference is an index in [heap],
    objects are never freed, and a level belongs to one criterion for good,
    so a cell holds a criterion with its levels. *)

Module Editor.

Definition loc := nat.

(** A template as [JSON.stringify] sees it. *)
Record Template := mkTemplate {
  t_id : string;
  t_name : string;
  t_tasks : list string;
  t_criteria : list Criterion;
  timestamp : Z
}.

(** A template in memory: its criteria are references. *)
Record TemplateObj := mkTemplateObj {
  o_id : string;
  o_name : string;
  o_tasks : list string;
  o_criteria : list loc;
  o_timestamp : Z
}.

Record App := mkApp {
  heap : list Criterion;
  tasks : list string;
  criteria : list loc;
  templates : list TemplateObj;
  selectedTemplateId : string;
  pending : list (list loc * nat);        (* rubric generations awaiting their answer:
                                              the [criteria] and [cIdx] of their closure *)
  localStorage : gmap string string
}.

Definition STORAGE_KEY : string := "sailor_grading_templates".

(** *** The store *)

Definition alloc (c : Criterion) (h : list Criterion) : list Criterion * loc :=
  (h ++ [c], length h).

Fixpoint alloc_all (cs : list Criterion) (h : list Criterion) : list Criterion * list loc :=
  match cs with
  | [] => (h, [])
  | c :: cs' =>
      let '(h1, l) := alloc c h in
      let '(h2, ls) := alloc_all cs' h1 in
      (h2, l :: ls)
  end.

(** The objects behind a list of references. *)
Definition view_criteria (h : list Criterion) (refs : list loc) : list Criterion :=
  omap (fun l => h !! l) refs.

Definition view_template (h : list Criterion) (t : TemplateObj) : Template :=
  mkTemplate (o_id t) (o_name t) (o_tasks t) (view_criteria h (o_criteria t))
             (o_timestamp t).

Definition view_templates (a : App) : list Template :=
  map (view_template (heap a)) (templates a).

(** [JSON.parse(JSON.stringify(cs))]: fresh objects with the same
    contents.  The contents are strings and integer scores, which JSON
    gives back as they are; a score that is not finite would come back as
    [null], and is not a score of this model. *)
Definition deep_copy (h : list Criterion) (refs : list loc) : list Criterion * list loc :=
  alloc_all (view_criteria h refs) h.

(** [{ id: uuidv4(), focus: "", levels: JSON.parse(JSON.stringify(DEFAULT_LEVELS)) }]. *)
Definition new_criterion (id : string) : Criterion :=
  mkCriterion id EmptyString DEFAULT_LEVELS.

(** Field writes. *)
Definition set_focus (v : string) (c : Criterion) : Criterion :=
  mkCriterion (c_id c) v (levels c).
Definition set_level_score (v : Z) (l : Level) : Level :=
  mkLevel (label l) v (criteria_text l).
Definition set_level_criteria (v : string) (l : Level) : Level :=
  mkLevel (label l) (score l) v.
Definition set_levels (lvls : list Level) (c : Criterion) : Criterion :=
  mkCriterion (c_id c) (focus c) lvls.

(** [n[cIdx].levels[lIdx].<field> = ...] on the store; [None] is the
    [TypeError] of a missing criterion or level. *)
Definition write_level (f : Level -> Level) (refs : list loc) (cIdx lIdx : nat)
    (h : list Criterion) : option (list Criterion) :=
  l ← refs !! cIdx;
  c ← h !! l;
  lvl ← levels c !! lIdx;
  Some (<[l := set_levels (<[lIdx := f lvl]> (levels c)) c]> h).

Definition write_focus (v : string) (refs : list loc) (cIdx : nat)
    (h : list Criterion) : option (list Criterion) :=
  l ← refs !! cIdx;
  c ← h !! l;
  Some (<[l := set_focus v c]> h).

(** [res.forEach((text, i) => { if (n[cIdx].levels[i]) n[cIdx].levels[i].criteria = text; })]. *)
Fixpoint fill_criteria (res : list string) (i : nat) (refs : list loc) (cIdx : nat)
    (h : list Criterion) : option (list Criterion) :=
  match res with
  | [] => Some h
  | text :: res' =>
      l ← refs !! cIdx;
      c ← h !! l;
      let h' := match levels c !! i with
                | Some lvl => <[l := set_levels (<[i := set_level_criteria text lvl]> (levels c)) c]> h
                | None => h
                end in
      fill_criteria res' (S i) refs cIdx h'
  end.

(** *** Setters *)

Definition with_heap (h : list Criterion) (a : App) : App :=
  mkApp h (tasks a) (criteria a) (templates a) (selectedTemplateId a) (pending a)
        (localStorage a).
Definition setTasks (t : list string) (a : App) : App :=
  mkApp (heap a) t (criteria a) (templates a) (selectedTemplateId a) (pending a)
        (localStorage a).
Definition setCriteria (c : list loc) (a : App) : App :=
  mkApp (heap a) (tasks a) c (templates a) (selectedTemplateId a) (pending a)
        (localStorage a).
Definition setSelectedTemplateId (id : string) (a : App) : App :=
  mkApp (heap a) (tasks a) (criteria a) (templates a) id (pending a) (localStorage a).
Definition with_pending (p : list (list loc * nat)) (a : App) : App :=
  mkApp (heap a) (tasks a) (criteria a) (templates a) (selectedTemplateId a) p
        (localStorage a).
Definition with_storage (s : gmap string string) (a : App) : App :=
  mkApp (heap a) (tasks a) (criteria a) (templates a) (selectedTemplateId a) (pending a) s.
Definition with_templates (ts : list TemplateObj) (a : App) : App :=
  mkApp (heap a) (tasks a) (criteria a) ts (selectedTemplateId a) (pending a)
        (localStorage a).

Section Editor.

(** [JSON.stringify] and [JSON.parse] on a list of templates. *)
Variable stringify : list Template -> string.
Variable parse : string -> option (list Template).

(** The second effect, which React runs after a render in which
    [templates] is a new array:
    [localStorage.setItem('sailor_grading_templates', JSON.stringify(templates))]. *)
Definition sync_effect (a : App) : App :=
  with_storage (<[STORAGE_KEY := stringify (view_templates a)]> (localStorage a)) a.

(** [setTemplates(ts)] followed by the render and its effect. *)
Definition setTemplates (ts : list TemplateObj) (a : App) : App :=
  sync_effect (with_templates ts a).

(** Objects for the templates read from the storage. *)
Fixpoint alloc_templates (ts : list Template) (h : list Criterion)
  : list Criterion * list TemplateObj :=
  match ts with
  | [] => (h, [])
  | t :: ts' =>
      let '(h1, refs) := alloc_all (t_criteria t) h in
      let '(h2, os) := alloc_templates ts' h1 in
      (h2, mkTemplateObj (t_id t) (t_name t) (t_tasks t) refs (timestamp t) :: os)
  end.

(** The first render and its two effects.  [id] is the identifier of the
    initial criterion.  The first effect reads the slot and, when it holds
    a text that parses, asks for a new value of [templates]; the second
    effect then runs with the empty list of the first render; the state
    update brings a second render, after which the second effect runs
    again. *)
Definition mount (id : string) (storage : gmap string string) : App :=
  let a := mkApp [new_criterion id] [EmptyString] [0%nat] [] EmptyString [] storage in
  let saved := storage !! STORAGE_KEY in
  let update := match saved with
                | None | Some EmptyString => None
                | Some txt => parse txt
                end in
  let a := sync_effect a in
  match update with
  | None => a
  | Some ts =>
      let '(h, os) := alloc_templates ts (heap a) in
      setTemplates os (with_heap h a)
  end.

(** *** The handlers *)

Inductive event :=
  | EditTask (idx : nat) (v : string)
  | RemoveTask (idx : nat)
  | AddTask
  | SelectTemplate (value : string) (id : string)
      (* the drop-down list: [value] is the chosen option, [id] the
         identifier made when the option is the blank one *)
  | EditFocus (cIdx : nat) (v : string)
  | EditScore (cIdx lIdx : nat) (v : Z)
  | EditCriteria (cIdx lIdx : nat) (v : string)
  | GenerateClick (cIdx : nat)
  | GenerateDone (k : nat) (res : list string)
      (* the answer to the [k]-th generation still awaited *)
  | RemoveCriterion (cIdx : nat)
  | AddCriterion (id : string)
  | SaveTemplate (id name : string) (now : Z)
  | LoadTemplate (k : nat)
  | DeleteTemplate (k : nat).

Definition load (t : TemplateObj) (a : App) : App :=
  let '(h, refs) := deep_copy (heap a) (o_criteria t) in
  setSelectedTemplateId (o_id t) (setCriteria refs (setTasks (o_tasks t) (with_heap h a))).

Definition remove_at {A} (idx : nat) (l : list A) : list A :=
  omap id (imap (fun i x => if decide (i = idx) then None else Some x) l).

(** A handler that throws leaves the state as it was.  The indices of an
    event are those of the rows drawn from the same state, so a write such
    as [n[idx] = v] stays inside its array. *)
Definition step (e : event) (a : App) : App :=
  match e with
  | EditTask idx v => setTasks (<[idx := v]> (tasks a)) a
  | RemoveTask idx =>
      (* the button is drawn only when [tasks.length > 1] *)
      if (1 <? length (tasks a))%nat then setTasks (remove_at idx (tasks a)) a else a
  | AddTask => setTasks (tasks a ++ [EmptyString]) a
  | SelectTemplate value id =>
      if decide (value = EmptyString) then
        let '(h, l) := alloc (new_criterion id) (heap a) in
        setSelectedTemplateId EmptyString
          (setCriteria [l] (setTasks [EmptyString] (with_heap h a)))
      else
        match List.find (fun x => bool_decide (o_id x = value)) (templates a) with
        | Some t => load t a
        | None => a
        end
  | EditFocus cIdx v =>
      match write_focus v (criteria a) cIdx (heap a) with
      | Some h => with_heap h a
      | None => a
      end
  | EditScore cIdx lIdx v =>
      match write_level (set_level_score v) (criteria a) cIdx lIdx (heap a) with
      | Some h => with_heap h a
      | None => a
      end
  | EditCriteria cIdx lIdx v =>
      match write_level (set_level_criteria v) (criteria a) cIdx lIdx (heap a) with
      | Some h => with_heap h a
      | None => a
      end
  | GenerateClick cIdx => with_pending (pending a ++ [(criteria a, cIdx)]) a
  | GenerateDone k res =>
      match pending a !! k with
      | None => a
      | Some (refs, cIdx) =>
          let a := with_pending (delete k (pending a)) a in
          match fill_criteria res 0 refs cIdx (heap a) with
          | Some h => setCriteria refs (with_heap h a)
          | None => a
          end
      end
  | RemoveCriterion cIdx =>
      match criteria a !! cIdx ≫= (fun l => heap a !! l) with
      | None => a
      | Some c =>
          setCriteria
            (List.filter (fun l => match heap a !! l with
                                   | Some c' => negb (bool_decide (c_id c' = c_id c))
                                   | None => true
                                   end) (criteria a)) a
      end
  | AddCriterion id =>
      let '(h, l) := alloc (new_criterion id) (heap a) in
      setCriteria (criteria a ++ [l]) (with_heap h a)
  | SaveTemplate id name now =>
      let n := mkTemplateObj id name (tasks a) (criteria a) now in
      setSelectedTemplateId id (setTemplates (n :: templates a) a)
  | LoadTemplate k =>
      match templates a !! k with
      | Some t => load t a
      | None => a
      end
  | DeleteTemplate k =>
      match templates a !! k with
      | None => a
      | Some t =>
          let a' := setTemplates
                      (List.filter (fun x => negb (bool_decide (o_id x = o_id t)))
                                   (templates a)) a in
          if decide (selectedTemplateId a = o_id t)
          then setSelectedTemplateId EmptyString a'
          else a'
      end
  end.

(** A session: the page is loaded, then the user acts. *)
Definition run (id : string) (storage : gmap string string) (es : list event) : App :=
  foldl (fun a e => step e a) (mount id storage) es.

End Editor.
End Editor.

(* THEOREMS *)

(** *** The invariants of the editor, in the words of the specification *)

Module EditorSpec.
Import Editor.

(** A criterion has exactly five levels. *)
Definition five (c : Criterion) : Prop := length (levels c) = 5%nat.

(** The slot holds the serialization of the current list of templates. *)
Definition synced (stringify : list Template -> string) (a : App) : Prop :=
  localStorage a !! STORAGE_KEY = Some (stringify (view_templates a)).

(** The templates in the slot were saved by this application: those the slot
    gives, if it gives any, have criteria of five levels. *)
Definition stored_five (parse : string -> option (list Template))
    (storage : gmap string string) : Prop :=
  forall txt ts, storage !! STORAGE_KEY = Some txt -> parse txt = Some ts ->
    Forall (fun t => Forall five (t_criteria t)) ts.

(** Every reference is to an object of the store. *)
Definition refs_ok (h : list Criterion) (refs : list loc) : Prop :=
  Forall (fun l => (l < length h)%nat) refs.

Definition well_formed (a : App) : Prop :=
  refs_ok (heap a) (criteria a) /\
  Forall (fun t => refs_ok (heap a) (o_criteria t)) (templates a) /\
  Forall (fun p => refs_ok (heap a) p.1) (pending a).

(** From one store to a later one: every object is still there with as many
    levels as before, and an object of the later store has five levels or as
    many as some object of the earlier store. *)
Definition evolves (h h' : list Criterion) : Prop :=
  (forall l c, h !! l = Some c ->
     exists c', h' !! l = Some c' /\ length (levels c') = length (levels c)) /\
  (forall c', c' ∈ h' ->
     five c' \/ exists c, c ∈ h /\ length (levels c') = length (levels c)).

End EditorSpec.

(** ** The student table ([App.tsx]) *)

Module Table.

(** The record made by the button that adds a student; [id] is the
    identifier [uuidv4()] gives. *)
Definition new_student (id : string) (tasks : list string) (students : list Student)
  : Student :=
  {| s_id := id;
     name := "學生 " +:+ Str.of_nat (length students + 1);
     contents := replicate (length tasks) EmptyString;
     feedback := EmptyString;
     s_score := None;
     levelLabel := EmptyString;
     status := idle;
     errorMsg := None |}.

Definition addStudent (id : string) (tasks : list string) (students : list Student)
  : list Student :=
  students ++ [new_student id tasks students].

(** The field of the name: [students.map(x => x.id === s.id ? {...x, name: v} : x)]. *)
Definition renameStudent (id v : string) (students : list Student) : list Student :=
  map (fun x => if decide (s_id x = id)
                then {| s_id := s_id x; name := v; contents := contents x;
                        feedback := feedback x; s_score := s_score x;
                        levelLabel := levelLabel x; status := status x;
                        errorMsg := errorMsg x |}
                else x) students.

(** The button that removes a row: [students.filter(x => x.id !== s.id)]. *)
Definition removeStudent (id : string) (students : list Student) : list Student :=
  List.filter (fun x => negb (bool_decide (s_id x = id))) students.

End Table.

(** ** The chart of the report ([App.tsx], [chartData]) *)

Module Chart.

(** The body of [students.forEach]: a student with a label adds one to the
    count of the base name of its label.  [dist] is a plain object used as a
    map; labels that name a property of [Object.prototype] are outside the
    model, and so is the order in which [Object.entries] lists the keys. *)
Definition count_label (dist : gmap string nat) (s : Student) : gmap string nat :=
  match levelLabel s with
  | EmptyString => dist
  | _ =>
      let baseName := base_label (levelLabel s) in
      <[baseName := (default 0 (dist !! baseName) + 1)%nat]> dist
  end.

Definition dist (students : list Student) : gmap string nat :=
  foldl count_label ∅ students.

(** The students counted under a base name. *)
Definition labelled (b : string) (s : Student) : bool :=
  negb (bool_decide (levelLabel s = EmptyString))
  && bool_decide (base_label (levelLabel s) = b).

End Chart.

(** ** The badge of a level ([App.tsx], the cell of the level) *)

Module Rank.

Definition RANK_STYLES : list string :=
  [ "bg-pink-100 text-pink-600 border-pink-200";
    "bg-blue-100 text-blue-600 border-blue-200";
    "bg-red-100 text-red-600 border-red-200";
    "bg-green-100 text-green-700 border-green-200";
    "bg-yellow-100 text-yellow-700 border-yellow-200" ].

(** [Array.prototype.findIndex], counting from [i]; [-1] when nothing is
    found. *)
Fixpoint findIndex {A} (p : A -> bool) (l : list A) (i : Z) : Z :=
  match l with
  | [] => -1
  | x :: rest => if p x then i else findIndex p rest (i + 1)
  end.

(** [DEFAULT_LEVELS.findIndex(l => l.label.startsWith(s.levelLabel)) || 0]:
    of the integers only [0] is falsy. *)
Definition rank_index (lbl : string) : Z :=
  let i := findIndex (fun l => String.prefix lbl (label l)) DEFAULT_LEVELS 0 in
  if (i =? 0) then 0 else i.

(** [RANK_STYLES[...]]; [None] is [undefined], which the template literal
    writes as the class name [undefined]. *)
Definition rank_style (lbl : string) : option string :=
  let i := rank_index lbl in
  if (0 <=? i) then RANK_STYLES !! Z.to_nat i else None.

End Rank.

(** ** The class analysis ([services/geminiService], [generateClassAnalysis]) *)

Module Analysis.

(** What is sent about a student: [{ name, score, level }]. *)
Record Row := mkRow {
  row_name : string;
  row_score : option Q;
  row_level : string
}.

(** [students.filter(s => s.status === 'done').map(...)]. *)
Definition data (students : list Student) : list Row :=
  map (fun s => mkRow (name s) (s_score s) (levelLabel s))
      (List.filter (fun s => Grading.is_done (status s)) students).

Definition FALLBACK : string := "報告生成失敗".

Section Analysis.

(** [JSON.stringify] on the rows. *)
Variable JSON_stringify : list Row -> string.

(** The service: what it answers to the [k]-th request it gets, the text of
    a response or a rejection.  It need not answer the same way twice. *)
Variable generateContent : nat -> string -> Exn + option string.

(** The text of the request. *)
Definition prompt (students : list Student) : string :=
  "請分析數據：" +:+ JSON_stringify (data students)
  +:+ "。請像露娜(Luna)一樣輸出 Markdown 報告。".

(** The call, as the [k]-th request to the service.  The result is
    [response.text || FALLBACK]. *)
Definition generateClassAnalysis (k : nat) (students : list Student) : Exn + string :=
  match generateContent k (prompt students) with
  | inl e => inl e
  | inr None | inr (Some EmptyString) => inr FALLBACK
  | inr (Some text) => inr text
  end.

End Analysis.

End Analysis.

(** ** What the page shows of the grading state ([App.tsx], the returned JSX)

    The component keeps [students], [isEvaluating], [evaluatingProgress] and
    [errorToast] for the batch.  The JSX reads [isEvaluating] for the overlay
    and for the grading button, [evaluatingProgress] in the overlay, and
    [students] in the rows of the table and, through [chartData], in the
    chart of the report.  It reads [errorToast] nowhere: the only occurrences
    of that name are its declaration and the call of [setErrorToast] in the
    [catch] branch. *)

Module View.

(** The cell of the status: the ring for [loading], the check mark for
    [done], the alert icon whose [title] is [s.errorMsg] for [error], and
    the moon otherwise. *)
Inductive StatusCell := Ring | Check | Alert (title : option string) | Moon.

Record Row := mkRow {
  v_name : string;                            (* [value={s.name}] *)
  v_answers : list (option string);           (* [s.contents[tIdx]] for every task *)
  v_score : option Q;                         (* [s.score ?? '--'] *)
  v_badge : option (option string * string);  (* [s.levelLabel && ...]: style and label *)
  v_feedback : string;                        (* [s.feedback] *)
  v_status : StatusCell
}.

Record Page := mkPage {
  overlay : option (nat * nat);   (* [isEvaluating && ...]: [current] and [total] *)
  rows : list Row;
  chart : gmap string nat;        (* [chartData], drawn when the report is open *)
  grading_disabled : bool         (* [disabled={isEvaluating}] *)
}.

Definition status_cell (s : Student) : StatusCell :=
  match status s with
  | loading => Ring
  | done_ => Check
  | error => Alert (errorMsg s)
  | idle => Moon
  end.

Definition badge (s : Student) : option (option string * string) :=
  match levelLabel s with
  | EmptyString => None
  | lbl => Some (Rank.rank_style lbl, lbl)
  end.

Definition row (tasks : list string) (s : Student) : Row :=
  mkRow (name s) (imap (fun tIdx _ => contents s !! tIdx) tasks) (s_score s)
        (badge s) (feedback s) (status_cell s).

Definition render (tasks : list string) (st : Grading.State) : Page :=
  mkPage (if Grading.isEvaluating st then Some (Grading.evaluatingProgress st) else None)
         (map (row tasks) (Grading.students st))
         (Chart.dist (Grading.students st))
         (Grading.isEvaluating st).

End View.

(** ** Further vocabulary for the properties *)

Module ThresholdSpec.

(** The scores of the levels below the top one do not increase from a level
    to the next-lower one. *)
Definition descending (c : Criterion) : Prop :=
  forall i li lj, (1 <= i)%nat ->
    levels c !! i = Some li -> levels c !! S i = Some lj -> score lj <= score li.

End ThresholdSpec.

Module BatchSpec.
Section BatchSpec.

Variable evaluateStudentWork :
  nat -> Student -> list string -> list Criterion -> Exn + GradingResult.
Variable tasks : list string.
Variable criteria : list Criterion.
Variable thresholds : list Threshold.

(** What a run leaves of a target [x] that is the [i]-th to be called. *)
Definition outcome (i : nat) (x : Student) : Student :=
  match evaluateStudentWork i x tasks criteria with
  | inr res =>
      {| s_id := s_id x; name := name x; contents := contents x;
         feedback := r_feedback res; s_score := Some (r_score res);
         levelLabel := getLevelLabelFromScore thresholds (r_score res);
         status := done_; errorMsg := errorMsg x |}
  | inl _ => GradingSpec.failed x
  end.

(** The list of students after a run, read off the list before it: the
    targets are settled in the order of the list, [i] counting the calls
    made so far; the other students are kept. *)
Fixpoint graded (i : nat) (l : list Student) : list Student :=
  match l with
  | [] => []
  | x :: rest =>
      if Grading.is_target x then outcome i x :: graded (S i) rest
      else x :: graded i rest
  end.

(** Does a call fail, among the calls for [targets] numbered from [i]. *)
Fixpoint any_failure (i : nat) (targets : list Student) : bool :=
  match targets with
  | [] => false
  | s :: rest =>
      match evaluateStudentWork i s tasks criteria with
      | inl _ => true
      | inr _ => any_failure (S i) rest
      end
  end.

(** The targets whose call fails, as the run leaves them. *)
Fixpoint failures (i : nat) (targets : list Student) : list Student :=
  match targets with
  | [] => []
  | s :: rest =>
      match evaluateStudentWork i s tasks criteria with
      | inl _ => GradingSpec.failed s :: failures (S i) rest
      | inr _ => failures (S i) rest
      end
  end.

End BatchSpec.
End BatchSpec.

Module CSVCount.

(** The number of occurrences of a character. *)
Fixpoint count (c : ascii) (s : string) : nat :=
  match s with
  | EmptyString => 0
  | String d s' => if ascii_dec c d then S (count c s') else count c s'
  end.

(** What the import makes of an empty line: no name and empty answers. *)
Definition empty_student (id : string) (tasks : list string) : Student :=
  {| s_id := id; name := EmptyString;
     contents := replicate (length tasks) EmptyString;
     feedback := EmptyString; s_score := None; levelLabel := EmptyString;
     status := idle; errorMsg := None |}.

End CSVCount.

Module LibrarySpec.
Import Editor.

(** The events that write a field of a criterion or of a level. *)
Definition is_edit (e : event) : bool :=
  match e with
  | EditFocus _ _ | EditScore _ _ _ | EditCriteria _ _ _ => true
  | _ => false
  end.

(** The events whose handler calls [setTemplates]. *)
Definition writes_templates (e : event) : bool :=
  match e with
  | SaveTemplate _ _ _ | DeleteTemplate _ => true
  | _ => false
  end.

(** The events of a rubric generation. *)
Definition is_generate (e : event) : bool :=
  match e with
  | GenerateClick _ | GenerateDone _ _ => true
  | _ => false
  end.

(** What a rubric generation must leave alone in a criterion: everything but
    the descriptions of its levels. *)
Definition skeleton (c : Criterion) : string * string * list (string * Z) :=
  (c_id c, focus c, map (fun l => (label l, score l)) (levels c)).

(** The templates in the slot, if it gives any, have at least one task. *)
Definition stored_tasks (parse : string -> option (list Template))
    (storage : gmap string string) : Prop :=
  forall txt ts, storage !! STORAGE_KEY = Some txt -> parse txt = Some ts ->
    Forall (fun t => t_tasks t <> []) ts.

(** There is a task, in the editor and in every template. *)
Definition tasks_ok (a : App) : Prop :=
  tasks a <> [] /\ Forall (fun o => o_tasks o <> []) (templates a).

(** No criterion of the editor is an object of a template. *)
Definition detached (a : App) : Prop :=
  forall t l, t ∈ templates a -> l ∈ criteria a -> l ∉ o_criteria t.

(** A template is out of reach of the handlers when none of its criteria is
    an object of the editor's list or of the list kept by a generation that
    is awaited. *)
Definition out_of_reach (a : App) (t : TemplateObj) : Prop :=
  forall l, l ∈ o_criteria t ->
    (l ∉ criteria a) /\ (forall p, p ∈ pending a -> l ∉ p.1).

(** The strings of a criterion: its identifier, its focus, and the label and
    the description of every level. *)
Definition texts (c : Criterion) : string * string * list (string * string) :=
  ((c_id c, focus c), map (fun l => (label l, criteria_text l)) (levels c)).

End LibrarySpec.

(** ** Sample data *)

Module Samples.

(** Two students with an answer, and a service that fails on its first call
    only. *)
Definition alice : Student :=
  mkStudent "id-1" "Alice" ["an answer"] EmptyString None EmptyString idle None.
Definition bob : Student :=
  mkStudent "id-2" "Bob" ["another answer"] EmptyString None EmptyString idle None.
Definition fails_first (i : nat) (_ : Student) (_ : list string) (_ : list Criterion)
  : Exn + GradingResult :=
  match i with
  | O => inl Rejected
  | S _ => inr (mkGradingResult (inject_Z 85) "any" "well done")
  end.
Definition two_students : Grading.State :=
  Grading.mkState [alice; bob] false (0, 0)%nat None [].

(** The thresholds of the default rubric. *)
Definition default_thresholds : list Threshold :=
  [ mkThreshold "超級優異" 90 100; mkThreshold "表現良好" 80 89;
    mkThreshold "已經做到" 70 79; mkThreshold "還要加油" 60 69;
    mkThreshold "努力改進" 0 59 ].

Definition row_names (rows : list Analysis.Row) : string :=
  Str.join "," (map Analysis.row_name rows).

(** A student without a result whose only answer is empty. *)
Definition silent : Student :=
  mkStudent "id-4" "Dan" [EmptyString] EmptyString None EmptyString idle None.

(** A rendering of numbers that knows one number, and a student with one
    answer. *)
Definition decimal_85 (_ : Q) : string := "85".
Definition carol : Student :=
  mkStudent "id-3" "Carol" ["x"] EmptyString None EmptyString idle None.

(** A serialization that only counts the templates, and a slot that never
    parses: enough to run a session from an empty storage. *)
Definition count_templates (ts : list Editor.Template) : string :=
  Str.of_nat (length ts).
Definition no_parse (_ : string) : option (list Editor.Template) := None.
Definition session (es : list Editor.event) : Editor.App :=
  Editor.run count_templates no_parse "c-0" ∅ es.

(** The default rubric after 9007199254740992, that is 2 ^ 53, was typed
    into the score field of the second level. *)
Definition rubric_2_53 : list Criterion :=
  [ mkCriterion "a" EmptyString
      [ mkLevel "超級優異 (Superb)" 100 EmptyString;
        mkLevel "表現良好 (Good)" 9007199254740992 EmptyString;
        mkLevel "已經做到 (Done)" 79 EmptyString;
        mkLevel "還要加油 (Developing)" 69 EmptyString;
        mkLevel "努力改進 (Beginning)" 59 EmptyString ] ].

(** The default rubric, two students of whom the first is being graded,
    and an answer of the service, on numbers. *)
Definition d_default : Double.Criterion :=
  Double.mkCriterion "a" EmptyString Double.DEFAULT_LEVELS.
Definition d_alice : Double.Student :=
  Double.mkStudent "id-1" "Alice" ["an answer"] EmptyString None EmptyString loading None.
Definition d_bob : Double.Student :=
  Double.mkStudent "id-2" "Bob" ["another answer"] EmptyString None EmptyString idle None.
Definition d_result : Double.GradingResult :=
  Double.mkGradingResult (Number.of_Z 85) "any" "well done".

End Samples.

(** * Properties *)

(** ** Threshold derivation *)

Example thresholds_default :
  totalScoreThresholds [default_criterion "a"] =
  Some [ mkThreshold "超級優異" 90 100; mkThreshold "表現良好" 80 89;
         mkThreshold "已經做到" 70 79; mkThreshold "還要加油" 60 69;
         mkThreshold "努力改進" 0 59 ].
Proof. reflexivity. Qed.

(** A criterion with fewer or more than five levels makes the derivation
    throw. *)
Example thresholds_four_levels :
  totalScoreThresholds [mkCriterion "a" EmptyString (take 4 DEFAULT_LEVELS)] = None.
Proof. reflexivity. Qed.

Example thresholds_six_levels :
  totalScoreThresholds
    [mkCriterion "a" EmptyString (DEFAULT_LEVELS ++ [mkLevel "x" 0 EmptyString])] = None.
Proof. reflexivity. Qed.

Lemma in_band_bracketed sc t : in_band sc t = true <-> bracketed sc t.
Proof.
  unfold in_band, bracketed.
  rewrite andb_true_iff, !Qle_bool_iff. reflexivity.
Qed.

Lemma in_band_not_bracketed sc t : in_band sc t = false <-> ~ bracketed sc t.
Proof.
  rewrite <- in_band_bracketed. destruct (in_band sc t); intuition congruence.
Qed.

Lemma five_levels_inv (c : Criterion) :
  length (levels c) = 5%nat ->
  exists l0 l1 l2 l3 l4, levels c = [l0; l1; l2; l3; l4].
Proof.
  destruct (levels c) as [|l0 [|l1 [|l2 [|l3 [|l4 [|l5 r]]]]]]; simpl; try discriminate.
  intros _. by exists l0, l1, l2, l3, l4.
Qed.

Lemma levels_forEach_five (c : Criterion) (a0 a1 a2 a3 a4 : Z) :
  length (levels c) = 5%nat ->
  levels_forEach (levels c) (levels c) 0 [a0; a1; a2; a3; a4] =
  Some [ a0 + spec_level_floor c 0; a1 + spec_level_floor c 1;
         a2 + spec_level_floor c 2; a3 + spec_level_floor c 3;
         a4 + spec_level_floor c 4 ].
Proof.
  intros H. unfold spec_level_floor.
  destruct (five_levels_inv c H) as (l0 & l1 & l2 & l3 & l4 & ->).
  reflexivity.
Qed.

Lemma criteria_forEach_five (cs : list Criterion) (a0 a1 a2 a3 a4 m : Z) :
  Forall (fun c => length (levels c) = 5%nat) cs ->
  criteria_forEach cs ([a0; a1; a2; a3; a4], m) =
  Some ([ a0 + spec_floor cs 0; a1 + spec_floor cs 1; a2 + spec_floor cs 2;
          a3 + spec_floor cs 3; a4 + spec_floor cs 4 ],
        m + sumZ (map spec_top_score cs)).
Proof.
  intros H. revert a0 a1 a2 a3 a4 m.
  induction H as [|c cs Hc _ IH]; intros a0 a1 a2 a3 a4 m.
  - unfold spec_floor. simpl. by rewrite !Z.add_0_r.
  - cbn [criteria_forEach fst snd].
    rewrite (levels_forEach_five c _ _ _ _ _ Hc).
    unfold spec_top_score at 1.
    destruct (five_levels_inv c Hc) as (l0 & l1 & l2 & l3 & l4 & E).
    rewrite E. cbn [lookup list_lookup mbind option_bind].
    rewrite IH. unfold spec_floor, spec_top_score. cbn [map foldr sumZ].
    rewrite E. cbn [lookup list_lookup].
    unfold sumZ. by rewrite !Z.add_assoc.
Qed.

Lemma find_first {A} (p : A -> bool) (l : list A) :
  (exists i x, l !! i = Some x /\ p x = true /\
     (forall j y, (j < i)%nat -> l !! j = Some y -> p y = false) /\
     List.find p l = Some x)
  \/ ((forall x, In x l -> p x = false) /\ List.find p l = None).
Proof.
  induction l as [|a l IH].
  - right. split; [intros x []|reflexivity].
  - simpl. destruct (p a) eqn:Ha.
    + left. exists 0%nat, a. repeat split; auto. intros j y Hj. lia.
    + destruct IH as [(i & x & Hi & Hx & Hlt & Hf)|[Hall Hf]].
      * left. exists (S i), x. repeat split; auto.
        intros [|j] y Hj Hy; simpl in Hy; [congruence|]. apply (Hlt j); [lia|auto].
      * right. split; [|auto]. intros x [<-|Hx]; auto.
Qed.

Lemma totalScoreThresholds_five (cs : list Criterion) :
  Forall (fun c => length (levels c) = 5%nat) cs ->
  totalScoreThresholds cs =
  Some [ mkThreshold "超級優異" (spec_floor cs 0) (spec_ceiling cs 0);
         mkThreshold "表現良好" (spec_floor cs 1) (spec_ceiling cs 1);
         mkThreshold "已經做到" (spec_floor cs 2) (spec_ceiling cs 2);
         mkThreshold "還要加油" (spec_floor cs 3) (spec_ceiling cs 3);
         mkThreshold "努力改進" (spec_floor cs 4) (spec_ceiling cs 4) ].
Proof.
  intros H. unfold totalScoreThresholds.
  rewrite (criteria_forEach_five cs 0 0 0 0 0 0 H).
  cbn [mbind option_bind fst snd]. rewrite !Z.add_0_l.
  reflexivity.
Qed.

(** C3.  With a single criterion whose five level scores are 100, 89, 79, 69
    and 59, a total score of 85 is given the label of the second-highest
    level. *)
Theorem single_criterion_score_85 (c : Criterion) :
  map score (levels c) = [100; 89; 79; 69; 59] ->
  exists ths second,
    totalScoreThresholds [c] = Some ths /\
    ths !! 1%nat = Some second /\
    (base_label ∘ label) <$> DEFAULT_LEVELS !! 1%nat = Some (t_label second) /\
    getLevelLabelFromScore ths (inject_Z 85) = t_label second /\
    t_label second = "表現良好".
Proof.
  intros H.
  assert (H5 : length (levels c) = 5%nat).
  { rewrite <- (length_map score), H. reflexivity. }
  destruct (five_levels_inv c H5) as (l0 & l1 & l2 & l3 & l4 & E).
  rewrite E in H. injection H as H0 H1 H2 H3 H4.
  do 2 eexists. split.
  { apply totalScoreThresholds_five. repeat constructor. exact H5. }
  split; [reflexivity|].
  unfold spec_floor, spec_ceiling, spec_floor, spec_level_floor, spec_top_score.
  cbn [map]. rewrite E. cbn [lookup list_lookup sumZ foldr].
  rewrite H0, H1, H2, H3, H4.
  repeat split.
Qed.

Lemma single_criterion_score_85_witness :
  exists ths second,
    totalScoreThresholds [default_criterion "a"] = Some ths /\
    ths !! 1%nat = Some second /\
    getLevelLabelFromScore ths (inject_Z 85) = t_label second.
Proof.
  destruct (single_criterion_score_85 (default_criterion "a") eq_refl)
    as (ths & second & H1 & H2 & _ & H3 & _).
  exists ths, second. auto.
Defined.

(** The bottom floor is zero, and the bands cover every integer from zero to
    the top ceiling, whatever the order of the level scores: a score finds no
    band only when it is negative, above the top ceiling, or not an
    integer. *)
Lemma spec_floor_bottom (cs : list Criterion) :
  Forall (fun c => length (levels c) = 5%nat) cs -> spec_floor cs 4 = 0.
Proof.
  unfold spec_floor. induction 1 as [|c cs Hc _ IH]; [done|].
  cbn [map sumZ foldr]. fold (sumZ (map (fun c => spec_level_floor c 4) cs)).
  rewrite IH. unfold spec_level_floor.
  rewrite lookup_ge_None_2 by (rewrite Hc; lia). done.
Qed.

Lemma integer_score_classified (cs : list Criterion) (z : Z) :
  Forall (fun c => length (levels c) = 5%nat) cs ->
  0 <= z <= spec_ceiling cs 0 ->
  exists ths t,
    totalScoreThresholds cs = Some ths /\ In t ths /\ bracketed (inject_Z z) t.
Proof.
  intros H [Hlo Hhi]. eexists.
  assert (Hb : forall t, floor t <= z <= ceiling t -> bracketed (inject_Z z) t).
  { intros t [? ?]. split; by rewrite <- Zle_Qle. }
  pose proof (spec_floor_bottom cs H) as H4.
  destruct (Z_le_gt_dec (spec_floor cs 0) z);
    [|destruct (Z_le_gt_dec (spec_floor cs 1) z);
      [|destruct (Z_le_gt_dec (spec_floor cs 2) z);
        [|destruct (Z_le_gt_dec (spec_floor cs 3) z)]]];
    eexists; (split; [apply (totalScoreThresholds_five _ H)|]).
  - split; [left; reflexivity|]. apply Hb. cbn [floor ceiling spec_ceiling] in *. lia.
  - split; [right; left; reflexivity|]. apply Hb. cbn [floor ceiling spec_ceiling] in *. lia.
  - split; [do 2 right; left; reflexivity|]. apply Hb. cbn [floor ceiling spec_ceiling] in *. lia.
  - split; [do 3 right; left; reflexivity|]. apply Hb. cbn [floor ceiling spec_ceiling] in *. lia.
  - split; [do 4 right; left; reflexivity|]. apply Hb. cbn [floor ceiling spec_ceiling] in *. lia.
Qed.

(** ** JavaScript numbers: safe integers *)

Module NumberFacts.
Import Number SpecFloat.

Lemma digits2_size p : digits2_pos p = Pos.size p.
Proof. induction p; simpl; congruence. Qed.

Lemma iter_xO_spec q : forall p, Zpos (Pos.iter xO p q) = Zpos p * 2 ^ Zpos q.
Proof.
  induction q using Pos.peano_ind; intros p.
  - simpl. lia.
  - rewrite Pos.iter_succ, Pos2Z.inj_succ, Z.pow_succ_r by lia.
    rewrite Pos2Z.inj_xO, IHq. lia.
Qed.

Lemma shl_spec p k : 0 <= k -> Zpos (shl p k) = Zpos p * 2 ^ k.
Proof.
  destruct k as [|q|q]; intros Hk; simpl shl; [lia| |lia].
  apply iter_xO_spec.
Qed.

Lemma iter_xO_size q : forall p, Zpos (Pos.size (Pos.iter xO p q)) = Zpos (Pos.size p) + Zpos q.
Proof.
  induction q using Pos.peano_ind; intros p.
  - simpl. lia.
  - rewrite Pos.iter_succ. simpl Pos.size. rewrite Pos2Z.inj_succ, IHq. lia.
Qed.

Lemma shl_size p k : 0 <= k -> Zpos (Pos.size (shl p k)) = Zpos (Pos.size p) + k.
Proof.
  destruct k as [|q|q]; intros Hk; simpl shl; [lia| |lia].
  apply iter_xO_size.
Qed.

Lemma shl_shl p j k : 0 <= j -> 0 <= k -> shl (shl p j) k = shl p (j + k).
Proof.
  intros Hj Hk. apply Pos2Z.inj. rewrite !shl_spec by lia.
  rewrite Z.pow_add_r by lia. lia.
Qed.

Lemma size_bounds p : 2 ^ (Zpos (Pos.size p) - 1) <= Zpos p < 2 ^ Zpos (Pos.size p).
Proof.
  pose proof (Pos.size_gt p) as H1. pose proof (Pos.size_le p) as H2.
  assert (E : Zpos (2 ^ Pos.size p) = 2 ^ Zpos (Pos.size p)) by apply Pos2Z.inj_pow.
  split.
  - assert (2 ^ Zpos (Pos.size p) = 2 * 2 ^ (Zpos (Pos.size p) - 1)).
    { rewrite <- Z.pow_succ_r by lia. f_equal. lia. }
    lia.
  - lia.
Qed.

Lemma iter_pos_iter {A} (f : A -> A) n : forall x, SpecFloat.iter_pos f n x = Pos.iter f x n.
Proof.
  induction n; intros x; simpl.
  - rewrite !IHn. rewrite <- !Pos.iter_swap. reflexivity.
  - rewrite !IHn. reflexivity.
  - reflexivity.
Qed.

Lemma shr_exact q : forall p,
  Pos.iter shr_1 (Build_shr_record (Zpos (Pos.iter xO p q)) false false) q =
  Build_shr_record (Zpos p) false false.
Proof.
  induction q using Pos.peano_ind; intros p.
  - reflexivity.
  - rewrite Pos.iter_succ_r, Pos.iter_succ. simpl shr_1. apply IHq.
Qed.

Lemma shl_align_spec mx ex ex' :
  shl_align mx ex ex' = if ex' <? ex then (shl mx (ex - ex'), ex') else (mx, ex).
Proof.
  unfold shl_align, shl.
  destruct (ex' - ex) as [|d|d] eqn:E; destruct (Z.ltb_spec ex' ex) as [H|H]; try lia; try reflexivity.
  replace (ex - ex') with (Zpos d) by lia. reflexivity.
Qed.

(** A mantissa of 53 digits with a [loc_Exact] location is left as it is. *)
Lemma binary_round_aux_53 s m e :
  Zpos (Pos.size m) = 53 -> -1074 <= e <= 971 ->
  binary_round_aux prec emax s (Zpos m) e loc_Exact = S754_finite s m e.
Proof.
  intros Hm He. unfold binary_round_aux, shr_fexp, fexp, emin, prec, emax.
  cbn [Zdigits2 shr_record_of_loc]. rewrite digits2_size, Hm.
  replace (Z.max (53 + e - 53) (3 - 1024 - 53) - e) with 0 by lia.
  cbn [shr shr_m loc_of_shr_record round_nearest_even Zdigits2].
  rewrite digits2_size, Hm.
  replace (Z.max (53 + e - 53) (3 - 1024 - 53) - e) with 0 by lia.
  cbn [shr shr_m].
  destruct (Z.leb_spec e (1024 - 53)); [reflexivity|lia].
Qed.

Lemma binary_round_shl s p k :
  Zpos (Pos.size p) <= 53 -> 0 <= k ->
  binary_round prec emax s (shl p k) (- k) = enc s p.
Proof.
  intros Hp Hk. unfold binary_round, enc.
  rewrite digits2_size, shl_size by lia.
  set (d := Zpos (Pos.size p)) in *.
  assert (Hd : 1 <= d) by (unfold d; lia).
  unfold fexp, emin, prec, emax.
  replace (Z.max (d + k + - k - 53) (3 - 1024 - 53)) with (d - 53) by lia.
  rewrite shl_align_spec.
  destruct (Z.ltb_spec (d - 53) (- k)) as [H|H].
  - rewrite shl_shl by lia.
    replace (k + (- k - (d - 53))) with (53 - d) by lia.
    apply binary_round_aux_53; [|lia].
    rewrite shl_size by lia. fold d. lia.
  - (* the mantissa is too long by [delta] bits, all zero *)
    set (delta := d - 53 + k).
    destruct (Z.eq_dec delta 0) as [E0|E0].
    + replace (53 - d) with k by lia. replace (d - 53) with (- k) by lia.
      apply binary_round_aux_53; [|lia].
      rewrite shl_size by lia. fold d. lia.
    + unfold binary_round_aux, shr_fexp, fexp, emin, prec, emax.
      cbn [Zdigits2 shr_record_of_loc]. rewrite digits2_size, shl_size by lia. fold d.
      replace (Z.max (d + k + - k - 53) (3 - 1024 - 53) - - k) with delta by lia.
      destruct delta as [|q|q] eqn:Eq; [lia| |lia].
      cbn [shr]. rewrite iter_pos_iter.
      replace (shl p k) with (Pos.iter xO (shl p (53 - d)) q).
      2:{ change (Pos.iter xO (shl p (53 - d)) q) with (shl (shl p (53 - d)) (Zpos q)).
          rewrite shl_shl by lia. f_equal. lia. }
      rewrite shr_exact.
      cbn [shr_m loc_of_shr_record round_nearest_even Zdigits2].
      rewrite digits2_size, shl_size by lia. fold d.
      replace (Z.max (d + (53 - d) + (- k + Zpos q) - 53) (3 - 1024 - 53) - (- k + Zpos q))
        with 0 by lia.
      cbn [shr shr_m].
      replace (- k + Zpos q) with (d - 53) by lia.
      destruct (Z.leb_spec (d - 53) (1024 - 53)); [reflexivity|lia].
Qed.

Lemma safe_size p : Zpos p <= MAX_SAFE_INTEGER -> Zpos (Pos.size p) <= 53.
Proof.
  unfold MAX_SAFE_INTEGER. intros H.
  destruct (Z_le_gt_dec (Zpos (Pos.size p)) 53) as [|Hgt]; [done|].
  pose proof (size_bounds p) as [Hlo _].
  assert (2 ^ 53 <= 2 ^ (Zpos (Pos.size p) - 1)) by (apply Z.pow_le_mono_r; lia).
  lia.
Qed.

Lemma normalize_shl z k :
  safe z -> 0 <= k ->
  binary_normalize prec emax (z * 2 ^ k) (- k) false = enc_Z z.
Proof.
  intros [Hlo Hhi] Hk. destruct z as [|p|p]; cbn [enc_Z].
  - reflexivity.
  - rewrite <- shl_spec by done. cbn [binary_normalize].
    apply binary_round_shl; [apply safe_size|]; lia.
  - change (Z.neg p) with (- Zpos p). rewrite Z.mul_opp_l, <- shl_spec by done.
    cbn [binary_normalize Z.opp].
    apply binary_round_shl; [apply safe_size|]; lia.
Qed.

Lemma of_Z_enc z : safe z -> of_Z z = enc_Z z.
Proof.
  intros H. unfold of_Z.
  rewrite <- (normalize_shl z 0 H) by lia. f_equal. lia.
Qed.

Lemma aligned p ez :
  Zpos (Pos.size p) <= 53 -> ez <= Zpos (Pos.size p) - 53 ->
  Zpos (shl_align (shl p (53 - Zpos (Pos.size p))) (Zpos (Pos.size p) - 53) ez).1 =
  Zpos p * 2 ^ (- ez).
Proof.
  intros Hp He. rewrite shl_align_spec.
  destruct (Z.ltb_spec ez (Zpos (Pos.size p) - 53)); cbn [fst].
  - rewrite shl_shl, shl_spec by lia. do 2 f_equal. lia.
  - rewrite shl_spec by lia. do 2 f_equal. lia.
Qed.

Lemma cond_Zopp_enc s p :
  cond_Zopp s (Zpos p) = if s then Zneg p else Zpos p.
Proof. by destruct s. Qed.

Lemma add_enc (sa sb : bool) (pa pb : positive) :
  let a := if sa then Zneg pa else Zpos pa in
  let b := if sb then Zneg pb else Zpos pb in
  Zpos pa <= MAX_SAFE_INTEGER -> Zpos pb <= MAX_SAFE_INTEGER -> safe (a + b) ->
  add (enc sa pa) (enc sb pb) = enc_Z (a + b).
Proof.
  intros a b Ha Hb Hab.
  pose proof (safe_size _ Ha) as Sa. pose proof (safe_size _ Hb) as Sb.
  unfold add, enc. cbn [SFadd].
  set (ez := Z.min (Zpos (Pos.size pa) - 53) (Zpos (Pos.size pb) - 53)).
  rewrite <- (normalize_shl (a + b) (- ez) Hab) by lia.
  rewrite Z.opp_involutive. f_equal.
  rewrite !cond_Zopp_enc.
  assert (Ea : Zpos (shl_align (shl pa (53 - Zpos (Pos.size pa))) (Zpos (Pos.size pa) - 53) ez).1
               = Zpos pa * 2 ^ (- ez)) by (apply aligned; lia).
  assert (Eb : Zpos (shl_align (shl pb (53 - Zpos (Pos.size pb))) (Zpos (Pos.size pb) - 53) ez).1
               = Zpos pb * 2 ^ (- ez)) by (apply aligned; lia).
  unfold a, b. destruct sa, sb; lia.
Qed.

Lemma safe_pos p : safe (Zpos p) -> Zpos p <= MAX_SAFE_INTEGER.
Proof. by intros [_ ?]. Qed.

Lemma safe_neg p : safe (Zneg p) -> Zpos p <= MAX_SAFE_INTEGER.
Proof. intros [? _]. lia. Qed.

(** On safe integers the addition of doubles is exact. *)
Lemma add_exact a b :
  safe a -> safe b -> safe (a + b) -> add (of_Z a) (of_Z b) = of_Z (a + b).
Proof.
  intros Ha Hb Hab. rewrite !of_Z_enc by done.
  destruct a as [|pa|pa], b as [|pb|pb]; try reflexivity.
  - apply (add_enc false false); auto using safe_pos.
  - apply (add_enc false true); auto using safe_pos, safe_neg.
  - apply (add_enc true false); auto using safe_pos, safe_neg.
  - apply (add_enc true true); auto using safe_neg.
Qed.

Lemma sub_enc (sa sb : bool) (pa pb : positive) :
  let a := if sa then Zneg pa else Zpos pa in
  let b := if sb then Zneg pb else Zpos pb in
  Zpos pa <= MAX_SAFE_INTEGER -> Zpos pb <= MAX_SAFE_INTEGER -> safe (a - b) ->
  sub (enc sa pa) (enc sb pb) = enc_Z (a - b).
Proof.
  intros a b Ha Hb Hab.
  pose proof (safe_size _ Ha) as Sa. pose proof (safe_size _ Hb) as Sb.
  unfold sub, enc. cbn [SFsub].
  set (ez := Z.min (Zpos (Pos.size pa) - 53) (Zpos (Pos.size pb) - 53)).
  rewrite <- (normalize_shl (a - b) (- ez) Hab) by lia.
  rewrite Z.opp_involutive. f_equal.
  rewrite !cond_Zopp_enc.
  assert (Ea : Zpos (shl_align (shl pa (53 - Zpos (Pos.size pa))) (Zpos (Pos.size pa) - 53) ez).1
               = Zpos pa * 2 ^ (- ez)) by (apply aligned; lia).
  assert (Eb : Zpos (shl_align (shl pb (53 - Zpos (Pos.size pb))) (Zpos (Pos.size pb) - 53) ez).1
               = Zpos pb * 2 ^ (- ez)) by (apply aligned; lia).
  unfold a, b. destruct sa, sb; lia.
Qed.

(** So is the subtraction. *)
Lemma sub_exact a b :
  safe a -> safe b -> safe (a - b) -> sub (of_Z a) (of_Z b) = of_Z (a - b).
Proof.
  intros Ha Hb Hab. rewrite !of_Z_enc by done.
  destruct a as [|pa|pa], b as [|pb|pb]; try reflexivity.
  - apply (sub_enc false false); auto using safe_pos.
  - apply (sub_enc false true); auto using safe_pos, safe_neg.
  - apply (sub_enc true false); auto using safe_pos, safe_neg.
  - apply (sub_enc true true); auto using safe_neg.
Qed.

(** The order of doubles on safe integers is the order of the integers. *)
Lemma compare_enc pa pb :
  Zpos (Pos.size pa) <= 53 -> Zpos (Pos.size pb) <= 53 ->
  match Z.compare (Zpos (Pos.size pa) - 53) (Zpos (Pos.size pb) - 53) with
  | Lt => Lt
  | Gt => Gt
  | Eq => Pos.compare_cont Eq (shl pa (53 - Zpos (Pos.size pa)))
                              (shl pb (53 - Zpos (Pos.size pb)))
  end = Pos.compare pa pb.
Proof.
  intros Sa Sb. symmetry.
  pose proof (size_bounds pa) as [La Ua]. pose proof (size_bounds pb) as [Lb Ub].
  destruct (Z.compare_spec (Zpos (Pos.size pa) - 53) (Zpos (Pos.size pb) - 53)) as [E|E|E].
  - change (Pos.compare_cont Eq ?x ?y) with (Pos.compare x y).
    assert (E' : Zpos (Pos.size pa) = Zpos (Pos.size pb)) by lia. rewrite E'.
    rewrite !Pos2Z.inj_compare, !shl_spec by lia.
    set (c := 2 ^ (53 - Zpos (Pos.size pb))).
    assert (0 < c) by (apply Z.pow_pos_nonneg; lia).
    destruct (Z.compare_spec (Zpos pa) (Zpos pb)),
             (Z.compare_spec (Zpos pa * c) (Zpos pb * c)); try done; nia.
  - apply Pos.compare_lt_iff.
    assert (2 ^ Zpos (Pos.size pa) <= 2 ^ (Zpos (Pos.size pb) - 1)) by (apply Z.pow_le_mono_r; lia).
    lia.
  - apply Pos.compare_gt_iff.
    assert (2 ^ Zpos (Pos.size pb) <= 2 ^ (Zpos (Pos.size pa) - 1)) by (apply Z.pow_le_mono_r; lia).
    lia.
Qed.

Lemma compare_of_Z a b :
  safe a -> safe b -> SFcompare (of_Z a) (of_Z b) = Some (Z.compare a b).
Proof.
  intros Ha Hb. rewrite !of_Z_enc by done.
  destruct a as [|pa|pa], b as [|pb|pb]; try reflexivity.
  - unfold enc_Z, enc. cbn [SFcompare].
    rewrite compare_enc by (apply safe_size; auto using safe_pos). reflexivity.
  - unfold enc_Z, enc. cbn [SFcompare].
    replace (match Z.compare (Zpos (Pos.size pa) - 53) (Zpos (Pos.size pb) - 53) with
             | Lt => Gt | Gt => Lt | Eq => CompOpp _ end)
      with (CompOpp (Pos.compare pa pb)).
    + reflexivity.
    + rewrite <- compare_enc by (apply safe_size; auto using safe_neg).
      by destruct (Z.compare _ _).
Qed.

Lemma leb_of_Z a b : safe a -> safe b -> leb (of_Z a) (of_Z b) = (a <=? b).
Proof.
  intros Ha Hb. unfold leb, SFleb. rewrite compare_of_Z by done.
  unfold Z.leb. by destruct (a ?= b).
Qed.

(** [<=] on doubles is transitive; a comparison with [NaN] is false. *)
Lemma leb_trans x y z : leb x y = true -> leb y z = true -> leb x z = true.
Proof.
  unfold leb, SFleb, SFcompare.
  destruct x as [sx|sx| |sx mx ex], y as [sy|sy| |sy my ey], z as [sz|sz| |sz mz ez];
    try destruct sx; try destruct sy; try destruct sz; try done;
    change (Pos.compare_cont Eq ?x ?y) with (Pos.compare x y);
    destruct (Z.compare_spec ex ey), (Z.compare_spec ey ez), (Z.compare_spec ex ez);
    try done; try lia; subst;
    destruct (Pos.compare_spec mx my), (Pos.compare_spec my mz), (Pos.compare_spec mx mz);
    try done; try lia.
Qed.

Lemma leb_NaN_l x : leb NaN x = false.
Proof. reflexivity. Qed.


Lemma safe_0 : safe 0.
Proof. unfold safe, MAX_SAFE_INTEGER. lia. Qed.

Lemma safe_1 : safe 1.
Proof. unfold safe, MAX_SAFE_INTEGER. lia. Qed.


Lemma to_Z_enc s p :
  Zpos (Pos.size p) <= 53 -> to_Z (enc s p) = Some (if s then Zneg p else Zpos p).
Proof.
  intros Hp. unfold enc, to_Z.
  set (d := Zpos (Pos.size p)) in *.
  assert (Hm : Zpos (shl p (53 - d)) = Zpos p * 2 ^ (53 - d)) by (apply shl_spec; lia).
  assert (Hpow : 0 < 2 ^ (53 - d)) by (apply Z.pow_pos_nonneg; lia).
  destruct (Z.leb_spec 0 (d - 53)) as [H|H].
  - assert (d = 53) as E by lia. rewrite E in *. cbn in Hm.
    f_equal. destruct s; lia.
  - replace (- (d - 53)) with (53 - d) by lia.
    rewrite Hm, Z.mod_mul by lia. cbn [Z.eqb]. f_equal.
    destruct s.
    + change (Z.neg (shl p (53 - d))) with (- Zpos (shl p (53 - d))).
      rewrite Hm, <- Z.mul_opp_l, Z.div_mul by lia. reflexivity.
    + rewrite Z.div_mul by lia. reflexivity.
Qed.

(** A safe integer is the value of its double. *)
Lemma to_Z_of_Z z : safe z -> to_Z (of_Z z) = Some z.
Proof.
  intros H. rewrite of_Z_enc by done.
  destruct z as [|p|p]; cbn [enc_Z].
  - reflexivity.
  - apply (to_Z_enc false). apply safe_size, safe_pos, H.
  - apply (to_Z_enc true). apply safe_size, safe_neg, H.
Qed.

Lemma safe_abs z : Z.abs z <= MAX_SAFE_INTEGER -> safe z.
Proof. unfold safe. lia. Qed.

(** A sum of doubles taken from the left is exact as long as the absolute
    values add up to a safe integer. *)
Lemma foldl_add_exact (l : list Z) : forall a,
  Z.abs a + sumZ (map Z.abs l) <= MAX_SAFE_INTEGER ->
  foldl add (of_Z a) (map of_Z l) = of_Z (a + sumZ l).
Proof.
  induction l as [|x l IH]; intros a H; cbn [map foldl sumZ foldr] in *.
  - by rewrite Z.add_0_r.
  - fold (sumZ (map Z.abs l)) in H. fold (sumZ l).
    assert (0 <= sumZ (map Z.abs l)).
    { clear. induction l; cbn [map sumZ foldr]; [done|]. fold (sumZ (map Z.abs l)). lia. }
    rewrite add_exact by (apply safe_abs; lia).
    rewrite IH by lia. f_equal. lia.
Qed.

End NumberFacts.

(** ** The derivation on numbers *)

Module DoubleFacts.
Import Number NumberFacts DoubleSpec Integral Samples.

Lemma five_inv (c : Double.Criterion) :
  five c -> exists l0 l1 l2 l3 l4, Double.levels c = [l0; l1; l2; l3; l4].
Proof.
  unfold five.
  destruct (Double.levels c) as [|l0 [|l1 [|l2 [|l3 [|l4 [|l5 r]]]]]]; simpl; try discriminate.
  intros _. by exists l0, l1, l2, l3, l4.
Qed.

Lemma double_levels_forEach_five (c : Double.Criterion) (a0 a1 a2 a3 a4 : number) :
  five c ->
  Double.levels_forEach (Double.levels c) (Double.levels c) 0 [a0; a1; a2; a3; a4] =
  Some [ add a0 (level_floor c 0); add a1 (level_floor c 1);
         add a2 (level_floor c 2); add a3 (level_floor c 3);
         add a4 (level_floor c 4) ].
Proof.
  intros H. unfold level_floor.
  destruct (five_inv c H) as (l0 & l1 & l2 & l3 & l4 & ->).
  reflexivity.
Qed.

Lemma double_criteria_forEach_five (cs : list Double.Criterion) : forall a0 a1 a2 a3 a4 m,
  Forall five cs ->
  Double.criteria_forEach cs ([a0; a1; a2; a3; a4], m) =
  Some ([ foldl add a0 (map (fun c => level_floor c 0) cs);
          foldl add a1 (map (fun c => level_floor c 1) cs);
          foldl add a2 (map (fun c => level_floor c 2) cs);
          foldl add a3 (map (fun c => level_floor c 3) cs);
          foldl add a4 (map (fun c => level_floor c 4) cs) ],
        foldl add m (map top_score cs)).
Proof.
  induction cs as [|c cs IH]; intros a0 a1 a2 a3 a4 m H; [reflexivity|].
  inversion_clear H as [|? ? Hc Hcs].
  cbn [Double.criteria_forEach fst snd].
  rewrite (double_levels_forEach_five c _ _ _ _ _ Hc).
  unfold top_score at 1.
  destruct (five_inv c Hc) as (l0 & l1 & l2 & l3 & l4 & E).
  rewrite E. cbn [lookup list_lookup mbind option_bind].
  rewrite IH by done. cbn [map foldl]. unfold top_score. rewrite E.
  reflexivity.
Qed.

(** The derivation in closed form, for any numbers. *)
Lemma thresholds_five (cs : list Double.Criterion) :
  Forall five cs ->
  Double.totalScoreThresholds cs =
  Some [ Double.mkThreshold "超級優異" (floors cs 0) (ceilings cs 0);
         Double.mkThreshold "表現良好" (floors cs 1) (ceilings cs 1);
         Double.mkThreshold "已經做到" (floors cs 2) (ceilings cs 2);
         Double.mkThreshold "還要加油" (floors cs 3) (ceilings cs 3);
         Double.mkThreshold "努力改進" (floors cs 4) (ceilings cs 4) ].
Proof.
  intros H. unfold Double.totalScoreThresholds.
  rewrite (double_criteria_forEach_five cs _ _ _ _ _ _ H).
  reflexivity.
Qed.


(** *** Integer scores *)

Lemma sumZ_cons x l : sumZ (x :: l) = x + sumZ l.
Proof. reflexivity. Qed.

Lemma magnitude_nonneg c : 0 <= magnitude c.
Proof.
  unfold magnitude. induction (levels c) as [|l ls IH]; cbn [map foldr]; lia.
Qed.

Lemma magnitude_bound c i l : levels c !! i = Some l -> Z.abs (score l) <= magnitude c.
Proof.
  unfold magnitude. revert i.
  induction (levels c) as [|x ls IH]; intros [|i] H; try discriminate H; cbn [map foldr].
  - injection H as ->. lia.
  - specialize (IH i H). lia.
Qed.

Lemma weight_nonneg cs : 0 <= weight cs.
Proof.
  unfold weight. induction cs as [|c cs IH]; cbn [map]; [done|].
  rewrite sumZ_cons. pose proof (magnitude_nonneg c). lia.
Qed.

Lemma weight_cons c cs : weight (c :: cs) = magnitude c + 1 + weight cs.
Proof. reflexivity. Qed.

Lemma spec_level_floor_bounds c i :
  - magnitude c <= spec_level_floor c i <= magnitude c + 1.
Proof.
  unfold spec_level_floor. pose proof (magnitude_nonneg c).
  destruct (levels c !! S i) as [l|] eqn:E; [|lia].
  pose proof (magnitude_bound c _ l E). lia.
Qed.

Lemma spec_top_score_bounds c : Z.abs (spec_top_score c) <= magnitude c.
Proof.
  unfold spec_top_score. pose proof (magnitude_nonneg c).
  destruct (levels c !! 0%nat) as [l|] eqn:E; [|lia].
  apply (magnitude_bound c _ l E).
Qed.

Lemma level_floor_integral c i :
  magnitude c + 1 <= MAX_SAFE_INTEGER ->
  level_floor (criterion c) i = of_Z (spec_level_floor c i).
Proof.
  intros H. unfold level_floor, spec_level_floor, criterion. cbn [Double.levels].
  rewrite list_lookup_fmap.
  destruct (levels c !! S i) as [l|] eqn:E; cbn [fmap option_fmap option_map]; [|done].
  pose proof (magnitude_bound c _ l E).
  cbn [level Double.score]. apply add_exact; apply safe_abs; lia.
Qed.

Lemma top_score_integral c : top_score (criterion c) = of_Z (spec_top_score c).
Proof.
  unfold top_score, spec_top_score, criterion. cbn [Double.levels].
  rewrite list_lookup_fmap.
  by destruct (levels c !! 0%nat) as [l|].
Qed.

Lemma weight_elem cs c : c ∈ cs -> magnitude c + 1 <= weight cs.
Proof.
  induction 1 as [c cs|c d cs _ IH]; rewrite weight_cons.
  - pose proof (weight_nonneg cs). lia.
  - pose proof (magnitude_nonneg d). lia.
Qed.

Lemma sum_abs_bound (g : Criterion -> Z) (cs : list Criterion) :
  (forall c, Z.abs (g c) <= magnitude c + 1) ->
  sumZ (map Z.abs (map g cs)) <= weight cs.
Proof.
  intros Hg. induction cs as [|c cs IH]; cbn [map]; [done|].
  rewrite sumZ_cons, weight_cons. specialize (Hg c). lia.
Qed.

Lemma sum_integral (f : Double.Criterion -> number) (g : Criterion -> Z)
    (cs : list Criterion) :
  safe_rubric cs ->
  (forall c, c ∈ cs -> f (criterion c) = of_Z (g c)) ->
  (forall c, Z.abs (g c) <= magnitude c + 1) ->
  sum (map f (map criterion cs)) = of_Z (sumZ (map g cs)).
Proof.
  intros Hs Hf Hg. unfold sum.
  replace (map f (map criterion cs)) with (map of_Z (map g cs)).
  - rewrite foldl_add_exact; [done|].
    pose proof (sum_abs_bound g cs Hg). unfold safe_rubric in Hs. lia.
  - rewrite !map_map. apply map_ext_in. intros c Hc. symmetry. apply Hf.
    by apply list_elem_of_In.
Qed.

Lemma floors_integral cs i :
  safe_rubric cs -> floors (map criterion cs) i = of_Z (spec_floor cs i).
Proof.
  intros Hs. unfold floors, spec_floor. apply sum_integral; [done| |].
  - intros c Hc. apply level_floor_integral.
    pose proof (weight_elem cs c Hc). unfold safe_rubric in Hs. lia.
  - intros c. pose proof (spec_level_floor_bounds c i). lia.
Qed.

Lemma spec_floor_bounds cs i :
  - Z.max 1 (weight cs) <= spec_floor cs i - 1 /\ spec_floor cs i <= weight cs.
Proof.
  unfold spec_floor. induction cs as [|c cs IH]; cbn [map].
  - cbn. lia.
  - rewrite sumZ_cons, weight_cons.
    pose proof (spec_level_floor_bounds c i). pose proof (weight_nonneg cs).
    pose proof (magnitude_nonneg c). lia.
Qed.

Lemma ceilings_integral cs i :
  safe_rubric cs -> ceilings (map criterion cs) i = of_Z (spec_ceiling cs i).
Proof.
  intros Hs. destruct i as [|j]; cbn [ceilings spec_ceiling].
  - apply sum_integral; [done| |].
    + intros c _. apply top_score_integral.
    + intros c. pose proof (spec_top_score_bounds c). lia.
  - rewrite floors_integral by done.
    pose proof (spec_floor_bounds cs j) as [Hlo Hhi]. pose proof (weight_nonneg cs).
    unfold safe_rubric in Hs.
    apply sub_exact; unfold safe, MAX_SAFE_INTEGER in *; lia.
Qed.

Lemma five_criterion c : length (levels c) = 5%nat -> five (criterion c).
Proof. intros H. unfold five, criterion. cbn. by rewrite length_map. Qed.

Lemma Forall_five_criterion cs :
  Forall (fun c => length (levels c) = 5%nat) cs -> Forall five (map criterion cs).
Proof. intros H. apply Forall_map. eapply Forall_impl; [exact H|]. apply five_criterion. Qed.

(** On a rubric of integer scores whose weight is safe, the derivation on
    numbers gives the numbers of the integer thresholds. *)
Lemma thresholds_refine (cs : list Criterion) :
  Forall (fun c => length (levels c) = 5%nat) cs -> safe_rubric cs ->
  Double.totalScoreThresholds (map criterion cs) =
  map threshold <$> totalScoreThresholds cs.
Proof.
  intros H5 Hs.
  rewrite (thresholds_five _ (Forall_five_criterion cs H5)).
  rewrite (totalScoreThresholds_five cs H5).
  cbn [fmap option_fmap option_map map threshold t_label floor ceiling].
  by rewrite !floors_integral, !ceilings_integral.
Qed.

(** The safe integers met in the thresholds. *)
Lemma safe_floor cs i : safe_rubric cs -> safe (spec_floor cs i).
Proof.
  intros Hs. pose proof (spec_floor_bounds cs i). pose proof (weight_nonneg cs).
  unfold safe_rubric, safe, MAX_SAFE_INTEGER in *. lia.
Qed.

Lemma spec_top_bounds cs : Z.abs (sumZ (map spec_top_score cs)) <= weight cs.
Proof.
  induction cs as [|c cs IH]; cbn [map]; [done|].
  rewrite sumZ_cons, weight_cons. pose proof (spec_top_score_bounds c). lia.
Qed.

Lemma safe_ceiling cs i : safe_rubric cs -> safe (spec_ceiling cs i).
Proof.
  intros Hs. destruct i as [|j]; cbn [spec_ceiling].
  - pose proof (spec_top_bounds cs). unfold safe_rubric, safe in *. lia.
  - pose proof (spec_floor_bounds cs j). pose proof (weight_nonneg cs).
    unfold safe_rubric, safe, MAX_SAFE_INTEGER in *. lia.
Qed.

(** *** Classification *)

Lemma double_in_band_bracketed sc t : Double.in_band sc t = true <-> bracketed sc t.
Proof. unfold Double.in_band, bracketed. by rewrite andb_true_iff. Qed.

Lemma double_in_band_not_bracketed sc t : Double.in_band sc t = false <-> ~ bracketed sc t.
Proof.
  rewrite <- double_in_band_bracketed. destruct (Double.in_band sc t); intuition congruence.
Qed.

(** The first band that brackets a score gives its label. *)
Lemma classified (ths : list Double.Threshold) (sc : number) :
  (exists i t, ths !! i = Some t /\ bracketed sc t /\
     (forall j t', (j < i)%nat -> ths !! j = Some t' -> ~ bracketed sc t') /\
     Double.getLevelLabelFromScore ths sc = Double.t_label t)
  \/ ((forall t, In t ths -> ~ bracketed sc t) /\
      Double.getLevelLabelFromScore ths sc = UNDETERMINED).
Proof.
  unfold Double.getLevelLabelFromScore.
  destruct (find_first (Double.in_band sc) ths) as [(i & x & Hi & Hx & Hlt & ->)|[Hall ->]].
  - left. exists i, x. repeat split; try apply double_in_band_bracketed; auto.
    intros j t' Hj Ht'. apply double_in_band_not_bracketed. eauto.
  - right. split; [|reflexivity]. intros t Ht. apply double_in_band_not_bracketed. auto.
Qed.

(** For an integer total and integer bounds the brackets are those of the
    integers. *)
Lemma bracketed_integral (z : Z) (t : Threshold) :
  safe z -> safe (floor t) -> safe (ceiling t) ->
  bracketed (of_Z z) (threshold t) <-> floor t <= z <= ceiling t.
Proof.
  intros Hz Hf Hc. unfold bracketed, threshold. cbn [Double.floor Double.ceiling].
  rewrite !leb_of_Z by done. rewrite !Z.leb_le. reflexivity.
Qed.

(** The label of a band is the default label of its rank, not the
    sentinel. *)
Lemma label_of_index (cs : list Double.Criterion) (i : nat) (x : Double.Threshold) :
  [ Double.mkThreshold "超級優異" (floors cs 0) (ceilings cs 0);
    Double.mkThreshold "表現良好" (floors cs 1) (ceilings cs 1);
    Double.mkThreshold "已經做到" (floors cs 2) (ceilings cs 2);
    Double.mkThreshold "還要加油" (floors cs 3) (ceilings cs 3);
    Double.mkThreshold "努力改進" (floors cs 4) (ceilings cs 4) ] !! i = Some x ->
  Double.floor x = floors cs i /\ Double.ceiling x = ceilings cs i /\
  rank_label i = Some (Double.t_label x) /\ Double.t_label x <> UNDETERMINED.
Proof.
  intros Hi.
  do 5 (destruct i as [|i]; [injection Hi as <-; by repeat split|]).
  discriminate Hi.
Qed.

(** The default rubric on numbers, and the total 85 with it. *)
Example double_thresholds_default :
  Double.totalScoreThresholds [d_default] =
  Some (map threshold default_thresholds) /\
  (ths ← Double.totalScoreThresholds [d_default];
   Some (Double.getLevelLabelFromScore ths (of_Z 85))) = Some "表現良好".
Proof. split; reflexivity. Qed.

(** C2.  For criteria of five levels each whose scores are integers, the
    magnitudes of the criteria, each plus one, adding up to a safe integer,
    the derivation on numbers returns five bands.  The floor of a band is
    exactly the sum over the criteria of the per-criterion floor of its level
    (the score of the next-lower level plus one, zero at the bottom), the
    ceiling of the top band is exactly the sum of the top scores, and every
    other ceiling is the floor of the band above minus one; the label of a
    band is the default label of its level, and an integer total lies in a
    band exactly when it lies between these two integers.  A score is
    classified into the first band that brackets it, and into none of them
    exactly when no band brackets it. *)
Theorem threshold_derivation (criteria : list Criterion) :
  Forall (fun c => length (levels c) = 5%nat) criteria ->
  safe_rubric criteria ->
  exists ths,
    Double.totalScoreThresholds (map criterion criteria) = Some ths /\
    length ths = 5%nat /\
    (forall i t, ths !! i = Some t ->
       to_Z (Double.floor t) = Some (spec_floor criteria i) /\
       to_Z (Double.ceiling t) = Some (spec_ceiling criteria i) /\
       rank_label i = Some (Double.t_label t) /\
       forall z, safe z ->
         bracketed (of_Z z) t <-> spec_floor criteria i <= z <= spec_ceiling criteria i) /\
    (forall sc,
       (exists i t, ths !! i = Some t /\ bracketed sc t /\
          (forall j t', (j < i)%nat -> ths !! j = Some t' -> ~ bracketed sc t') /\
          Double.getLevelLabelFromScore ths sc = Double.t_label t)
       \/ ((forall t, In t ths -> ~ bracketed sc t) /\
           Double.getLevelLabelFromScore ths sc = UNDETERMINED)).
Proof.
  intros H5 Hs. eexists.
  split; [apply (thresholds_five _ (Forall_five_criterion _ H5))|].
  split; [reflexivity|]. split; [|intros sc; apply classified].
  intros i t Hi. apply label_of_index in Hi as (Hf & Hc & Hl & _).
  rewrite Hf, Hc, floors_integral, ceilings_integral by done.
  pose proof (safe_floor criteria i Hs). pose proof (safe_ceiling criteria i Hs).
  rewrite !to_Z_of_Z by done. do 3 (split; [done|]).
  intros z Hz. unfold bracketed.
  rewrite Hf, Hc, floors_integral, ceilings_integral, !leb_of_Z by done.
  by rewrite !Z.leb_le.
Qed.

Lemma threshold_derivation_witness :
  exists ths,
    Double.totalScoreThresholds
      (map criterion [default_criterion "a"; default_criterion "b"]) = Some ths.
Proof.
  destruct (threshold_derivation [default_criterion "a"; default_criterion "b"])
    as (ths & H & _).
  - repeat constructor.
  - by vm_compute.
  - exists ths. exact H.
Defined.

(** Without the bound the sums are rounded: with a score of 2 ^ 53 the
    floor of the top band is 2 ^ 53, not 2 ^ 53 + 1. *)
Example rounded_floor :
  (ths ← Double.totalScoreThresholds (map criterion rubric_2_53);
   t ← ths !! 0%nat;
   to_Z (Double.floor t)) = Some (2 ^ 53) /\
  spec_floor rubric_2_53 0 = 2 ^ 53 + 1.
Proof. split; reflexivity. Qed.

Lemma threshold_derivation_counterexample :
  ~ (forall criteria : list Criterion,
       Forall (fun c => length (levels c) = 5%nat) criteria ->
       exists ths,
         Double.totalScoreThresholds (map criterion criteria) = Some ths /\
         forall i t, ths !! i = Some t ->
           to_Z (Double.floor t) = Some (spec_floor criteria i)).
Proof.
  intros H. destruct (H rubric_2_53) as (ths & Hths & Hfl); [repeat constructor|].
  vm_compute in Hths. injection Hths as <-.
  specialize (Hfl 0%nat _ eq_refl). vm_compute in Hfl. discriminate Hfl.
Qed.

(** *** The success branch of the batch

    C9.  In a rubric of five-level criteria, whatever their scores, the
    success branch gives the records of the graded student the status
    [done], the returned score and feedback, and a label that is computed
    from the returned score and the thresholds derived from the criteria:
    the default label of the first band that brackets the score, which is
    never the sentinel, or the sentinel when no band brackets it, with the
    status [done] all the same.  The label returned by the service has no
    part in the result. *)
Theorem success_label (criteria : list Double.Criterion) (s : Double.Student)
    (res : Double.GradingResult) (students : list Double.Student) :
  Forall five criteria ->
  exists ths lbl,
    Double.totalScoreThresholds criteria = Some ths /\
    Double.on_success criteria s res students =
      Some (map (Double.mark_done (Double.s_id s) (Double.r_score res) lbl
                                  (Double.r_feedback res)) students) /\
    (forall x, Double.s_id x = Double.s_id s ->
       let x' := Double.mark_done (Double.s_id s) (Double.r_score res) lbl
                                  (Double.r_feedback res) x in
       Double.levelLabel x' = lbl /\ Double.status x' = done_ /\
       Double.s_score x' = Some (Double.r_score res) /\
       Double.feedback x' = Double.r_feedback res) /\
    (forall x, Double.s_id x <> Double.s_id s ->
       Double.mark_done (Double.s_id s) (Double.r_score res) lbl
                        (Double.r_feedback res) x = x) /\
    (forall l',
       Double.on_success criteria s
         (Double.mkGradingResult (Double.r_score res) l' (Double.r_feedback res)) students =
       Double.on_success criteria s res students) /\
    ((exists i t, ths !! i = Some t /\ bracketed (Double.r_score res) t /\
        (forall j t', (j < i)%nat -> ths !! j = Some t' ->
           ~ bracketed (Double.r_score res) t') /\
        rank_label i = Some lbl /\ lbl <> UNDETERMINED)
     \/ ((forall t, In t ths -> ~ bracketed (Double.r_score res) t) /\
         lbl = UNDETERMINED)).
Proof.
  intros H5. pose proof (thresholds_five criteria H5) as Hths.
  match type of Hths with _ = Some ?l => set (ths := l) in * end.
  exists ths, (Double.getLevelLabelFromScore ths (Double.r_score res)).
  split; [exact Hths|].
  split; [unfold Double.on_success; by rewrite Hths|].
  split.
  { intros x Hx. unfold Double.mark_done. by rewrite decide_True. }
  split.
  { intros x Hx. unfold Double.mark_done. by rewrite decide_False. }
  split; [reflexivity|].
  destruct (classified ths (Double.r_score res)) as [(i & t & Hi & Hb & Hlt & ->)|[Hall ->]].
  - left. exists i, t. destruct (label_of_index criteria i t Hi) as (_ & _ & Hl & Hu).
    do 3 (split; [done|]). by split.
  - right. by split.
Qed.

Lemma success_label_witness :
  exists lbl,
    Double.on_success [d_default] d_alice d_result [d_alice; d_bob] =
    Some (map (Double.mark_done "id-1" (of_Z 85) lbl "well done") [d_alice; d_bob]).
Proof.
  destruct (success_label [d_default] d_alice d_result [d_alice; d_bob])
    as (ths & lbl & _ & H & _).
  - repeat constructor.
  - exists lbl. exact H.
Defined.

Example success_label_85 :
  Double.on_success [d_default] d_alice d_result [d_alice; d_bob] =
  Some [ Double.mkStudent "id-1" "Alice" ["an answer"] "well done" (Some (of_Z 85))
           "表現良好" done_ None; d_bob ].
Proof. reflexivity. Qed.

(** A score that no band brackets: above the top ceiling, or between two
    bands (89.5). *)
Example undetermined_outside :
  Double.totalScoreThresholds [d_default] ≫=
    (fun ths => Some (map (Double.getLevelLabelFromScore ths)
                          [of_Z 101; SpecFloat.S754_finite false 6298002603900928 (-46)]))
  = Some [UNDETERMINED; UNDETERMINED].
Proof. reflexivity. Qed.

(** A rubric whose second score field was emptied: [parseInt] gave [NaN],
    the top floor and the second ceiling are [NaN], and the totals of the
    two upper bands find no band. *)
Example emptied_score_field :
  let c := Double.mkCriterion "a" EmptyString
             (<[1%nat := Double.mkLevel "表現良好 (Good)" NaN EmptyString]>
                Double.DEFAULT_LEVELS) in
  Double.totalScoreThresholds [c] ≫=
    (fun ths => Some (map (fun z => Double.getLevelLabelFromScore ths (of_Z z))
                          [100; 90; 85; 80; 79])) =
  Some [UNDETERMINED; UNDETERMINED; UNDETERMINED; UNDETERMINED; "已經做到"].
Proof. reflexivity. Qed.

End DoubleFacts.

(** ** Batch grading *)

Module GradingFacts.
Import Grading GradingSpec Samples.

Section Facts.

Variable api : nat -> Student -> list string -> list Criterion -> Exn + GradingResult.
Variable tasks : list string.
Variable criteria : list Criterion.
Variable thresholds : list Threshold.

Abbreviation iteration := (iteration api tasks criteria thresholds).
Abbreviation loop := (loop api tasks criteria thresholds).
Abbreviation startBatchGrading := (startBatchGrading api tasks criteria thresholds).
Abbreviation settle := (settle api tasks criteria thresholds).
Abbreviation settle_all := (settle_all api tasks criteria thresholds).

Lemma students_iteration i s st :
  students (iteration i s st) = map (settle i s) (students st).
Proof.
  unfold Grading.iteration, Grading.settle, on_success, on_failure.
  destruct (api i s tasks criteria); cbn; by rewrite map_map.
Qed.

Lemma calls_iteration i s st : calls (iteration i s st) = calls st ++ [s].
Proof.
  unfold Grading.iteration, on_success, on_failure.
  by destruct (api i s tasks criteria).
Qed.

Lemma students_loop targets : forall i st,
  students (loop i targets st) = map (settle_all i targets) (students st).
Proof.
  induction targets as [|s rest IH]; intros i st; cbn [Grading.loop Grading.settle_all].
  - by rewrite map_id.
  - by rewrite IH, students_iteration, map_map.
Qed.

Lemma calls_loop targets : forall i st,
  calls (loop i targets st) = calls st ++ targets.
Proof.
  induction targets as [|s rest IH]; intros i st; cbn [Grading.loop].
  - by rewrite app_nil_r.
  - by rewrite IH, calls_iteration, <- app_assoc.
Qed.

Lemma loop_app pre : forall post i st,
  loop i (pre ++ post) st = loop (i + length pre) post (loop i pre st).
Proof.
  induction pre as [|s pre IH]; intros post i st; cbn [Grading.loop app length].
  - by rewrite Nat.add_0_r.
  - rewrite IH. f_equal. lia.
Qed.

Lemma settle_id i s x : s_id (settle i s x) = s_id x.
Proof.
  unfold Grading.settle, mark_done, mark_error, mark_loading.
  destruct (api i s tasks criteria); repeat case_decide; reflexivity.
Qed.

Lemma settle_other i s x : s_id x <> s_id s -> settle i s x = x.
Proof.
  intros H. unfold Grading.settle, mark_done, mark_error, mark_loading.
  destruct (api i s tasks criteria); repeat case_decide; congruence.
Qed.

Lemma settle_failure i s x e :
  api i s tasks criteria = inl e -> s_id x = s_id s -> settle i s x = failed x.
Proof.
  intros H E. unfold Grading.settle, mark_error, mark_loading. rewrite H.
  rewrite (decide_True _ _ E). cbn. by rewrite (decide_True _ _ E).
Qed.

Lemma settle_success i s x res :
  api i s tasks criteria = inr res -> s_id x = s_id s ->
  settle i s x =
  {| s_id := s_id x; name := name x; contents := contents x;
     feedback := r_feedback res; s_score := Some (r_score res);
     levelLabel := getLevelLabelFromScore thresholds (r_score res);
     status := done_; errorMsg := errorMsg x |}.
Proof.
  intros H E. unfold Grading.settle, mark_done, mark_loading. rewrite H.
  rewrite (decide_True _ _ E). cbn. by rewrite (decide_True _ _ E).
Qed.

Lemma settle_all_other targets : forall i x,
  ~ In (s_id x) (map s_id targets) -> settle_all i targets x = x.
Proof.
  induction targets as [|s rest IH]; intros i x H; cbn [Grading.settle_all]; [done|].
  cbn in H. rewrite settle_other by intuition congruence.
  apply IH. intuition.
Qed.

Lemma errorToast_iteration i s st :
  errorToast (iteration i s st) = Some TOAST_MSG \/
  errorToast (iteration i s st) = errorToast st.
Proof.
  unfold Grading.iteration, on_success, on_failure.
  destruct (api i s tasks criteria); cbn; auto.
Qed.

Lemma errorToast_loop targets : forall i st,
  errorToast st = Some TOAST_MSG -> errorToast (loop i targets st) = Some TOAST_MSG.
Proof.
  induction targets as [|s rest IH]; intros i st H; cbn [Grading.loop]; [done|].
  apply IH. destruct (errorToast_iteration i s st) as [E|E]; congruence.
Qed.

Lemma startBatchGrading_unfold st :
  List.filter is_target (students st) <> [] ->
  startBatchGrading st =
  setIsEvaluating false
    (loop 0 (List.filter is_target (students st))
       (setEvaluatingProgress
          (fun _ => (0, length (List.filter is_target (students st)))%nat)
          (setIsEvaluating true st))).
Proof.
  unfold Grading.startBatchGrading.
  destruct (List.filter is_target (students st)); [congruence|reflexivity].
Qed.

Lemma calls_startBatchGrading st :
  calls (startBatchGrading st) = calls st ++ List.filter is_target (students st).
Proof.
  destruct (List.filter is_target (students st)) as [|t ts] eqn:E.
  - unfold Grading.startBatchGrading. rewrite E. by rewrite app_nil_r.
  - rewrite startBatchGrading_unfold by congruence.
    cbn [calls setIsEvaluating]. rewrite calls_loop. cbn. by rewrite E.
Qed.

Lemma settle_all_id targets : forall i x, s_id (settle_all i targets x) = s_id x.
Proof.
  induction targets as [|s rest IH]; intros i x; cbn [Grading.settle_all]; [done|].
  by rewrite IH, settle_id.
Qed.

Lemma students_failed_iteration i s st e :
  api i s tasks criteria = inl e ->
  students (iteration i s st) =
  map (fun x => if decide (s_id x = s_id s) then failed x else x) (students st).
Proof.
  intros H. rewrite students_iteration. apply map_ext. intros x.
  case_decide as E.
  - by apply settle_failure with e.
  - by apply settle_other.
Qed.

(** X29.  When the call for a target [s] fails, the failure is caught: the
    records of [s] alone are set to the error status with the error message
    and the state [errorToast] is set; the loop then goes on with the targets
    after [s], so that the run calls the service for every target of the
    batch, and at the end [s] is still in the error status and [errorToast]
    still set.  Identifiers are those of [uuidv4], taken distinct among the
    targets. *)
Theorem batch_error_handling (st : State) (pre post : list Student) (s : Student) (e : Exn) :
  List.filter is_target (students st) = pre ++ s :: post ->
  NoDup (map s_id (pre ++ s :: post)) ->
  api (length pre) s tasks criteria = inl e ->
  let entered :=
    setEvaluatingProgress (fun _ => (0, length (pre ++ s :: post))%nat)
      (setIsEvaluating true st) in
  let before := loop 0 pre entered in
  let after := iteration (length pre) s before in
  let final := startBatchGrading st in
  students after =
    map (fun x => if decide (s_id x = s_id s) then failed x else x) (students before) /\
  errorToast after = Some TOAST_MSG /\
  final = setIsEvaluating false (loop (S (length pre)) post after) /\
  calls final = calls st ++ pre ++ s :: post /\
  (forall x, In x (students final) -> s_id x = s_id s ->
     status x = error /\ errorMsg x = Some ERROR_MSG) /\
  errorToast final = Some TOAST_MSG.
Proof.
  intros Ht Hnd Hfail entered before after final.
  assert (Hafter : students after =
    map (fun x => if decide (s_id x = s_id s) then failed x else x) (students before)).
  { by apply students_failed_iteration with e. }
  assert (Htoast : errorToast after = Some TOAST_MSG).
  { unfold after, Grading.iteration. by rewrite Hfail. }
  assert (Hfinal : final = setIsEvaluating false (loop (S (length pre)) post after)).
  { unfold final. rewrite startBatchGrading_unfold; rewrite Ht; [|by destruct pre].
    by rewrite loop_app. }
  assert (Hend : forall x, In x (students final) -> s_id x = s_id s ->
                 exists z, x = failed z).
  { intros x Hx Hid. rewrite Hfinal in Hx. cbn [students setIsEvaluating] in Hx.
    rewrite students_loop, Hafter, map_map in Hx.
    apply in_map_iff in Hx as (z & <- & _).
    rewrite settle_all_id in Hid.
    assert (Hz : s_id z = s_id s) by (by case_decide).
    rewrite settle_all_other.
    - exists z. by rewrite (decide_True _ _ Hz).
    - rewrite Hid. rewrite map_app in Hnd. cbn [map] in Hnd.
      apply NoDup_app in Hnd as (_ & _ & Hnd). apply NoDup_cons in Hnd as [Hnd _].
      by rewrite <- list_elem_of_In. }
  split; [exact Hafter|]. split; [exact Htoast|]. split; [exact Hfinal|].
  split; [|split].
  - unfold final. by rewrite calls_startBatchGrading, Ht.
  - intros x Hx Hid. by destruct (Hend x Hx Hid) as (z & ->).
  - rewrite Hfinal. cbn [errorToast setIsEvaluating]. by apply errorToast_loop.
Qed.

(** C5, as the code has it.  A run calls the service once for each student
    whose status is not [done] and who has an answer that is not blank, in
    the order of the list, and for no other student: the calls of the run
    are the list of these students. *)
Theorem batch_targets (st : State) :
  calls (startBatchGrading st) =
  calls st ++ List.filter (fun s => lacks_result s && has_answer s) (students st).
Proof. apply calls_startBatchGrading. Qed.

(** In the loop: when the call for [s] succeeds, the records of [s] take
    the status [done], the returned score and feedback, and the label that
    [getLevelLabelFromScore] gives for the returned score; the toast is not
    touched. *)
Lemma iteration_success (i : nat) (s : Student) (st : State) (res : GradingResult) :
  api i s tasks criteria = inr res ->
  (forall k x, students st !! k = Some x -> s_id x = s_id s ->
     exists x', students (iteration i s st) !! k = Some x' /\
       status x' = done_ /\
       s_score x' = Some (r_score res) /\
       feedback x' = r_feedback res /\
       levelLabel x' = getLevelLabelFromScore thresholds (r_score res) /\
       ((forall t, In t thresholds -> ~ bracketed (r_score res) t) ->
        levelLabel x' = UNDETERMINED)) /\
  (forall lbl,
     on_success thresholds s (mkGradingResult (r_score res) lbl (r_feedback res)) =
     on_success thresholds s res) /\
  errorToast (iteration i s st) = errorToast st.
Proof.
  intros H. split; [|split].
  - intros k x Hk E. eexists. split.
    { rewrite students_iteration, list_lookup_fmap_Some. eauto. }
    rewrite (settle_success i s x res H E). cbn. repeat split.
    intros Hno. unfold getLevelLabelFromScore.
    destruct (List.find (in_band (r_score res)) thresholds) as [t|] eqn:Hf; [|done].
    apply find_some in Hf as [Hin Hb]. apply in_band_bracketed in Hb.
    by destruct (Hno t Hin).
  - reflexivity.
  - unfold Grading.iteration. by rewrite H.
Qed.

(** A score that no band brackets: above the top ceiling, or between two
    bands when it is not an integer. *)
Example undetermined_above :
  totalScoreThresholds [default_criterion "a"] ≫=
    (fun ths => Some (getLevelLabelFromScore ths (inject_Z 101))) = Some UNDETERMINED.
Proof. reflexivity. Qed.

Example undetermined_between :
  totalScoreThresholds [default_criterion "a"] ≫=
    (fun ths => Some (getLevelLabelFromScore ths (179 # 2))) = Some UNDETERMINED.
Proof. reflexivity. Qed.

(** C10.  When the call for [s] fails, the iteration keeps the length and the
    order of [students]; a record with another identifier is unchanged, and a
    record of [s] keeps its identifier, name, answers, score, feedback and
    label, while its status becomes [error] and its error message is set. *)
Theorem failure_frame (i : nat) (s : Student) (st : State) (e : Exn) :
  api i s tasks criteria = inl e ->
  length (students (iteration i s st)) = length (students st) /\
  forall k x, students st !! k = Some x ->
    exists x', students (iteration i s st) !! k = Some x' /\
      s_id x' = s_id x /\ name x' = name x /\ contents x' = contents x /\
      s_score x' = s_score x /\ feedback x' = feedback x /\
      levelLabel x' = levelLabel x /\
      (s_id x <> s_id s -> x' = x) /\
      (s_id x = s_id s -> status x' = error /\ errorMsg x' = Some ERROR_MSG).
Proof.
  intros H. rewrite (students_failed_iteration i s st e H). split.
  - apply length_map.
  - intros k x Hk. eexists. split.
    { rewrite list_lookup_fmap_Some. eauto. }
    case_decide; cbn; repeat split; intros; congruence.
Qed.

End Facts.

Lemma batch_error_handling_witness :
  calls (Grading.startBatchGrading fails_first [] [] [] two_students) = [alice; bob].
Proof.
  refine (proj1 (proj2 (proj2 (proj2
    (batch_error_handling fails_first [] [] [] two_students [] [bob] alice Rejected
       eq_refl _ eq_refl))))).
  apply (bool_decide_unpack _). vm_compute. exact I.
Defined.

Lemma failure_frame_witness :
  length (students (Grading.iteration fails_first [] [] [] 0 alice two_students)) = 2%nat.
Proof.
  exact (proj1 (failure_frame fails_first [] [] [] 0 alice two_students Rejected eq_refl)).
Defined.

(** C5, as the specification words it, fails: a student without a result
    whose answers are all blank is not handed to the service. *)
Lemma batch_targets_counterexample :
  ~ (forall api tasks criteria thresholds (st : State),
       calls (Grading.startBatchGrading api tasks criteria thresholds st) =
       calls st ++ List.filter lacks_result (students st)).
Proof.
  intros H.
  specialize (H fails_first [] [] [] (mkState [silent] false (0, 0)%nat None [])).
  discriminate H.
Qed.

End GradingFacts.

(** ** The page after a failed call *)

Module ViewFacts.
Import Grading Samples View.

(** The page does not depend on [errorToast]. *)
Lemma render_setErrorToast (tasks : list string) (m : string) (st : State) :
  render tasks (setErrorToast m st) = render tasks st.
Proof. reflexivity. Qed.

(** C4.  A batch of two students in which the call fails for the first one
    and succeeds for the second.  The failure is caught, the first student
    alone is set to the error status with the error message, the loop goes
    on to the second student, and [setErrorToast] is called.  But no toast
    is raised: the page shows the two rows, no overlay, and nothing of
    [errorToast], whose value no part of the page depends on. *)
Theorem toast_not_rendered :
  let st' := startBatchGrading fails_first ["task"] [default_criterion "a"]
               default_thresholds two_students in
  calls st' = [alice; bob] /\
  errorToast st' = Some TOAST_MSG /\
  render ["task"] st' =
    mkPage None
      [ mkRow "Alice" [Some "an answer"] None None EmptyString (Alert (Some ERROR_MSG));
        mkRow "Bob" [Some "another answer"] (Some (inject_Z 85))
              (Some (Some "bg-blue-100 text-blue-600 border-blue-200", "表現良好"))
              "well done" Check ]
      {["表現良好" := 1%nat]}
      false /\
  (forall m, render ["task"] (setErrorToast m st') = render ["task"] st').
Proof. repeat split. Qed.

End ViewFacts.

(** ** The structured AI calls *)

Module ServiceFacts.
Import Service.

Lemma falsy_inv (text : option string) :
  falsy text = false -> exists c t, text = Some (String c t).
Proof. destruct text as [[|c t]|]; try discriminate. eauto. Qed.

(** C6, as the code has it.  For both structured calls a response text that
    is missing or empty raises an error, and so does a text that does not
    parse.  When the text parses, the evaluation of a student returns the
    parsed value; the generation of rubric levels returns the parsed value
    when it is an array and the empty array otherwise. *)
Theorem structured_calls (JSON_parse : string -> option json) (text : option string) :
  (falsy text = true ->
     (exists e, generateRubricCriteria JSON_parse (inr text) = inl e) /\
     (exists e, evaluateStudentWork JSON_parse (inr text) = inl e)) /\
  (forall t, text = Some t -> falsy text = false -> JSON_parse t = None ->
     generateRubricCriteria JSON_parse (inr text) = inl SyntaxError /\
     evaluateStudentWork JSON_parse (inr text) = inl SyntaxError) /\
  (forall t data, text = Some t -> falsy text = false -> JSON_parse t = Some data ->
     evaluateStudentWork JSON_parse (inr text) = inr data /\
     generateRubricCriteria JSON_parse (inr text) =
       inr (if isArray data then data else JArr [])).
Proof.
  split; [|split].
  - destruct text as [[|c t]|]; try discriminate; intros _; cbn; eauto.
  - intros t -> Hf Hp. destruct t; [discriminate|]. cbn. by rewrite Hp.
  - intros t data -> Hf Hp. destruct t; [discriminate|]. cbn. by rewrite Hp.
Qed.

Lemma structured_calls_witness :
  evaluateStudentWork parse_digit (inr (Some "5")) = inr (JNum (inject_Z 5)) /\
  generateRubricCriteria parse_digit (inr (Some "5")) = inr (JArr []) /\
  (exists e, generateRubricCriteria parse_digit (inr None) = inl e) /\
  generateRubricCriteria parse_digit (inr (Some "x")) = inl SyntaxError.
Proof.
  split; [|split; [|split]].
  - exact (proj1 (proj2 (proj2 (structured_calls parse_digit (Some "5")))
                    "5" (JNum (inject_Z 5)) eq_refl eq_refl eq_refl)).
  - exact (proj2 (proj2 (proj2 (structured_calls parse_digit (Some "5")))
                    "5" (JNum (inject_Z 5)) eq_refl eq_refl eq_refl)).
  - exact (proj1 (proj1 (structured_calls parse_digit None) eq_refl)).
  - exact (proj1 (proj1 (proj2 (structured_calls parse_digit (Some "x")))
                    "x" eq_refl eq_refl eq_refl)).
Defined.

(** C6, as the specification words it, fails for the generation of rubric
    levels: a response that parses to a value that is not an array gives the
    empty array, not the parsed value. *)
Lemma structured_calls_counterexample :
  ~ (forall (JSON_parse : string -> option json) (t : string) (data : json),
       falsy (Some t) = false -> JSON_parse t = Some data ->
       generateRubricCriteria JSON_parse (inr (Some t)) = inr data).
Proof.
  intros H.
  specialize (H parse_digit "5" (JNum (inject_Z 5)) eq_refl eq_refl).
  discriminate H.
Qed.

End ServiceFacts.

(** ** Strings: splitting and joining *)

Module StrFacts.
Import Str.

Lemma app_nil b : EmptyString +:+ b = b.
Proof. reflexivity. Qed.

Lemma app_cons d a b : String d a +:+ b = String d (a +:+ b).
Proof. reflexivity. Qed.

Lemma app_of_char c b : of_char c +:+ b = String c b.
Proof. reflexivity. Qed.

Lemma has_app c a b : has c (a +:+ b) = has c a || has c b.
Proof.
  induction a as [|d a IH]; [done|].
  rewrite app_cons. cbn [has].
  destruct (ascii_dec c d); [done|apply IH].
Qed.

Lemma has_of_char c d : has c (of_char d) = bool_decide (c = d).
Proof.
  cbn. destruct (ascii_dec c d) as [E|E].
  - by rewrite bool_decide_eq_true_2.
  - by rewrite bool_decide_eq_false_2.
Qed.

Lemma has_double_quotes c s : c <> quote -> has c (double_quotes s) = has c s.
Proof.
  intros Hc. induction s as [|d s IH]; cbn; [done|].
  destruct (ascii_dec d quote) as [->|Hd]; cbn.
  - destruct (ascii_dec c quote); [done|apply IH].
  - destruct (ascii_dec c d); [done|apply IH].
Qed.

Lemma has_quoted c s : c <> quote -> has c (quoted s) = has c s.
Proof.
  intros Hc. unfold quoted. cbn [has].
  destruct (ascii_dec c quote); [done|].
  rewrite has_app, has_double_quotes, has_of_char by done.
  rewrite bool_decide_eq_false_2 by done. apply orb_false_r.
Qed.

Lemma has_join c sep l :
  has c sep = false -> Forall (fun x => has c x = false) l -> has c (join sep l) = false.
Proof.
  intros Hs H. induction H as [|x l Hx Hl IH]; [done|].
  cbn [join]. destruct l as [|y l]; [done|].
  rewrite !has_app, Hx, Hs. exact IH.
Qed.

Lemma has_of_nat c n :
  (nat_of_ascii c < 48)%nat -> has c (of_nat n) = false.
Proof.
  intros Hc. unfold of_nat. generalize (Nat.to_uint n). intros d.
  induction d; cbn [NilEmpty.string_of_uint has]; [done|..];
    (destruct (ascii_dec c _) as [->|_];
     [apply Nat.ltb_lt in Hc; vm_compute in Hc; discriminate|assumption]).
Qed.

Lemma split_nil c : split (of_char c) EmptyString = [EmptyString].
Proof. reflexivity. Qed.

Lemma split_sep c s :
  split (of_char c) (String c s) = EmptyString :: split (of_char c) s.
Proof.
  unfold split. cbn. destruct (ascii_dec c c); [|done].
  by destruct s.
Qed.

Lemma split_other c d s :
  c <> d -> split (of_char c) (String d s) = cons_first d (split (of_char c) s).
Proof.
  intros H. unfold split. cbn. by destruct (ascii_dec c d).
Qed.

(** A piece without the separator, followed by the separator, is the first
    cell. *)
Lemma split_plain_sep c x rest :
  has c x = false ->
  split (of_char c) (x +:+ String c rest) = x :: split (of_char c) rest.
Proof.
  induction x as [|d x IH]; cbn [has]; intros H.
  - rewrite app_nil. apply split_sep.
  - destruct (ascii_dec c d) as [|Hd]; [done|].
    rewrite app_cons, split_other by done. by rewrite IH.
Qed.

Lemma split_plain c x : has c x = false -> split (of_char c) x = [x].
Proof.
  induction x as [|d x IH]; cbn [has]; intros H; [done|].
  destruct (ascii_dec c d) as [|Hd]; [done|].
  rewrite split_other by done. by rewrite IH.
Qed.

Lemma join_cons sep x y l : join sep (x :: y :: l) = x +:+ sep +:+ join sep (y :: l).
Proof. reflexivity. Qed.

(** Cells without the separator come back, whatever follows them. *)
Lemma split_join_app c xs ys :
  Forall (fun x => has c x = false) xs -> ys <> [] ->
  split (of_char c) (join (of_char c) (xs ++ ys)) =
  xs ++ split (of_char c) (join (of_char c) ys).
Proof.
  intros H Hys. induction H as [|x xs Hx _ IH]; [done|].
  cbn [app]. destruct (xs ++ ys) as [|y l] eqn:E.
  - by destruct xs, ys.
  - rewrite join_cons, app_of_char.
    rewrite split_plain_sep by done. by rewrite IH.
Qed.

Lemma split_join c l :
  Forall (fun x => has c x = false) l -> l <> [] ->
  split (of_char c) (join (of_char c) l) = l.
Proof.
  intros H Hl. induction H as [|x l Hx Hl' IH]; [done|].
  destruct l as [|y l].
  - by apply split_plain.
  - rewrite join_cons, app_of_char.
    rewrite split_plain_sep by done. by rewrite IH.
Qed.

End StrFacts.

(** ** CSV export and import *)

Module CSVFacts.
Import Str StrFacts CSV CSVSpec Samples.

Section Facts.

Variable numberToString : Q -> string.
Variable uuidv4 : nat -> string.

Abbreviation export := (export numberToString).
Abbreviation row := (row numberToString).
Abbreviation import := (import uuidv4).
Abbreviation plain := (plain numberToString).

Lemma lookup_map {A B} (f : A -> B) (l : list A) (i : nat) :
  map f l !! i = f <$> l !! i.
Proof. apply list_lookup_fmap. Qed.

Lemma header_no_newline tasks : has newline (header tasks) = false.
Proof.
  unfold header. apply has_join; [reflexivity|].
  apply Forall_app. split; [by repeat constructor|].
  apply Forall_app. split; [|by repeat constructor].
  apply Forall_lookup. intros i x. rewrite list_lookup_imap.
  destruct (tasks !! i); [|discriminate]. intros [= <-].
  rewrite has_app, has_of_nat; [reflexivity|].
  apply Nat.ltb_lt. reflexivity.
Qed.

Lemma row_no_newline s : plain s -> has newline (row s) = false.
Proof.
  intros (Hn & _ & Hc & Hs & Hl & Hf). unfold CSV.row.
  apply has_join; [reflexivity|].
  apply Forall_app. split; [by repeat constructor|].
  apply Forall_app. split.
  - apply Forall_map. eapply Forall_impl; [exact Hc|].
    intros c [H _]. by rewrite has_quoted.
  - repeat constructor; try done. by rewrite has_quoted.
Qed.

(** The cells of an exported row, as the import splits it: the name, the
    quoted answers, and the cells made of the last three columns. *)
Lemma row_cells s :
  plain s ->
  split sep_comma (row s) =
  (name s :: map quoted (contents s))
  ++ split sep_comma
       (join sep_comma [score_cell numberToString (s_score s); levelLabel s;
                        quoted (feedback s)]).
Proof.
  intros (_ & Hn & Hc & _). unfold CSV.row.
  change ([name s] ++ map quoted (contents s) ++ ?l)
    with ((name s :: map quoted (contents s)) ++ l).
  apply split_join_app; [|done].
  constructor; [done|].
  apply Forall_map. eapply Forall_impl; [exact Hc|].
  intros c [_ H]. by rewrite has_quoted.
Qed.

Lemma rows_export tasks students :
  students <> [] -> Forall plain students ->
  rows (readAsText (export tasks students)) =
  map (fun s => split sep_comma (row s)) students.
Proof.
  intros Hne Hp. unfold rows.
  change (readAsText (export tasks students))
    with (header tasks +:+ sep_newline +:+ join sep_newline (map row students)).
  unfold sep_newline. rewrite app_of_char.
  rewrite split_plain_sep by apply header_no_newline.
  rewrite split_join.
  - cbn [map tail]. by rewrite map_map.
  - apply Forall_map. eapply Forall_impl; [exact Hp|]. apply row_no_newline.
  - by destruct students.
Qed.

(** C1, as the code has it.  For a list of students that is not empty, in
    which no cell holds a line break and no name or answer holds a comma,
    importing the exported text gives as many students, with the same names;
    every imported student has one answer per task, and each answer below the
    number of exported answers comes back between double quotes, with its own
    double quotes written twice. *)
Theorem export_import (tasks : list string) (students : list Student) :
  students <> [] ->
  Forall plain students ->
  let imported := import tasks (readAsText (export tasks students)) in
  length imported = length students /\
  map name imported = map name students /\
  forall k s, students !! k = Some s ->
    exists s', imported !! k = Some s' /\
      name s' = name s /\
      length (contents s') = length tasks /\
      forall i c, (i < length tasks)%nat -> contents s !! i = Some c ->
        contents s' !! i = Some (quoted c).
Proof.
  intros Hne Hp imported.
  assert (E : imported =
    imap (fun k s => import_student uuidv4 tasks k (split sep_comma (row s))) students).
  { unfold imported, CSV.import. rewrite rows_export by done.
    by rewrite imap_fmap. }
  assert (Hname : forall k s, In s students ->
    name (import_student uuidv4 tasks k (split sep_comma (row s))) = name s).
  { intros k s Hs. rewrite Forall_forall in Hp.
    rewrite row_cells by (apply Hp; by apply list_elem_of_In). reflexivity. }
  split; [by rewrite E, length_imap|]. split.
  - rewrite E. apply list_eq. intros k.
    rewrite !list_lookup_fmap, list_lookup_imap.
    destruct (students !! k) as [s|] eqn:Hk; [|done]. cbn [fmap option_fmap option_map].
    f_equal. apply (Hname k). apply list_elem_of_In. by apply list_elem_of_lookup_2 with k.
  - intros k s Hk. eexists. split.
    { rewrite E, list_lookup_imap, Hk. reflexivity. }
    assert (Hs : In s students).
    { apply list_elem_of_In. by apply list_elem_of_lookup_2 with k. }
    split; [by apply Hname|]. split; [apply length_imap|].
    intros i c Hi Hc. cbn [contents import_student].
    rewrite list_lookup_imap.
    destruct (tasks !! i) as [t|] eqn:Ht; [|apply lookup_ge_None in Ht; lia].
    cbn [fmap option_fmap option_map]. f_equal. rewrite Forall_forall in Hp.
    rewrite row_cells by (apply Hp; by apply list_elem_of_In).
    unfold cell. rewrite lookup_app_l.
    + replace (i + 1)%nat with (S i) by lia.
      change ((name s :: map quoted (contents s)) !! S i)
        with (map quoted (contents s) !! i).
      by rewrite lookup_map, Hc.
    + cbn [length]. rewrite length_map. apply lookup_lt_Some in Hc. lia.
Qed.

End Facts.

Lemma export_import_witness :
  length (CSV.import Str.of_nat ["t"]
            (readAsText (CSV.export decimal_85 ["t"] [carol]))) = 1%nat.
Proof.
  refine (proj1 (export_import decimal_85 Str.of_nat ["t"] [carol] _ _)).
  - discriminate.
  - repeat constructor.
Defined.

(** C1, as the specification words it, fails: the import does not undo the
    quoting of the export, so an answer comes back between double quotes. *)
Lemma export_import_counterexample :
  ~ (forall (numberToString : Q -> string) (uuidv4 : nat -> string)
            (tasks : list string) (students : list Student),
       same_fields
         (CSV.import uuidv4 tasks (readAsText (CSV.export numberToString tasks students)))
         students).
Proof.
  intros H. destruct (H decimal_85 Str.of_nat ["t"] [carol]) as [_ Hc].
  discriminate Hc.
Qed.

(** The empty list does not come back either: its export is the header and
    an empty line, which the import reads as one student without a name. *)
Example export_import_empty :
  map name (CSV.import Str.of_nat ["t"] (readAsText (CSV.export decimal_85 ["t"] [])))
  = [EmptyString].
Proof. reflexivity. Qed.

End CSVFacts.

(** ** The rubric editor and the template library *)

Module EditorFacts.
Import Editor EditorSpec Samples.

Lemma evolves_refl h : evolves h h.
Proof. split; eauto. Qed.

Lemma evolves_trans h1 h2 h3 : evolves h1 h2 -> evolves h2 h3 -> evolves h1 h3.
Proof.
  intros [A1 B1] [A2 B2]. split.
  - intros l c Hl. destruct (A1 l c Hl) as (c' & Hl' & E').
    destruct (A2 l c' Hl') as (c'' & Hl'' & E''). exists c''. split; [done|congruence].
  - intros c3 H3. destruct (B2 c3 H3) as [?|(c2 & H2 & E2)]; [by left|].
    destruct (B1 c2 H2) as [F|(c1 & H1 & E1)].
    + left. unfold five in *. congruence.
    + right. exists c1. split; [done|congruence].
Qed.

Lemma evolves_five h h' : evolves h h' -> Forall five h -> Forall five h'.
Proof.
  intros [_ B] H. apply Forall_forall. intros c' Hc'.
  destruct (B c' Hc') as [?|(c & Hc & E)]; [done|].
  rewrite Forall_forall in H. unfold five in *. rewrite E. by apply H.
Qed.

Lemma evolves_length h h' : evolves h h' -> (length h <= length h')%nat.
Proof.
  intros [A _]. destruct (decide (length h <= length h')%nat) as [|Hn]; [done|].
  destruct (lookup_lt_is_Some_2 h (length h')) as [c Hc]; [lia|].
  destruct (A _ _ Hc) as (c' & Hc' & _). apply lookup_lt_Some in Hc'. lia.
Qed.

Lemma evolves_insert h l c c' :
  h !! l = Some c -> length (levels c') = length (levels c) -> evolves h (<[l := c']> h).
Proof.
  intros Hl E. split.
  - intros l0 c0 H0. destruct (decide (l = l0)) as [->|Hne].
    + exists c'. rewrite list_lookup_insert_eq by (by eapply lookup_lt_Some).
      split; [done|congruence].
    + exists c0. by rewrite list_lookup_insert_ne.
  - intros c0 H0. right. apply list_elem_of_lookup in H0 as [l0 H0].
    destruct (decide (l = l0)) as [->|Hne].
    + rewrite list_lookup_insert_eq in H0 by (by eapply lookup_lt_Some).
      injection H0 as <-. exists c. split; [by eapply list_elem_of_lookup_2|done].
    + rewrite list_lookup_insert_ne in H0 by done.
      exists c0. split; [by eapply list_elem_of_lookup_2|done].
Qed.

Lemma evolves_app h cs :
  Forall (fun c' => five c' \/ exists c, c ∈ h /\ length (levels c') = length (levels c)) cs ->
  evolves h (h ++ cs).
Proof.
  intros H. split.
  - intros l c Hl. exists c. split; [|done]. by apply lookup_app_l_Some.
  - intros c' Hc'. apply elem_of_app in Hc' as [Hc'|Hc'].
    + right. by exists c'.
    + rewrite Forall_forall in H. by apply H.
Qed.

Lemma refs_ok_mono h h' refs :
  (length h <= length h')%nat -> refs_ok h refs -> refs_ok h' refs.
Proof.
  intros Hle H. eapply Forall_impl; [exact H|]. intros l Hl. cbn in *. lia.
Qed.

Lemma alloc_all_eq cs : forall h,
  alloc_all cs h = (h ++ cs, seq (length h) (length cs)).
Proof.
  induction cs as [|c cs IH]; intros h; cbn [alloc_all alloc].
  - by rewrite app_nil_r.
  - rewrite IH, length_app. cbn [length seq].
    rewrite <- app_assoc. repeat f_equal. lia.
Qed.

Lemma refs_ok_seq h cs : refs_ok (h ++ cs) (seq (length h) (length cs)).
Proof.
  apply Forall_forall. intros l Hl. apply list_elem_of_In, in_seq in Hl.
  rewrite length_app. lia.
Qed.

Lemma refs_ok_alloc h c : refs_ok (h ++ [c]) [length h].
Proof. apply (refs_ok_seq h [c]). Qed.

Lemma elem_of_view_criteria h refs c : c ∈ view_criteria h refs -> c ∈ h.
Proof.
  unfold view_criteria. rewrite list_elem_of_omap. intros (l & _ & Hl).
  by eapply list_elem_of_lookup_2.
Qed.

Lemma new_criterion_five id : five (new_criterion id).
Proof. reflexivity. Qed.

Lemma evolves_alloc_new h id : evolves h (h ++ [new_criterion id]).
Proof. apply evolves_app. repeat constructor. Qed.

Lemma evolves_deep_copy h refs : evolves h (deep_copy h refs).1.
Proof.
  unfold deep_copy. rewrite alloc_all_eq. cbn [fst].
  apply evolves_app. apply Forall_forall. intros c Hc. right. exists c.
  split; [by eapply elem_of_view_criteria|done].
Qed.

Lemma evolves_write_focus v refs cIdx h h' :
  write_focus v refs cIdx h = Some h' -> evolves h h'.
Proof.
  unfold write_focus. intros H.
  destruct (refs !! cIdx) as [l|]; [|discriminate]. cbn in H.
  destruct (h !! l) as [c|] eqn:Hl; [|discriminate]. cbn in H.
  injection H as <-. by eapply evolves_insert.
Qed.

Lemma evolves_write_level f refs cIdx lIdx h h' :
  write_level f refs cIdx lIdx h = Some h' -> evolves h h'.
Proof.
  unfold write_level. intros H.
  destruct (refs !! cIdx) as [l|]; [|discriminate]. cbn in H.
  destruct (h !! l) as [c|] eqn:Hl; [|discriminate]. cbn in H.
  destruct (levels c !! lIdx) as [lvl|]; [|discriminate]. cbn in H.
  injection H as <-. eapply evolves_insert; [done|].
  cbn. apply length_insert.
Qed.

Lemma evolves_fill_criteria res refs cIdx : forall i h h',
  fill_criteria res i refs cIdx h = Some h' -> evolves h h'.
Proof.
  induction res as [|text res IH]; intros i h h' H; cbn [fill_criteria] in H.
  - injection H as <-. apply evolves_refl.
  - destruct (refs !! cIdx) as [l|]; [|discriminate]. cbn in H.
    destruct (h !! l) as [c|] eqn:Hl; [|discriminate]. cbn in H.
    apply IH in H. eapply evolves_trans; [|exact H].
    destruct (levels c !! i) as [lvl|]; [|apply evolves_refl].
    eapply evolves_insert; [done|]. cbn. apply length_insert.
Qed.

Lemma alloc_templates_eq ts : forall h,
  exists os,
    alloc_templates ts h = (h ++ concat (map t_criteria ts), os) /\
    Forall (fun t => refs_ok (h ++ concat (map t_criteria ts)) (o_criteria t)) os.
Proof.
  induction ts as [|t ts IH]; intros h; cbn [alloc_templates map concat].
  - exists []. rewrite app_nil_r. by split.
  - rewrite alloc_all_eq. destruct (IH (h ++ t_criteria t)) as (os & -> & Hos).
    rewrite <- app_assoc in *. eexists. split; [reflexivity|].
    constructor; [|exact Hos]. cbn [o_criteria].
    eapply refs_ok_mono; [|apply refs_ok_seq]. rewrite !length_app. lia.
Qed.

(** Reading back the objects just allocated gives the values they were
    made from. *)
Lemma view_alloc_all cs : forall h rest,
  view_criteria (h ++ cs ++ rest) (seq (length h) (length cs)) = cs.
Proof.
  induction cs as [|c cs IH]; intros h rest; [done|].
  cbn [length seq app]. unfold view_criteria.
  change (omap (fun l => (h ++ c :: cs ++ rest) !! l) (length h :: seq (S (length h)) (length cs)))
    with (match (h ++ c :: cs ++ rest) !! length h with
          | Some y => y :: view_criteria (h ++ c :: cs ++ rest) (seq (S (length h)) (length cs))
          | None => view_criteria (h ++ c :: cs ++ rest) (seq (S (length h)) (length cs))
          end).
  rewrite list_lookup_middle by done. f_equal.
  specialize (IH (h ++ [c]) rest).
  rewrite length_app, <- app_assoc in IH. cbn in IH.
  by replace (length h + 1)%nat with (S (length h)) in IH by lia.
Qed.

Lemma alloc_templates_view ts : forall h rest,
  map (view_template ((alloc_templates ts h).1 ++ rest)) (alloc_templates ts h).2 = ts.
Proof.
  induction ts as [|t ts IH]; intros h rest; [done|].
  cbn [alloc_templates]. rewrite alloc_all_eq.
  destruct (alloc_templates_eq ts (h ++ t_criteria t)) as (os & E & _).
  specialize (IH (h ++ t_criteria t) rest). rewrite E in IH |- *.
  cbn [fst snd map] in *. rewrite IH. f_equal.
  unfold view_template. cbn [o_id o_name o_tasks o_criteria o_timestamp].
  rewrite <- !app_assoc, view_alloc_all.
  by destruct t.
Qed.

Section Facts.

Variable stringify : list Template -> string.
Variable parse : string -> option (list Template).

Abbreviation step := (step stringify).
Abbreviation mount := (mount stringify parse).
Abbreviation run := (run stringify parse).
Abbreviation setTemplates := (setTemplates stringify).
Abbreviation sync_effect := (sync_effect stringify).

Lemma evolves_load t a : evolves (heap a) (heap (load t a)).
Proof.
  unfold load. pose proof (evolves_deep_copy (heap a) (o_criteria t)) as H.
  by destruct (deep_copy (heap a) (o_criteria t)).
Qed.

(** No handler removes an object or changes its number of levels, and a new
    object has five levels or is the copy of an older one. *)
Lemma step_evolves e a : evolves (heap a) (heap (step e a)).
Proof.
  destruct e; cbn [Editor.step]; try apply evolves_refl.
  - case_match; apply evolves_refl.
  - case_decide.
    + cbn. apply evolves_alloc_new.
    + case_match; [apply evolves_load|apply evolves_refl].
  - case_match eqn:E; [|apply evolves_refl]. by apply evolves_write_focus in E.
  - case_match eqn:E; [|apply evolves_refl]. by apply evolves_write_level in E.
  - case_match eqn:E; [|apply evolves_refl]. by apply evolves_write_level in E.
  - case_match; [|apply evolves_refl]. case_match.
    case_match eqn:E; [|apply evolves_refl]. by apply evolves_fill_criteria in E.
  - case_match; apply evolves_refl.
  - cbn. apply evolves_alloc_new.
  - case_match; [apply evolves_load|apply evolves_refl].
  - case_match; [|apply evolves_refl]. case_decide; apply evolves_refl.
Qed.

Lemma well_formed_heap a h :
  (length (heap a) <= length h)%nat -> well_formed a -> well_formed (with_heap h a).
Proof.
  intros Hle (Hc & Ht & Hp). repeat split; cbn.
  - by eapply refs_ok_mono.
  - eapply Forall_impl; [exact Ht|]. intros t. by apply refs_ok_mono.
  - eapply Forall_impl; [exact Hp|]. intros t. by apply refs_ok_mono.
Qed.

Lemma well_formed_setCriteria a refs :
  refs_ok (heap a) refs -> well_formed a -> well_formed (setCriteria refs a).
Proof. intros H (_ & Ht & Hp). by repeat split. Qed.

Lemma well_formed_setTemplates a ts :
  Forall (fun t => refs_ok (heap a) (o_criteria t)) ts ->
  well_formed a -> well_formed (setTemplates ts a).
Proof. intros H (Hc & _ & Hp). by repeat split. Qed.

Lemma well_formed_load t a :
  well_formed a -> well_formed (load t a).
Proof.
  intros H. unfold load, deep_copy. rewrite alloc_all_eq.
  set (cs := view_criteria (heap a) (o_criteria t)).
  apply (well_formed_heap a (heap a ++ cs)) in H; [|rewrite length_app; lia].
  destruct H as (_ & Ht & Hp). repeat split; try done.
  apply refs_ok_seq.
Qed.

Lemma refs_ok_filter h (p : loc -> bool) refs :
  refs_ok h refs -> refs_ok h (List.filter p refs).
Proof.
  unfold refs_ok. rewrite !Forall_forall. intros H l Hl. apply H.
  apply list_elem_of_In in Hl. apply filter_In in Hl as [Hl _].
  by apply list_elem_of_In.
Qed.

Lemma Forall_List_filter {A} (P : A -> Prop) (p : A -> bool) l :
  Forall P l -> Forall P (List.filter p l).
Proof.
  rewrite !Forall_forall. intros H x Hx. apply H.
  apply list_elem_of_In in Hx. apply filter_In in Hx as [Hx _].
  by apply list_elem_of_In.
Qed.

(** Every handler keeps the references inside the store. *)
Lemma step_well_formed e a : well_formed a -> well_formed (step e a).
Proof.
  intros H. pose proof (evolves_length _ _ (step_evolves e a)) as Hlen.
  pose proof H as (Hc & Ht & Hp).
  destruct e; cbn [Editor.step] in *; try exact H.
  - case_match; exact H.
  - case_decide.
    + cbn in *. apply (well_formed_heap a (heap a ++ [new_criterion id])) in H; [|done].
      destruct H as (_ & Ht' & Hp'). repeat split; try done.
      apply refs_ok_alloc.
    + case_match; [by apply well_formed_load|exact H].
  - case_match; [|exact H]. by apply well_formed_heap.
  - case_match; [|exact H]. by apply well_formed_heap.
  - case_match; [|exact H]. by apply well_formed_heap.
  - repeat split; try done. cbn. apply Forall_app. split; [done|by repeat constructor].
  - destruct (pending a !! k) as [[refs cIdx]|] eqn:Hk; [|exact H].
    assert (Hrefs : refs_ok (heap a) refs).
    { rewrite Forall_forall in Hp. apply (Hp (refs, cIdx)).
      by eapply list_elem_of_lookup_2. }
    assert (Hd : well_formed (with_pending (delete k (pending a)) a)).
    { repeat split; try done. cbn. apply Forall_forall. intros p Hin.
      rewrite Forall_forall in Hp. apply Hp. by eapply list_elem_of_delete_inv. }
    case_match; [|exact Hd].
    cbn in Hlen. apply well_formed_setCriteria.
    + cbn. by eapply refs_ok_mono.
    + by apply well_formed_heap.
  - case_match; [|exact H]. apply well_formed_setCriteria; [|done].
    by apply refs_ok_filter.
  - cbn in *. apply (well_formed_heap a (heap a ++ [new_criterion id])) in H; [|done].
    destruct H as (Hc' & Ht' & Hp'). repeat split; try done.
    cbn in *. apply Forall_app. split; [done|apply refs_ok_alloc].
  - repeat split; try done. cbn. by constructor.
  - case_match; [by apply well_formed_load|exact H].
  - case_match; [|exact H].
    assert (well_formed (setTemplates
      (List.filter (fun x => negb (bool_decide (o_id x = o_id t))) (templates a)) a)).
    { apply well_formed_setTemplates; [|done]. by apply Forall_List_filter. }
    by case_decide.
Qed.

Lemma foldl_step_invariant (P : App -> Prop) es :
  (forall e a, P a -> P (step e a)) ->
  forall a, P a -> P (foldl (fun a e => step e a) a es).
Proof.
  intros Hstep. induction es as [|e es IH]; intros a Ha; [done|].
  cbn [foldl]. apply IH. by apply Hstep.
Qed.

Lemma mount_invariant id storage :
  stored_five parse storage ->
  Forall five (heap (mount id storage)) /\ well_formed (mount id storage).
Proof.
  intros Hs. unfold Editor.mount.
  set (a0 := mkApp [new_criterion id] [EmptyString] [0%nat] [] EmptyString [] storage).
  assert (H0 : Forall five (heap (sync_effect a0)) /\ well_formed (sync_effect a0)).
  { split; [by repeat constructor|]. repeat split; cbn; repeat constructor. }
  destruct (storage !! STORAGE_KEY) as [[|c txt]|] eqn:Hk; try exact H0.
  destruct (parse (String c txt)) as [ts|] eqn:Hp; [|exact H0].
  specialize (Hs _ _ Hk Hp).
  destruct (alloc_templates_eq ts (heap (sync_effect a0))) as (os & -> & Hos).
  split.
  - cbn. constructor; [done|]. apply Forall_concat, Forall_fmap.
    eapply Forall_impl; [exact Hs|]. by intros t.
  - apply well_formed_setTemplates; [exact Hos|].
    apply well_formed_heap; [|apply H0]. rewrite length_app. lia.
Qed.

Lemma view_criteria_length h refs :
  refs_ok h refs -> length (view_criteria h refs) = length refs.
Proof.
  unfold view_criteria. induction 1 as [|l refs Hl _ IH]; [done|].
  destruct (lookup_lt_is_Some_2 h l Hl) as [c Hc].
  change (omap (fun l => h !! l) (l :: refs))
    with (match h !! l with
          | Some y => y :: omap (fun l => h !! l) refs
          | None => omap (fun l => h !! l) refs
          end).
  rewrite Hc. cbn [length]. f_equal. exact IH.
Qed.

Lemma view_criteria_five h refs :
  Forall five h -> Forall five (view_criteria h refs).
Proof.
  intros H. apply Forall_forall. intros c Hc.
  rewrite Forall_forall in H. by apply H, elem_of_view_criteria with refs.
Qed.

(** C8.  In a session started on a slot whose templates were saved by this
    application, after any sequence of operations: every criterion object
    ever created has exactly five levels; the criteria in the editor and in
    the templates are such objects, all of them present; and no operation
    removes an object or changes its number of levels. *)
Theorem five_levels_invariant (id : string) (storage : gmap string string)
    (es : list event) :
  stored_five parse storage ->
  let a := run id storage es in
  Forall five (heap a) /\
  Forall five (view_criteria (heap a) (criteria a)) /\
  length (view_criteria (heap a) (criteria a)) = length (criteria a) /\
  Forall (fun t => Forall five (t_criteria t)) (view_templates a) /\
  (forall e l c, heap a !! l = Some c ->
     exists c', heap (step e a) !! l = Some c' /\
                length (levels c') = length (levels c)).
Proof.
  intros Hs a.
  assert (H : Forall five (heap a) /\ well_formed a).
  { unfold a, Editor.run.
    apply (foldl_step_invariant (fun a => Forall five (heap a) /\ well_formed a)).
    - intros e b [H5 Hwf]. split; [|by apply step_well_formed].
      eapply evolves_five; [apply step_evolves|done].
    - by apply mount_invariant. }
  destruct H as (H5 & Hc & Ht & Hp).
  split; [done|]. split; [by apply view_criteria_five|].
  split; [by apply view_criteria_length|]. split.
  - unfold view_templates. apply Forall_forall. intros t Ht'.
    apply list_elem_of_In, in_map_iff in Ht' as (o & <- & _). cbn.
    by apply view_criteria_five.
  - intros e l c Hl. by apply (proj1 (step_evolves e a)).
Qed.

Lemma synced_setTemplates ts a : synced stringify (setTemplates ts a).
Proof. unfold synced. cbn. apply lookup_insert_eq. Qed.

Lemma localStorage_load t a : localStorage (load t a) = localStorage a.
Proof. unfold load. by destruct (deep_copy (heap a) (o_criteria t)). Qed.

(** Only the slot of the templates is ever written. *)
Lemma step_other_keys e a k :
  k <> STORAGE_KEY -> localStorage (step e a) !! k = localStorage a !! k.
Proof.
  intros Hk. destruct e; cbn [Editor.step]; try reflexivity.
  - by case_match.
  - case_decide; [reflexivity|]. case_match; [by rewrite localStorage_load|done].
  - by case_match.
  - by case_match.
  - by case_match.
  - case_match; [|done]. case_match. by case_match.
  - by case_match.
  - cbn. by rewrite lookup_insert_ne.
  - case_match; [by rewrite localStorage_load|done].
  - case_match; [|done]. case_decide; cbn; by rewrite lookup_insert_ne.
Qed.

Lemma synced_mount id storage : synced stringify (mount id storage).
Proof.
  unfold Editor.mount.
  set (a0 := mkApp [new_criterion id] [EmptyString] [0%nat] [] EmptyString [] storage).
  assert (H0 : synced stringify (sync_effect a0)).
  { unfold synced. cbn. apply lookup_insert_eq. }
  destruct (storage !! STORAGE_KEY) as [[|c txt]|]; try exact H0.
  destruct (parse (String c txt)) as [ts|]; [|exact H0].
  destruct (alloc_templates ts (heap (sync_effect a0))) as [h os].
  apply synced_setTemplates.
Qed.

(** C7.  After each operation that changes the list of templates (the load
    at startup, saving a template, deleting a template) the slot
    [sailor_grading_templates] holds the serialization of the current list of
    templates; and no operation writes another slot. *)
Theorem storage_synced :
  (forall id storage, synced stringify (mount id storage)) /\
  (forall a id name now, synced stringify (step (SaveTemplate id name now) a)) /\
  (forall a k, is_Some (templates a !! k) ->
     synced stringify (step (DeleteTemplate k) a)) /\
  (forall a e k, k <> STORAGE_KEY ->
     localStorage (step e a) !! k = localStorage a !! k).
Proof.
  split; [|split; [|split]].
  - apply synced_mount.
  - intros a id name now. cbn [Editor.step].
    unfold synced. cbn. apply lookup_insert_eq.
  - intros a k [t Ht]. cbn [Editor.step]. rewrite Ht.
    case_decide; unfold synced; cbn; apply lookup_insert_eq.
  - intros a e k. apply step_other_keys.
Qed.

(** The load at startup brings back the templates of the slot. *)
Lemma view_templates_mount id storage c txt ts :
  storage !! STORAGE_KEY = Some (String c txt) -> parse (String c txt) = Some ts ->
  view_templates (mount id storage) = ts.
Proof.
  intros Hk Hp. unfold Editor.mount. rewrite Hk, Hp.
  pose proof (alloc_templates_view ts [new_criterion id] []) as Hv.
  cbn [heap Editor.sync_effect with_storage].
  destruct (alloc_templates ts [new_criterion id]) as [h os].
  cbn in Hv. by rewrite app_nil_r in Hv.
Qed.

(** What a handler does to the storage: nothing, or the effect. *)
Lemma step_storage e a :
  localStorage (step e a) = localStorage a \/
  localStorage (step e a) =
    <[STORAGE_KEY := stringify (view_templates (step e a))]> (localStorage a).
Proof.
  destruct e; cbn [Editor.step]; try (by left).
  - left. by case_match.
  - left. case_decide; [reflexivity|]. case_match; [by rewrite localStorage_load|done].
  - left. by case_match.
  - left. by case_match.
  - left. by case_match.
  - left. case_match; [|done]. case_match. by case_match.
  - left. by case_match.
  - by right.
  - left. case_match; [by rewrite localStorage_load|done].
  - case_match; [|by left]. right. by case_decide.
Qed.

(** The templates that the application leaves in the slot are those a later
    session may start from: when [parse] reads back what [stringify] wrote,
    a session started on templates of five levels leaves templates of five
    levels. *)
Lemma stored_five_run id storage es :
  (forall ts, parse (stringify ts) = Some ts) ->
  stored_five parse storage ->
  stored_five parse (localStorage (run id storage es)).
Proof.
  intros Hrt Hs.
  assert (Hsync : forall a, Forall five (heap a) -> synced stringify a ->
            stored_five parse (localStorage a)).
  { intros a H5 Hk' txt ts Hk Hp. unfold synced in Hk'.
    rewrite Hk' in Hk. injection Hk as <-.
    rewrite Hrt in Hp. injection Hp as <-.
    unfold view_templates. apply Forall_forall. intros t Ht.
    apply list_elem_of_In, in_map_iff in Ht as (o & <- & _).
    by apply view_criteria_five. }
  cut (Forall five (heap (run id storage es)) /\ well_formed (run id storage es) /\
       stored_five parse (localStorage (run id storage es))); [tauto|].
  unfold Editor.run.
  apply (foldl_step_invariant
           (fun a => Forall five (heap a) /\ well_formed a /\
                     stored_five parse (localStorage a))).
  - intros e a (H5 & Hwf & Hst).
    assert (H5' : Forall five (heap (step e a))).
    { eapply evolves_five; [apply step_evolves|done]. }
    split; [done|]. split; [by apply step_well_formed|].
    destruct (step_storage e a) as [E|E]; [by rewrite E|].
    apply Hsync; [done|]. unfold synced. rewrite E. apply lookup_insert_eq.
  - destruct (mount_invariant id storage Hs) as [H5 Hwf].
    split; [done|]. split; [done|]. apply Hsync; [done|apply synced_mount].
Qed.

End Facts.

Lemma five_levels_invariant_witness :
  Forall five (heap (session [AddCriterion "c-1"; EditScore 1 0 95;
                              SaveTemplate "t-1" "essay" 0; LoadTemplate 0])).
Proof.
  refine (proj1 (five_levels_invariant count_templates no_parse "c-0" ∅ _ _)).
  intros txt ts H. rewrite lookup_empty in H. discriminate H.
Defined.

Lemma storage_synced_witness :
  synced count_templates
    (Editor.step count_templates (DeleteTemplate 0)
       (session [SaveTemplate "t-1" "essay" 0])).
Proof.
  refine (proj1 (proj2 (proj2 (storage_synced count_templates no_parse))) _ 0%nat _).
  eexists. reflexivity.
Defined.

(** A saved template keeps the objects of the editor: an edit made after the
    save changes the template in memory, while the slot, written at the save,
    stays as it was until the list of templates changes again. *)
Example edit_after_save :
  let a1 := session [SaveTemplate "t-1" "essay" 0] in
  let a2 := Editor.step count_templates (EditFocus 0 "clarity") a1 in
  localStorage a2 = localStorage a1 /\
  map t_criteria (view_templates a1) = [[mkCriterion "c-0" EmptyString DEFAULT_LEVELS]] /\
  map t_criteria (view_templates a2) = [[mkCriterion "c-0" "clarity" DEFAULT_LEVELS]].
Proof. repeat split. Qed.

End EditorFacts.

(** * Further properties *)

(** ** Thresholds *)

Module ThresholdFacts.
Import ThresholdSpec.

Abbreviation five_levels := (fun c : Criterion => length (levels c) = 5%nat).

Lemma levels_forEach_not_five (c : Criterion) (a0 a1 a2 a3 a4 : Z) :
  length (levels c) <> 5%nat ->
  (l0 ← levels c !! 0%nat;
   levels_forEach (levels c) (levels c) 0 [a0; a1; a2; a3; a4] ≫= (fun _ => Some l0))
  = None.
Proof.
  destruct (levels c) as [|l0 [|l1 [|l2 [|l3 [|l4 [|l5 r]]]]]]; cbn [length]; intros H;
    try reflexivity.
  lia.
Qed.

Lemma criteria_forEach_not_five (cs : list Criterion) : forall a0 a1 a2 a3 a4 m,
  Exists (fun c => length (levels c) <> 5%nat) cs ->
  criteria_forEach cs ([a0; a1; a2; a3; a4], m) = None.
Proof.
  induction cs as [|c cs IH]; intros a0 a1 a2 a3 a4 m H; [by inversion H|].
  destruct (decide (length (levels c) = 5%nat)) as [Hc|Hc].
  - cbn [criteria_forEach fst snd].
    rewrite (levels_forEach_five c _ _ _ _ _ Hc).
    destruct (five_levels_inv c Hc) as (l0 & l1 & l2 & l3 & l4 & E).
    rewrite E. cbn [lookup list_lookup mbind option_bind].
    apply IH. inversion H; [done|assumption].
  - pose proof (levels_forEach_not_five c a0 a1 a2 a3 a4 Hc) as Hn.
    cbn [criteria_forEach fst snd].
    destruct (levels c !! 0%nat) as [l0|]; [|reflexivity]. cbn in Hn |- *.
    destruct (levels_forEach (levels c) (levels c) 0 [a0; a1; a2; a3; a4]);
      [discriminate Hn|reflexivity].
Qed.

Lemma thresholds_not_five (cs : list Criterion) :
  Exists (fun c => length (levels c) <> 5%nat) cs -> totalScoreThresholds cs = None.
Proof.
  intros H. unfold totalScoreThresholds. by rewrite criteria_forEach_not_five.
Qed.

Lemma five_or_not (cs : list Criterion) :
  Forall five_levels cs \/ Exists (fun c => length (levels c) <> 5%nat) cs.
Proof.
  induction cs as [|c cs [IH|IH]].
  - by left.
  - destruct (decide (length (levels c) = 5%nat)).
    + left. by constructor.
    + right. by left.
  - right. by right.
Qed.

(** X1.  The derivation of the thresholds throws exactly when some criterion
    does not have five levels. *)
Theorem thresholds_throw_iff (cs : list Criterion) :
  totalScoreThresholds cs = None <->
  Exists (fun c => length (levels c) <> 5%nat) cs.
Proof.
  split.
  - intros H. destruct (five_or_not cs) as [H5|He]; [|done].
    rewrite (totalScoreThresholds_five cs H5) in H. discriminate H.
  - apply thresholds_not_five.
Qed.

Lemma thresholds_throw_iff_witness :
  totalScoreThresholds
    [default_criterion "a"; mkCriterion "b" EmptyString (take 3 DEFAULT_LEVELS)] = None.
Proof.
  apply (proj2 (thresholds_throw_iff _)). right. left. cbn. lia.
Defined.

(** The label of a band is the base name of the default level of its rank,
    and is not the sentinel. *)
Lemma threshold_label_of_index (cs : list Criterion) (i : nat) (x : Threshold) :
  [ mkThreshold "超級優異" (spec_floor cs 0) (spec_ceiling cs 0);
    mkThreshold "表現良好" (spec_floor cs 1) (spec_ceiling cs 1);
    mkThreshold "已經做到" (spec_floor cs 2) (spec_ceiling cs 2);
    mkThreshold "還要加油" (spec_floor cs 3) (spec_ceiling cs 3);
    mkThreshold "努力改進" (spec_floor cs 4) (spec_ceiling cs 4) ] !! i = Some x ->
  exists d, DEFAULT_LEVELS !! i = Some d /\
            t_label x = base_label (label d) /\
            t_label x <> UNDETERMINED.
Proof.
  intros Hi.
  do 5 (destruct i as [|i];
        [injection Hi as <-; eexists; split; [reflexivity|]; by split|]).
  discriminate Hi.
Qed.

Lemma sumZ_le {A} (f g : A -> Z) (l : list A) :
  Forall (fun x => f x <= g x) l -> sumZ (map f l) <= sumZ (map g l).
Proof.
  induction 1 as [|x l Hx _ IH]; cbn [map sumZ foldr]; [lia|].
  unfold sumZ in IH. lia.
Qed.

Lemma spec_floor_descending (cs : list Criterion) (i : nat) :
  Forall five_levels cs -> Forall descending cs -> (i <= 2)%nat ->
  spec_floor cs (S i) <= spec_floor cs i.
Proof.
  intros H5 Hd Hi. unfold spec_floor. apply sumZ_le.
  apply Forall_forall. intros c Hc.
  rewrite Forall_forall in H5, Hd. specialize (H5 c Hc). specialize (Hd c Hc).
  unfold spec_level_floor.
  destruct (lookup_lt_is_Some_2 (levels c) (S i)) as [li Hli]; [lia|].
  destruct (lookup_lt_is_Some_2 (levels c) (S (S i))) as [lj Hlj]; [lia|].
  rewrite Hli, Hlj. specialize (Hd (S i) li lj). cbn in Hd.
  assert (score lj <= score li) by (apply Hd; [lia|done..]). lia.
Qed.

(** Without that order two bands may overlap, and the higher one wins. *)
Example overlapping_bands :
  totalScoreThresholds
    [mkCriterion "a" EmptyString
       [mkLevel "l0" 100 EmptyString; mkLevel "l1" 9 EmptyString;
        mkLevel "l2" 49 EmptyString; mkLevel "l3" 19 EmptyString;
        mkLevel "l4" 5 EmptyString]] ≫=
    (fun ths => Some (map (in_band (inject_Z 30)) ths,
                      getLevelLabelFromScore ths (inject_Z 30)))
  = Some ([true; false; true; false; false], "超級優異").
Proof. reflexivity. Qed.

Lemma sumZ_perm (l l' : list Z) : l ≡ₚ l' -> sumZ l = sumZ l'.
Proof.
  induction 1 as [|x l l' _ IH|x y l|l1 l2 l3 _ IH1 _ IH2]; cbn [sumZ foldr] in *;
    [done|unfold sumZ in IH; lia|lia|congruence].
Qed.

Lemma spec_floor_perm cs cs' i : cs ≡ₚ cs' -> spec_floor cs i = spec_floor cs' i.
Proof. intros H. unfold spec_floor. apply sumZ_perm. by apply Permutation_map. Qed.

Lemma spec_ceiling_perm cs cs' i : cs ≡ₚ cs' -> spec_ceiling cs i = spec_ceiling cs' i.
Proof.
  intros H. destruct i; cbn [spec_ceiling].
  - apply sumZ_perm. by apply Permutation_map.
  - by rewrite (spec_floor_perm cs cs').
Qed.

(** On integers the thresholds do not depend on the order of the
    criteria. *)
Lemma thresholds_permutation_integers (cs cs' : list Criterion) :
  cs ≡ₚ cs' -> totalScoreThresholds cs = totalScoreThresholds cs'.
Proof.
  intros H. destruct (five_or_not cs) as [H5|He].
  - assert (H5' : Forall five_levels cs') by (by rewrite <- H).
    rewrite (totalScoreThresholds_five cs H5), (totalScoreThresholds_five cs' H5').
    by rewrite !(spec_floor_perm cs cs'), !(spec_ceiling_perm cs cs').
  - assert (He' : Exists (fun c => length (levels c) <> 5%nat) cs') by (by rewrite <- H).
    by rewrite (thresholds_not_five cs He), (thresholds_not_five cs' He').
Qed.

End ThresholdFacts.

(** ** Thresholds of rubrics with integer scores, on numbers *)

Module BandFacts.
Import ThresholdSpec ThresholdFacts Number NumberFacts DoubleSpec Integral DoubleFacts.

Lemma integer_score_bracketed (cs : list Criterion) (z : Z) :
  Forall five_levels cs -> 0 <= z <= spec_ceiling cs 0 ->
  exists i, (i < 5)%nat /\ spec_floor cs i <= z <= spec_ceiling cs i.
Proof.
  intros H [Hlo Hhi]. pose proof (spec_floor_bottom cs H) as H4.
  destruct (Z_le_gt_dec (spec_floor cs 0) z);
    [|destruct (Z_le_gt_dec (spec_floor cs 1) z);
      [|destruct (Z_le_gt_dec (spec_floor cs 2) z);
        [|destruct (Z_le_gt_dec (spec_floor cs 3) z)]]].
  - exists 0%nat. cbn [spec_ceiling] in *. lia.
  - exists 1%nat. cbn [spec_ceiling] in *. lia.
  - exists 2%nat. cbn [spec_ceiling] in *. lia.
  - exists 3%nat. cbn [spec_ceiling] in *. lia.
  - exists 4%nat. cbn [spec_ceiling] in *. lia.
Qed.

(** X2.  For criteria of five levels with integer scores and a safe weight,
    whatever the order of the level scores, an integer total from zero to the
    sum of the top scores is given the label of one of the five levels, never
    the sentinel. *)
Theorem integer_score_gets_level (cs : list Criterion) (z : Z) :
  Forall five_levels cs -> safe_rubric cs ->
  0 <= z <= spec_ceiling cs 0 ->
  exists ths i lbl,
    Double.totalScoreThresholds (map criterion cs) = Some ths /\
    rank_label i = Some lbl /\
    Double.getLevelLabelFromScore ths (of_Z z) = lbl /\
    lbl <> UNDETERMINED.
Proof.
  intros H5 Hs Hz.
  pose proof (thresholds_five _ (Forall_five_criterion _ H5)) as Hths.
  match type of Hths with _ = Some ?l => set (ths := l) in * end.
  exists ths.
  destruct (classified ths (of_Z z)) as [(i & t & Hi & Hb & Hlt & E)|[Hall E]].
  - exists i, (Double.t_label t).
    destruct (label_of_index _ i t Hi) as (_ & _ & Hl & Hu).
    split; [exact Hths|]. by split.
  - exfalso.
    destruct (integer_score_bracketed cs z H5 Hz) as (i & Hi & Hb).
    destruct (lookup_lt_is_Some_2 ths i) as (t & Ht); [exact Hi|].
    apply (Hall t).
    + apply list_elem_of_In. by eapply list_elem_of_lookup_2.
    + destruct (label_of_index _ i t Ht) as (Hf & Hc & _).
      pose proof (safe_ceiling cs 0 Hs) as S0.
      unfold bracketed.
      rewrite Hf, Hc, floors_integral, ceilings_integral, !leb_of_Z;
        auto using safe_floor, safe_ceiling.
      * rewrite !Z.leb_le. done.
      * unfold safe in *. lia.
      * unfold safe in *. lia.
Qed.

Lemma integer_score_gets_level_witness :
  exists ths,
    Double.totalScoreThresholds (map criterion [default_criterion "a"]) = Some ths /\
    Double.getLevelLabelFromScore ths (of_Z 0) <> UNDETERMINED.
Proof.
  destruct (integer_score_gets_level [default_criterion "a"] 0)
    as (ths & i & lbl & H1 & _ & H2 & H3).
  - repeat constructor.
  - by vm_compute.
  - vm_compute. split; discriminate.
  - exists ths. split; [exact H1|]. by rewrite H2.
Defined.

Lemma bands_separated (cs : list Criterion) (i j : nat) :
  Forall five_levels cs -> Forall descending cs -> (i < j)%nat -> (j <= 4)%nat ->
  spec_ceiling cs j < spec_floor cs i.
Proof.
  intros H5 Hd Hij Hj.
  pose proof (spec_floor_descending cs 0 H5 Hd) as F0.
  pose proof (spec_floor_descending cs 1 H5 Hd) as F1.
  pose proof (spec_floor_descending cs 2 H5 Hd) as F2.
  destruct i as [|[|[|[|i]]]]; destruct j as [|[|[|[|[|j]]]]]; try lia;
    cbn [spec_ceiling]; lia.
Qed.

(** X3.  For criteria of five levels with integer scores and a safe weight:
    when in every criterion the scores of the four lower levels do not
    increase, the bands do not overlap: a score, integer or not, lies in at
    most one band, and the label returned for a score that lies in a band is
    the label of that band. *)
Theorem descending_bands_unique (cs : list Criterion) :
  Forall five_levels cs -> Forall descending cs -> safe_rubric cs ->
  exists ths,
    Double.totalScoreThresholds (map criterion cs) = Some ths /\
    forall sc i t, ths !! i = Some t -> bracketed sc t ->
      Double.getLevelLabelFromScore ths sc = Double.t_label t /\
      forall j t', ths !! j = Some t' -> bracketed sc t' -> j = i.
Proof.
  intros H5 Hd Hs.
  pose proof (thresholds_five _ (Forall_five_criterion _ H5)) as Hths.
  match type of Hths with _ = Some ?l => set (ths := l) in * end.
  exists ths. split; [exact Hths|].
  assert (Hsep : forall sc i j ti tj, (i < j)%nat -> ths !! i = Some ti ->
                 ths !! j = Some tj -> bracketed sc ti -> bracketed sc tj -> False).
  { intros sc i j ti tj Hij Hi Hj [Hlo _] [_ Hhi].
    assert (Hj5 : (j < 5)%nat) by (by apply lookup_lt_Some in Hj).
    destruct (label_of_index _ i ti Hi) as (Hf & _).
    destruct (label_of_index _ j tj Hj) as (_ & Hc & _).
    pose proof (leb_trans _ _ _ Hlo Hhi) as H.
    rewrite Hf, Hc, floors_integral, ceilings_integral, leb_of_Z in H;
      auto using safe_floor, safe_ceiling.
    apply Z.leb_le in H.
    pose proof (bands_separated cs i j H5 Hd Hij). lia. }
  assert (Huniq : forall sc i j ti tj, ths !! i = Some ti -> ths !! j = Some tj ->
                  bracketed sc ti -> bracketed sc tj -> i = j).
  { intros sc i j ti tj Hi Hj Bi Bj.
    destruct (Nat.lt_trichotomy i j) as [Hlt|[->|Hlt]]; [|done|].
    - destruct (Hsep sc i j ti tj Hlt Hi Hj Bi Bj).
    - destruct (Hsep sc j i tj ti Hlt Hj Hi Bj Bi). }
  intros sc i t Hi Hb. split.
  - destruct (classified ths sc) as [(k & x & Hk & Hx & _ & ->)|[Hall _]].
    + assert (k = i) as -> by (by eapply Huniq). congruence.
    + destruct (Hall t); [|done].
      apply list_elem_of_In. by eapply list_elem_of_lookup_2.
  - intros j t' Hj Hb'. by eapply Huniq.
Qed.

Lemma default_descending : descending (default_criterion "a").
Proof.
  intros i li lj Hi Hli Hlj.
  destruct i as [|[|[|[|[|i]]]]]; try lia;
    try discriminate Hli; try discriminate Hlj;
    injection Hli as <-; injection Hlj as <-; cbn; lia.
Qed.

Lemma descending_bands_unique_witness :
  exists ths,
    Double.totalScoreThresholds (map criterion [default_criterion "a"]) = Some ths.
Proof.
  destruct (descending_bands_unique [default_criterion "a"]) as (ths & H & _).
  - repeat constructor.
  - repeat constructor. apply default_descending.
  - by vm_compute.
  - exists ths. exact H.
Defined.

(** Beyond the safe integers the order of the scores no longer separates
    the bands: with the descending scores 2 ^ 54, 2 ^ 54, 2 ^ 54, 0 and 0
    the score 2 ^ 54 lies in the three upper bands. *)
Example descending_overlap_unsafe :
  Double.totalScoreThresholds
    (map criterion
       [mkCriterion "a" EmptyString
          [mkLevel "l0" (2 ^ 54) EmptyString; mkLevel "l1" (2 ^ 54) EmptyString;
           mkLevel "l2" (2 ^ 54) EmptyString; mkLevel "l3" 0 EmptyString;
           mkLevel "l4" 0 EmptyString]]) ≫=
    (fun ths => Some (map (Double.in_band (of_Z (2 ^ 54))) ths))
  = Some [true; true; true; false; false].
Proof. reflexivity. Qed.

Lemma double_levels_forEach_not_five (c : Double.Criterion) (a0 a1 a2 a3 a4 : number) :
  ~ five c ->
  (l0 ← Double.levels c !! 0%nat;
   Double.levels_forEach (Double.levels c) (Double.levels c) 0 [a0; a1; a2; a3; a4]
     ≫= (fun _ => Some l0))
  = None.
Proof.
  unfold five.
  destruct (Double.levels c) as [|l0 [|l1 [|l2 [|l3 [|l4 [|l5 r]]]]]]; cbn [length];
    intros H; try reflexivity.
  lia.
Qed.

Lemma double_criteria_forEach_not_five (cs : list Double.Criterion) :
  forall a0 a1 a2 a3 a4 m,
  Exists (fun c => ~ five c) cs ->
  Double.criteria_forEach cs ([a0; a1; a2; a3; a4], m) = None.
Proof.
  induction cs as [|c cs IH]; intros a0 a1 a2 a3 a4 m H; [by inversion H|].
  destruct (decide (length (Double.levels c) = 5%nat)) as [Hc|Hc].
  - cbn [Double.criteria_forEach fst snd].
    rewrite (double_levels_forEach_five c _ _ _ _ _ Hc).
    destruct (five_inv c Hc) as (l0 & l1 & l2 & l3 & l4 & E).
    rewrite E. cbn [lookup list_lookup mbind option_bind].
    apply IH. inversion H; [done|assumption].
  - pose proof (double_levels_forEach_not_five c a0 a1 a2 a3 a4 Hc) as Hn.
    cbn [Double.criteria_forEach fst snd].
    destruct (Double.levels c !! 0%nat) as [l0|]; [|reflexivity]. cbn in Hn |- *.
    destruct (Double.levels_forEach (Double.levels c) (Double.levels c) 0
                [a0; a1; a2; a3; a4]);
      [discriminate Hn|reflexivity].
Qed.

Lemma double_thresholds_not_five (cs : list Criterion) :
  Exists (fun c => length (levels c) <> 5%nat) cs ->
  Double.totalScoreThresholds (map criterion cs) = None.
Proof.
  intros H. unfold Double.totalScoreThresholds.
  rewrite double_criteria_forEach_not_five; [done|].
  apply Exists_exists in H as (c & Hc & Hn). apply Exists_exists.
  exists (criterion c). split; [by apply list_elem_of_fmap_2|].
  unfold five, criterion. cbn. by rewrite length_map.
Qed.

Lemma weight_perm cs cs' : cs ≡ₚ cs' -> weight cs = weight cs'.
Proof. intros H. unfold weight. apply sumZ_perm. by apply Permutation_map. Qed.

(** X4.  The thresholds do not depend on the order of the criteria, as long
    as every sum is exact: on a rubric with integer scores that has a
    criterion without five levels, or whose weight is safe. *)
Theorem thresholds_permutation (cs cs' : list Criterion) :
  cs ≡ₚ cs' ->
  (Forall five_levels cs -> safe_rubric cs) ->
  Double.totalScoreThresholds (map criterion cs) =
  Double.totalScoreThresholds (map criterion cs').
Proof.
  intros H Hs. destruct (five_or_not cs) as [H5|He].
  - assert (H5' : Forall five_levels cs') by (by rewrite <- H).
    specialize (Hs H5).
    assert (Hs' : safe_rubric cs').
    { unfold safe_rubric. by rewrite <- (weight_perm cs cs'). }
    rewrite (thresholds_refine cs H5 Hs), (thresholds_refine cs' H5' Hs').
    by rewrite (thresholds_permutation_integers cs cs').
  - assert (He' : Exists (fun c => length (levels c) <> 5%nat) cs') by (by rewrite <- H).
    by rewrite (double_thresholds_not_five cs He), (double_thresholds_not_five cs' He').
Qed.

Lemma thresholds_permutation_witness :
  Double.totalScoreThresholds (map criterion [default_criterion "a"; default_criterion "b"]) =
  Double.totalScoreThresholds (map criterion [default_criterion "b"; default_criterion "a"]).
Proof.
  apply thresholds_permutation; [apply perm_swap|]. intros _. by vm_compute.
Defined.

(** Beyond the safe integers the sums depend on the order in which they are
    taken. *)
Example order_matters_unsafe :
  let cA := mkCriterion "a" EmptyString
              [mkLevel "l0" 0 EmptyString; mkLevel "l1" (2 ^ 53 - 1) EmptyString;
               mkLevel "l2" 0 EmptyString; mkLevel "l3" 0 EmptyString;
               mkLevel "l4" 0 EmptyString] in
  let cB := mkCriterion "b" EmptyString
              [mkLevel "l0" 0 EmptyString; mkLevel "l1" 0 EmptyString;
               mkLevel "l2" 0 EmptyString; mkLevel "l3" 0 EmptyString;
               mkLevel "l4" 0 EmptyString] in
  let top_floor (cs : list Criterion) : option Z :=
    ths ← Double.totalScoreThresholds (map criterion cs);
    t ← ths !! 0%nat;
    to_Z (Double.floor t) in
  (top_floor [cA; cB; cB], top_floor [cB; cB; cA]) = (Some (2 ^ 53), Some (2 ^ 53 + 2)).
Proof. reflexivity. Qed.

End BandFacts.

(** ** The badge of a level *)

Module RankFacts.
Import Rank ThresholdFacts.

Lemma rank_of_index (cs : list Criterion) (i : nat) (x : Threshold) :
  [ mkThreshold "超級優異" (spec_floor cs 0) (spec_ceiling cs 0);
    mkThreshold "表現良好" (spec_floor cs 1) (spec_ceiling cs 1);
    mkThreshold "已經做到" (spec_floor cs 2) (spec_ceiling cs 2);
    mkThreshold "還要加油" (spec_floor cs 3) (spec_ceiling cs 3);
    mkThreshold "努力改進" (spec_floor cs 4) (spec_ceiling cs 4) ] !! i = Some x ->
  exists style,
    rank_index (t_label x) = Z.of_nat i /\
    RANK_STYLES !! i = Some style /\
    rank_style (t_label x) = Some style.
Proof.
  intros Hi.
  do 5 (destruct i as [|i];
        [injection Hi as <-; eexists; split; [reflexivity|]; by split|]).
  discriminate Hi.
Qed.

(** X5.  The label stored for a score selects the style of its own band:
    the label of the band of rank [i] gets the [i]-th style.  The sentinel
    matches no default label, the index is then [-1], and the badge gets no
    style at all. *)
Theorem badge_of_score (cs : list Criterion) (sc : Q) :
  Forall five_levels cs ->
  exists ths,
    totalScoreThresholds cs = Some ths /\
    let lbl := getLevelLabelFromScore ths sc in
    (exists i t style, ths !! i = Some t /\ bracketed sc t /\ lbl = t_label t /\
       rank_index lbl = Z.of_nat i /\
       RANK_STYLES !! i = Some style /\ rank_style lbl = Some style)
    \/ ((forall t, In t ths -> ~ bracketed sc t) /\
        lbl = UNDETERMINED /\ rank_index lbl = -1 /\ rank_style lbl = None).
Proof.
  intros H. eexists. split; [apply (totalScoreThresholds_five _ H)|].
  set (ths := [_; _; _; _; _]). unfold getLevelLabelFromScore.
  destruct (find_first (in_band sc) ths) as [(i & x & Hi & Hx & _ & ->)|[Hall ->]].
  - left. apply in_band_bracketed in Hx.
    destruct (rank_of_index cs i x Hi) as (style & H1 & H2 & H3).
    by exists i, x, style.
  - right. split; [|by repeat split].
    intros t Ht. apply in_band_not_bracketed. by apply Hall.
Qed.

Lemma badge_of_score_witness :
  exists ths, totalScoreThresholds [default_criterion "a"] = Some ths.
Proof.
  destruct (badge_of_score [default_criterion "a"] (inject_Z 85)) as (ths & H & _).
  - repeat constructor.
  - exists ths. exact H.
Defined.

End RankFacts.

(** ** Batch grading, the whole run *)

Module BatchFacts.
Import Grading GradingSpec BatchSpec Samples.

Section Facts.

Variable api : nat -> Student -> list string -> list Criterion -> Exn + GradingResult.
Variable tasks : list string.
Variable criteria : list Criterion.
Variable thresholds : list Threshold.

Abbreviation loop := (loop api tasks criteria thresholds).
Abbreviation iteration := (iteration api tasks criteria thresholds).
Abbreviation startBatchGrading := (startBatchGrading api tasks criteria thresholds).
Abbreviation settle := (settle api tasks criteria thresholds).
Abbreviation settle_all := (settle_all api tasks criteria thresholds).
Abbreviation outcome := (outcome api tasks criteria thresholds).
Abbreviation graded := (graded api tasks criteria thresholds).
Abbreviation any_failure := (any_failure api tasks criteria).

Lemma students_run st :
  students (startBatchGrading st) =
  map (settle_all 0 (List.filter is_target (students st))) (students st).
Proof.
  unfold Grading.startBatchGrading.
  destruct (List.filter is_target (students st)) as [|t ts] eqn:E.
  - cbn. by rewrite map_id.
  - cbn [students setIsEvaluating].
    by rewrite (GradingFacts.students_loop api tasks criteria thresholds).
Qed.

Lemma settle_self i x : settle i x x = outcome i x.
Proof.
  unfold BatchSpec.outcome.
  destruct (api i x tasks criteria) as [e|res] eqn:E.
  - by apply (GradingFacts.settle_failure api tasks criteria thresholds) with e.
  - by apply (GradingFacts.settle_success api tasks criteria thresholds).
Qed.

Lemma outcome_id i x : s_id (outcome i x) = s_id x.
Proof. unfold BatchSpec.outcome. by destruct (api i x tasks criteria). Qed.

Lemma filter_ids_subset (l : list Student) id :
  In id (map s_id (List.filter is_target l)) -> In id (map s_id l).
Proof.
  rewrite !in_map_iff. intros (x & <- & Hx). exists x. split; [done|].
  by apply filter_In in Hx as [Hx _].
Qed.

Lemma graded_settle (l : list Student) : forall i,
  NoDup (map s_id l) ->
  map (settle_all i (List.filter is_target l)) l = graded i l.
Proof.
  induction l as [|x r IH]; intros i Hnd; [done|].
  cbn [map] in Hnd. apply NoDup_cons in Hnd as [Hx Hnd].
  rewrite list_elem_of_In in Hx.
  cbn [List.filter BatchSpec.graded map]. destruct (is_target x) eqn:Ht.
  - cbn [Grading.settle_all]. rewrite settle_self. f_equal.
    + apply (GradingFacts.settle_all_other api tasks criteria thresholds).
      rewrite outcome_id. intros Hin. by apply Hx, filter_ids_subset.
    + rewrite <- IH by done. apply map_ext_in. intros y Hy. f_equal.
      apply (GradingFacts.settle_other api tasks criteria thresholds).
      intros E. apply Hx. rewrite <- E. by apply in_map.
  - f_equal; [|by apply IH].
    apply (GradingFacts.settle_all_other api tasks criteria thresholds).
    intros Hin. by apply Hx, filter_ids_subset.
Qed.

(** X6.  With distinct identifiers, a run leaves the list of students that
    one reads off the list before it, student by student: a target becomes
    the outcome of its own call, numbered by its rank among the targets, and
    every other student is kept as it is. *)
Theorem run_graded (st : State) :
  NoDup (map s_id (students st)) ->
  students (startBatchGrading st) = graded 0 (students st).
Proof. intros H. rewrite students_run. by apply graded_settle. Qed.

Abbreviation failures := (failures api tasks criteria).

Lemma targets_graded (l : list Student) : forall i,
  List.filter is_target (graded i l) = failures i (List.filter is_target l).
Proof.
  induction l as [|x r IH]; intros i; [done|].
  cbn [BatchSpec.graded List.filter]. destruct (is_target x) eqn:Ht.
  - cbn [List.filter BatchSpec.failures]. unfold BatchSpec.outcome.
    destruct (api i x tasks criteria) as [e|res].
    + replace (is_target (failed x)) with true; [by rewrite IH|].
      unfold is_target in *. cbn. symmetry.
      by apply andb_true_iff in Ht as [_ ->].
    + cbn [List.filter]. unfold is_target at 1. cbn. apply IH.
  - cbn [List.filter]. rewrite Ht. apply IH.
Qed.

Lemma failures_none (targets : list Student) : forall i,
  any_failure i targets = false -> failures i targets = [].
Proof.
  induction targets as [|s r IH]; intros i H; [done|].
  cbn [BatchSpec.any_failure BatchSpec.failures] in *.
  destruct (api i s tasks criteria); [discriminate H|by apply IH].
Qed.

(** X7.  With distinct identifiers, the students that the next run would
    call are the targets of this run whose call failed, in the same order and
    in the error status: a student whose call succeeded is never called
    again.  A run in which no call failed is therefore followed by a run that
    does nothing, whatever the service, tasks and rubric then are. *)
Theorem rerun_targets (st : State) :
  NoDup (map s_id (students st)) ->
  List.filter is_target (students (startBatchGrading st)) =
    failures 0 (List.filter is_target (students st)) /\
  (any_failure 0 (List.filter is_target (students st)) = false ->
   forall api' tasks' criteria' thresholds',
     Grading.startBatchGrading api' tasks' criteria' thresholds' (startBatchGrading st)
     = startBatchGrading st).
Proof.
  intros Hnd.
  assert (E : List.filter is_target (students (startBatchGrading st)) =
              failures 0 (List.filter is_target (students st))).
  { rewrite students_run, graded_settle by done. apply targets_graded. }
  split; [exact E|].
  intros Hno api' tasks' criteria' thresholds'.
  rewrite (failures_none _ 0 Hno) in E.
  unfold Grading.startBatchGrading at 1. by rewrite E.
Qed.

Lemma settle_fields i s x :
  s_id (settle i s x) = s_id x /\ name (settle i s x) = name x /\
  contents (settle i s x) = contents x.
Proof.
  unfold Grading.settle, mark_done, mark_error, mark_loading.
  destruct (api i s tasks criteria); repeat case_decide; by repeat split.
Qed.

Lemma settle_all_fields targets : forall i x,
  s_id (settle_all i targets x) = s_id x /\ name (settle_all i targets x) = name x /\
  contents (settle_all i targets x) = contents x.
Proof.
  induction targets as [|s r IH]; intros i x; cbn [Grading.settle_all]; [done|].
  destruct (IH (S i) (settle i s x)) as (-> & -> & ->). apply settle_fields.
Qed.

(** X8.  A run neither adds, removes nor reorders students, and never
    changes an identifier, a name or an answer. *)
Theorem run_keeps_rows (st : State) :
  map s_id (students (startBatchGrading st)) = map s_id (students st) /\
  map name (students (startBatchGrading st)) = map name (students st) /\
  map contents (students (startBatchGrading st)) = map contents (students st).
Proof.
  rewrite students_run, !map_map.
  repeat split; apply map_ext; intros x; apply settle_all_fields.
Qed.




Lemma errorToast_loop_eq targets : forall i st,
  errorToast (loop i targets st) =
  if any_failure i targets then Some TOAST_MSG else errorToast st.
Proof.
  induction targets as [|s r IH]; intros i st;
    cbn [Grading.loop BatchSpec.any_failure]; [done|].
  destruct (api i s tasks criteria) as [e|res] eqn:E.
  - apply (GradingFacts.errorToast_loop api tasks criteria thresholds).
    unfold Grading.iteration. by rewrite E.
  - rewrite IH. unfold Grading.iteration. by rewrite E.
Qed.

(** X10.  A run raises the toast exactly when one of its calls fails, and
    never clears it: without a failure the toast is what it was before the
    run. *)
Theorem run_toast (st : State) :
  errorToast (startBatchGrading st) =
  if any_failure 0 (List.filter is_target (students st))
  then Some TOAST_MSG else errorToast st.
Proof.
  unfold Grading.startBatchGrading.
  destruct (List.filter is_target (students st)) as [|t ts] eqn:E; [done|].
  cbn [errorToast setIsEvaluating]. by rewrite errorToast_loop_eq.
Qed.

Lemma blank_replicate n :
  existsb (fun c => negb (Str.blank c)) (replicate n EmptyString) = false.
Proof. induction n as [|n IH]; [done|]. cbn. exact IH. Qed.

(** X11.  A student just added has only empty answers and is no target:
    adding a student changes nothing to the calls of the next run. *)
Theorem added_student_not_called (st : State) (id : string) (tks : list string) :
  calls (startBatchGrading (setStudents (Table.addStudent id tks) st)) =
  calls (startBatchGrading st).
Proof.
  rewrite !(GradingFacts.calls_startBatchGrading api tasks criteria thresholds).
  cbn [students calls setStudents]. unfold Table.addStudent.
  rewrite List.filter_app. cbn [List.filter].
  unfold is_target at 2. cbn [Table.new_student contents status is_done negb andb].
  rewrite blank_replicate. by rewrite app_nil_r.
Qed.

End Facts.

Lemma rerun_targets_witness :
  List.filter is_target
    (students (Grading.startBatchGrading fails_first [] [] [] two_students)) =
  [failed alice].
Proof.
  refine (proj1 (rerun_targets fails_first [] [] [] two_students _)).
  apply (bool_decide_unpack _). vm_compute. exact I.
Defined.


Lemma run_graded_witness :
  students (Grading.startBatchGrading fails_first [] [] [] two_students) =
  BatchSpec.graded fails_first [] [] [] 0 [alice; bob].
Proof.
  apply (run_graded fails_first [] [] [] two_students).
  apply (bool_decide_unpack _). vm_compute. exact I.
Defined.

End BatchFacts.

(** ** CSV import on any text, and the quoting of the export *)

Module ImportFacts.
Import Str StrFacts CSV CSVCount Samples.

Lemma split_nonempty c s : split (of_char c) s <> [].
Proof.
  induction s as [|d s IH]; [done|].
  destruct (ascii_dec c d) as [->|Hd].
  - by rewrite split_sep.
  - rewrite split_other by done. by destruct (split (of_char c) s).
Qed.

Lemma length_split c s : length (split (of_char c) s) = S (count c s).
Proof.
  induction s as [|d s IH]; [done|]. cbn [count].
  destruct (ascii_dec c d) as [->|Hd].
  - rewrite split_sep. cbn [length]. by rewrite IH.
  - rewrite split_other by done.
    pose proof (split_nonempty c s) as Hne.
    destruct (split (of_char c) s); [done|exact IH].
Qed.

Lemma split_snoc c s :
  split (of_char c) (s +:+ of_char c) = split (of_char c) s ++ [EmptyString].
Proof.
  induction s as [|d s IH].
  - rewrite app_nil. exact (split_sep c EmptyString).
  - rewrite app_cons. destruct (ascii_dec c d) as [->|Hd].
    + by rewrite !split_sep, IH.
    + rewrite !split_other, IH by done.
      pose proof (split_nonempty c s) as Hne.
      by destruct (split (of_char c) s).
Qed.

Lemma length_rows text : length (rows text) = count newline text.
Proof.
  unfold rows. pose proof (length_split newline text) as H.
  fold sep_newline in H.
  destruct (split sep_newline text) as [|x l]; [discriminate H|].
  cbn [map tail]. rewrite length_map. cbn in H. lia.
Qed.

Section Facts.

Variable uuidv4 : nat -> string.

Abbreviation import := (import uuidv4).

(** X12.  Whatever the text, the import makes one student for each line
    break of the text (the first line is the header), each with one answer
    per task, the status [idle], no score, feedback, label or error, and the
    identifiers in the order they were drawn. *)
Theorem import_shape (tasks : list string) (text : string) :
  length (import tasks text) = count newline text /\
  forall k s, import tasks text !! k = Some s ->
    s_id s = uuidv4 k /\
    length (contents s) = length tasks /\
    feedback s = EmptyString /\ s_score s = None /\ levelLabel s = EmptyString /\
    status s = idle /\ errorMsg s = None.
Proof.
  unfold CSV.import. split.
  - by rewrite length_imap, length_rows.
  - intros k s. rewrite list_lookup_imap.
    destruct (rows text !! k) as [r|]; [|discriminate]. intros [= <-].
    cbn. rewrite length_imap. by repeat split.
Qed.

Lemma empty_cells (tasks : list string) :
  imap (fun i _ => cell [EmptyString] (i + 1)) tasks =
  replicate (length tasks) EmptyString.
Proof.
  rewrite (imap_ext _ (fun _ _ => EmptyString)).
  - induction tasks as [|t tasks IH]; [done|]. cbn. f_equal. exact IH.
  - intros i x _. unfold cell. by rewrite Nat.add_1_r.
Qed.

(** X13.  A text that ends with a line break gives one student more than
    the same text without it: a student with an empty name and empty answers,
    who is no target of the batch grading. *)
Theorem import_trailing_newline (tasks : list string) (text : string) :
  import tasks (text +:+ sep_newline) =
    import tasks text ++ [empty_student (uuidv4 (count newline text)) tasks] /\
  Grading.is_target (empty_student (uuidv4 (count newline text)) tasks) = false.
Proof.
  split.
  - unfold CSV.import, rows, sep_newline. rewrite split_snoc.
    pose proof (split_nonempty newline text) as Hne.
    pose proof (length_rows text) as Hlen. unfold rows, sep_newline in Hlen.
    destruct (split (of_char newline) text) as [|x l]; [done|].
    rewrite map_app. cbn [map app tail] in *.
    rewrite imap_app. f_equal. cbn [imap]. rewrite Nat.add_0_r, Hlen.
    unfold import_student, empty_student.
    change (split sep_comma EmptyString) with [EmptyString].
    by rewrite empty_cells.
  - unfold Grading.is_target, empty_student. cbn [contents status].
    by rewrite BatchFacts.blank_replicate.
Qed.

End Facts.

Lemma import_shape_witness :
  exists s,
    CSV.import Str.of_nat ["t"] ("h" +:+ sep_newline +:+ "A,x") !! 0%nat = Some s /\
    length (contents s) = 1%nat.
Proof.
  exists (mkStudent "0" "A" ["x"] EmptyString None EmptyString idle None).
  split; [reflexivity|].
  exact (proj1 (proj2 (proj2 (import_shape Str.of_nat ["t"]
                                ("h" +:+ sep_newline +:+ "A,x")) 0%nat _ eq_refl))).
Defined.

Lemma double_quotes_inj s1 : forall s2,
  double_quotes s1 = double_quotes s2 -> s1 = s2.
Proof.
  induction s1 as [|c1 s1 IH]; intros [|c2 s2] H; cbn [double_quotes] in H.
  - done.
  - by destruct (ascii_dec c2 quote).
  - by destruct (ascii_dec c1 quote).
  - destruct (ascii_dec c1 quote) as [->|H1], (ascii_dec c2 quote) as [->|H2].
    + injection H as H. by rewrite (IH s2).
    + injection H as E _. congruence.
    + injection H as E _. congruence.
    + injection H as E H. rewrite E. by rewrite (IH s2).
Qed.

Lemma app_char_inj c a : forall b, a +:+ of_char c = b +:+ of_char c -> a = b.
Proof.
  induction a as [|d a IH]; intros [|e b] H.
  - done.
  - rewrite app_nil, app_cons in H. injection H as _ H. by destruct b.
  - rewrite app_nil, app_cons in H. injection H as _ H. by destruct a.
  - rewrite !app_cons in H. injection H as -> H. by rewrite (IH b).
Qed.

(** X14.  The quoting of the export loses nothing: two texts that give the
    same quoted cell are the same text. *)
Theorem quoted_injective (s1 s2 : string) : quoted s1 = quoted s2 -> s1 = s2.
Proof.
  unfold quoted. intros H. injection H as H.
  by apply double_quotes_inj, app_char_inj with quote.
Qed.

Lemma quoted_injective_witness : contents carol = ["x"].
Proof. exact (f_equal (fun x => [x]) (quoted_injective "x" "x" eq_refl)). Defined.

End ImportFacts.

(** ** The chart of the report *)

Module ChartFacts.
Import Chart.

Lemma count_label_fold (b : string) (l : list Student) : forall d : gmap string nat,
  foldl count_label d l !! b =
  match length (List.filter (labelled b) l) with
  | O => d !! b
  | S n => Some (default 0 (d !! b) + S n)%nat
  end.
Proof.
  induction l as [|s l IH]; intros d; [done|].
  cbn [foldl List.filter]. rewrite IH. unfold count_label, labelled.
  destruct (levelLabel s) as [|c lbl] eqn:E; [done|].
  rewrite bool_decide_eq_false_2 by done. cbn [negb andb].
  destruct (decide (base_label (String c lbl) = b)) as [Hb|Hb].
  - rewrite bool_decide_eq_true_2 by done. cbn [length].
    rewrite Hb, lookup_insert_eq. cbn [default].
    destruct (length (List.filter _ l)); unfold id; f_equal; lia.
  - rewrite bool_decide_eq_false_2 by done. by rewrite lookup_insert_ne.
Qed.

(** X15.  In the chart the count under a base name is the number of
    students that have a label with that base name, and a base name that no
    student has is absent. *)
Theorem chart_counts (students : list Student) (b : string) :
  dist students !! b =
  match length (List.filter (labelled b) students) with
  | O => None
  | S n => Some (S n)
  end.
Proof.
  unfold dist. rewrite count_label_fold, lookup_empty.
  by destruct (length (List.filter (labelled b) students)).
Qed.

End ChartFacts.

(** ** The editor and the library, further *)

Module LibraryFacts.
Import Editor EditorSpec LibrarySpec Samples EditorFacts.

Lemma view_criteria_ext (h h' : list Criterion) (refs : list loc) :
  (forall l, l ∈ refs -> h' !! l = h !! l) ->
  view_criteria h' refs = view_criteria h refs.
Proof.
  intros H. unfold view_criteria. apply list_omap_ext.
  apply Forall2_same_length_lookup. split; [done|].
  intros i x y Hx Hy. assert (x = y) as -> by congruence.
  apply H. by eapply list_elem_of_lookup_2.
Qed.

Lemma view_criteria_app (h cs : list Criterion) (refs : list loc) :
  refs_ok h refs -> view_criteria (h ++ cs) refs = view_criteria h refs.
Proof.
  intros H. apply view_criteria_ext. intros l Hl.
  unfold refs_ok in H. rewrite Forall_forall in H.
  by apply lookup_app_l, H.
Qed.

Lemma filter_all {A} (p : A -> bool) (l : list A) :
  Forall (fun x => p x = true) l -> List.filter p l = l.
Proof.
  induction 1 as [|x l Hx _ IH]; [done|]. cbn. by rewrite Hx, IH.
Qed.

Section Facts.

Variable stringify : list Template -> string.
Variable parse : string -> option (list Template).

Abbreviation step := (step stringify).
Abbreviation mount := (mount stringify parse).
Abbreviation run := (run stringify parse).

(** X16.  Loading a template just saved brings back the tasks that were
    saved and, criterion by criterion, the strings that were saved: the
    identifier, the focus, and the label and the description of every
    level.  The criteria are fresh objects, and the template is selected.
    The scores are left out of the statement: a score that is not a finite
    number does not come back from [JSON.parse(JSON.stringify(...))]. *)
Theorem save_then_load (a : App) (id name : string) (now : Z) :
  let a' := step (LoadTemplate 0) (step (SaveTemplate id name now) a) in
  tasks a' = tasks a /\
  map texts (view_criteria (heap a') (criteria a')) =
    map texts (view_criteria (heap a) (criteria a)) /\
  selectedTemplateId a' = id /\
  (forall l, l ∈ criteria a' -> (length (heap a) <= l)%nat).
Proof.
  cbn [Editor.step Editor.setTemplates Editor.sync_effect with_templates with_storage
       setSelectedTemplateId templates lookup list_lookup].
  unfold load, deep_copy.
  cbn [heap o_criteria o_tasks o_id]. rewrite alloc_all_eq.
  cbn [tasks heap criteria selectedTemplateId setSelectedTemplateId setCriteria
       setTasks with_heap].
  split; [done|]. split; [|split; [done|]].
  - pose proof (view_alloc_all (view_criteria (heap a) (criteria a)) (heap a) [])
      as H. rewrite app_nil_r in H. f_equal. exact H.
  - intros l Hl. apply list_elem_of_In, in_seq in Hl. cbn [heap Editor.setTemplates
      Editor.sync_effect with_templates with_storage] in Hl. lia.
Qed.

(** X17.  Deleting a template just saved under an identifier that no other
    template has gives back the list of templates as it was, leaves the
    editor alone, clears the selection and leaves the slot in step with the
    list. *)
Theorem save_then_delete (a : App) (id name : string) (now : Z) :
  Forall (fun t => o_id t <> id) (templates a) ->
  let a' := step (DeleteTemplate 0) (step (SaveTemplate id name now) a) in
  templates a' = templates a /\
  heap a' = heap a /\ tasks a' = tasks a /\ criteria a' = criteria a /\
  selectedTemplateId a' = EmptyString /\
  synced stringify a'.
Proof.
  intros Hfresh.
  cbn [Editor.step Editor.setTemplates Editor.sync_effect with_templates with_storage
       setSelectedTemplateId templates lookup list_lookup selectedTemplateId o_id].
  rewrite decide_True by done.
  cbn [List.filter o_id]. rewrite bool_decide_eq_true_2 by done. cbn [negb].
  rewrite filter_all.
  - repeat split. unfold synced. cbn. apply lookup_insert_eq.
  - eapply Forall_impl; [exact Hfresh|]. intros t Ht. cbn.
    by rewrite bool_decide_eq_false_2.
Qed.

(** X18.  At startup a slot that holds a text that parses gives back its
    templates, and is rewritten with their serialization; the editor starts
    with one empty task and one default criterion. *)
Theorem startup_loads_slot (id : string) (storage : gmap string string)
    (c : ascii) (txt : string) (ts : list Template) :
  storage !! STORAGE_KEY = Some (String c txt) ->
  parse (String c txt) = Some ts ->
  let a := mount id storage in
  view_templates a = ts /\
  localStorage a !! STORAGE_KEY = Some (stringify ts) /\
  tasks a = [EmptyString] /\
  view_criteria (heap a) (criteria a) = [new_criterion id].
Proof.
  intros Hk Hp a.
  pose proof (EditorFacts.view_templates_mount stringify parse id storage c txt ts Hk Hp)
    as Hv. fold a in Hv.
  pose proof (EditorFacts.synced_mount stringify parse id storage) as Hs.
  fold a in Hs. unfold synced in Hs. rewrite Hv in Hs.
  split; [done|]. split; [done|].
  unfold a, Editor.mount. rewrite Hk, Hp.
  destruct (alloc_templates_eq ts
              (heap (Editor.sync_effect stringify
                 (mkApp [new_criterion id] [EmptyString] [0%nat] [] EmptyString []
                        storage)))) as (os & -> & _).
  by split.
Qed.

(** X19.  At startup a slot that is missing, empty or does not parse leaves
    the list of templates empty, and the slot is overwritten with the
    serialization of the empty list: a text that does not parse is lost. *)
Theorem startup_bad_slot (id : string) (storage : gmap string string) :
  storage !! STORAGE_KEY = None \/
  storage !! STORAGE_KEY = Some EmptyString \/
  (exists txt, storage !! STORAGE_KEY = Some txt /\ parse txt = None) ->
  templates (mount id storage) = [] /\
  localStorage (mount id storage) !! STORAGE_KEY = Some (stringify []).
Proof.
  intros H. unfold Editor.mount.
  assert (E : match storage !! STORAGE_KEY with
              | None | Some EmptyString => None
              | Some txt => parse txt
              end = None).
  { destruct H as [->|[->|(txt & -> & Hp)]]; try done. by destruct txt. }
  rewrite E. split; [done|]. cbn. apply lookup_insert_eq.
Qed.

Lemma templates_load t a : templates (load t a) = templates a.
Proof. unfold load. by destruct (deep_copy (heap a) (o_criteria t)). Qed.

Lemma write_focus_inv v refs cIdx h h' :
  write_focus v refs cIdx h = Some h' ->
  exists l c', refs !! cIdx = Some l /\ h' = <[l := c']> h.
Proof.
  unfold write_focus. intros H.
  destruct (refs !! cIdx) as [l|]; [|discriminate]. cbn in H.
  destruct (h !! l) as [c|]; [|discriminate]. cbn in H.
  injection H as <-. eauto.
Qed.

Lemma write_level_inv f refs cIdx lIdx h h' :
  write_level f refs cIdx lIdx h = Some h' ->
  exists l c', refs !! cIdx = Some l /\ h' = <[l := c']> h.
Proof.
  unfold write_level. intros H.
  destruct (refs !! cIdx) as [l|]; [|discriminate]. cbn in H.
  destruct (h !! l) as [c|]; [|discriminate]. cbn in H.
  destruct (levels c !! lIdx); [|discriminate]. cbn in H.
  injection H as <-. eauto.
Qed.

Lemma fill_criteria_frame res refs cIdx : forall i h h',
  fill_criteria res i refs cIdx h = Some h' ->
  forall l : loc, refs !! cIdx <> Some l -> h' !! l = h !! l.
Proof.
  induction res as [|text res IH]; intros i h h' H l Hl; cbn [fill_criteria] in H.
  - by simplify_eq.
  - destruct (refs !! cIdx) as [l0|] eqn:E; [|discriminate]. cbn in H.
    match type of H with ?x ≫= _ = _ => destruct x as [c|] eqn:Hl0 end;
      [|discriminate]. cbn in H.
    rewrite (IH _ _ _ H l Hl).
    destruct (levels c !! i) as [lvl|]; [|done].
    apply list_lookup_insert_ne. congruence.
Qed.

Lemma load_frame t a (l : loc) :
  (l < length (heap a))%nat -> heap (load t a) !! l = heap a !! l.
Proof.
  intros Hl. unfold load, deep_copy. rewrite alloc_all_eq. cbn. by apply lookup_app_l.
Qed.

(** What a handler that does not call [setTemplates] can write in the
    store: objects of the editor's list, objects of the list kept by an
    awaited generation, and new objects. *)
Lemma step_frame (e : event) (a : App) (l : loc) :
  writes_templates e = false ->
  (l < length (heap a))%nat ->
  l ∉ criteria a ->
  (forall p, p ∈ pending a -> l ∉ p.1) ->
  heap (step e a) !! l = heap a !! l.
Proof.
  intros He Hl Hc Hp.
  destruct e; cbn [writes_templates Editor.step] in *; try discriminate He; try done.
  - by case_match.
  - case_decide.
    + cbn. by apply lookup_app_l.
    + case_match; [|done]. by apply load_frame.
  - case_match eqn:E; [|done]. cbn.
    apply write_focus_inv in E as (l1 & c' & Hl1 & ->).
    apply list_lookup_insert_ne. intros ->. apply Hc. by eapply list_elem_of_lookup_2.
  - case_match eqn:E; [|done]. cbn.
    apply write_level_inv in E as (l1 & c' & Hl1 & ->).
    apply list_lookup_insert_ne. intros ->. apply Hc. by eapply list_elem_of_lookup_2.
  - case_match eqn:E; [|done]. cbn.
    apply write_level_inv in E as (l1 & c' & Hl1 & ->).
    apply list_lookup_insert_ne. intros ->. apply Hc. by eapply list_elem_of_lookup_2.
  - case_match eqn:Ek; [|done]. case_match. subst.
    case_match eqn:E; [|done]. cbn in *.
    apply (fill_criteria_frame _ _ _ _ _ _ E).
    intros Hl0. apply (Hp _ (list_elem_of_lookup_2 _ _ _ Ek)). cbn.
    by eapply list_elem_of_lookup_2.
  - by case_match.
  - cbn. by apply lookup_app_l.
  - case_match; [|done]. by apply load_frame.
Qed.

(** X20.  Only saving and deleting a template touch the list of templates
    and the storage: after any other operation the list holds the same
    template objects and the slot the same text.  Such an operation can still
    change what a template contains, through a criterion object that the
    template shares with the editor or with an awaited generation; a template
    none of whose criteria is so shared keeps its contents. *)
Theorem storage_written_only_for_templates (e : event) (a : App) :
  writes_templates e = false ->
  templates (step e a) = templates a /\
  localStorage (step e a) = localStorage a /\
  (well_formed a ->
   forall t, t ∈ templates a -> out_of_reach a t ->
     view_template (heap (step e a)) t = view_template (heap a) t).
Proof.
  intros He. split; [|split].
  - destruct e; cbn [writes_templates Editor.step] in *; try discriminate He; try done.
    + by case_match.
    + case_decide; [done|]. case_match; [|done]. by rewrite templates_load.
    + by case_match.
    + by case_match.
    + by case_match.
    + case_match; [|done]. case_match. by case_match.
    + by case_match.
    + case_match; [|done]. by rewrite templates_load.
  - destruct e; cbn [writes_templates Editor.step] in *; try discriminate He; try done.
    + by case_match.
    + case_decide; [done|]. case_match; [|done]. by rewrite localStorage_load.
    + by case_match.
    + by case_match.
    + by case_match.
    + case_match; [|done]. case_match. by case_match.
    + by case_match.
    + case_match; [|done]. by rewrite localStorage_load.
  - intros (_ & Ht & _) t Hin Hout. unfold view_template. f_equal.
    apply view_criteria_ext. intros l Hl.
    destruct (Hout l Hl) as [Hc Hp].
    apply step_frame; [done| |done|done].
    rewrite Forall_forall in Ht. specialize (Ht t Hin).
    unfold refs_ok in Ht. rewrite Forall_forall in Ht. by apply Ht.
Qed.

Lemma remove_at_nonempty {A} (idx : nat) (l : list A) :
  (1 < length l)%nat -> remove_at idx l <> [].
Proof.
  destruct l as [|x [|y r]]; cbn [length]; try lia. intros _.
  destruct idx as [|[|k]]; cbn; discriminate.
Qed.

Lemma alloc_templates_tasks ts : forall h,
  Forall (fun t => t_tasks t <> []) ts ->
  Forall (fun o => o_tasks o <> []) (alloc_templates ts h).2.
Proof.
  induction ts as [|t ts IH]; intros h H; [by constructor|].
  apply Forall_cons in H as [Ht H]. cbn [alloc_templates].
  rewrite alloc_all_eq. specialize (IH (h ++ t_criteria t) H).
  destruct (alloc_templates ts (h ++ t_criteria t)) as [h2 os].
  by constructor.
Qed.

Lemma tasks_ok_load t a :
  o_tasks t <> [] -> tasks_ok a -> tasks_ok (load t a).
Proof.
  intros Ht [_ H]. unfold load.
  by destruct (deep_copy (heap a) (o_criteria t)).
Qed.

Lemma tasks_ok_step e a : tasks_ok a -> tasks_ok (step e a).
Proof.
  intros [Ht Hts]. pose proof Hts as Hall. rewrite Forall_forall in Hall.
  destruct e; cbn [Editor.step]; try (by split).
  - split; [|done]. cbn. intros E. apply (f_equal length) in E.
    rewrite length_insert in E. by destruct (tasks a).
  - case_match eqn:E; [|by split]. split; [|done]. cbn.
    apply remove_at_nonempty. by apply Nat.ltb_lt.
  - split; [|done]. cbn. by destruct (tasks a).
  - case_decide; [by split|]. case_match eqn:E; [|by split].
    apply find_some in E as [E _]. apply tasks_ok_load; [|by split].
    by apply Hall, list_elem_of_In.
  - by case_match.
  - by case_match.
  - by case_match.
  - case_match; [|by split]. case_match. by case_match.
  - by case_match.
  - split; [done|]. cbn. by constructor.
  - case_match eqn:E; [|by split]. apply tasks_ok_load; [|by split].
    by eapply Hall, list_elem_of_lookup_2.
  - case_match; [|by split].
    assert (Forall (fun o => o_tasks o <> [])
              (List.filter (fun x => negb (bool_decide (o_id x = o_id t))) (templates a)))
      by (by apply Forall_List_filter).
    by case_decide.
Qed.

(** X21.  In a session started on a slot whose templates have at least one
    task, the list of tasks is never empty, whatever the user does, and so
    is the list of tasks of every template. *)
Theorem tasks_never_empty (id : string) (storage : gmap string string)
    (es : list event) :
  stored_tasks parse storage ->
  tasks (run id storage es) <> [] /\
  Forall (fun o => o_tasks o <> []) (templates (run id storage es)).
Proof.
  intros Hs. unfold Editor.run.
  apply (foldl_step_invariant stringify tasks_ok); [apply tasks_ok_step|].
  unfold Editor.mount.
  set (a0 := mkApp [new_criterion id] [EmptyString] [0%nat] [] EmptyString [] storage).
  assert (H0 : tasks_ok (Editor.sync_effect stringify a0)) by (by split).
  destruct (storage !! STORAGE_KEY) as [[|c txt]|] eqn:Hk; try exact H0.
  destruct (parse (String c txt)) as [ts|] eqn:Hp; [|exact H0].
  pose proof (alloc_templates_tasks ts (heap (Editor.sync_effect stringify a0))
                (Hs _ _ Hk Hp)) as Hos.
  destruct (alloc_templates ts (heap (Editor.sync_effect stringify a0))) as [h os].
  by split.
Qed.

(** An edit writes one object, and that object is a criterion of the
    editor. *)
Lemma edit_writes_criterion e a :
  is_edit e = true ->
  templates (step e a) = templates a /\ criteria (step e a) = criteria a /\
  (heap (step e a) = heap a \/
   exists l c', l ∈ criteria a /\ heap (step e a) = <[l := c']> (heap a)).
Proof.
  destruct e; cbn [is_edit Editor.step]; intros H; try discriminate H.
  - case_match eqn:E; [|by auto]. repeat split.
    apply write_focus_inv in E as (l0 & c' & Hl & ->). right. exists l0, c'.
    split; [by eapply list_elem_of_lookup_2|done].
  - case_match eqn:E; [|by auto]. repeat split.
    apply write_level_inv in E as (l0 & c' & Hl & ->). right. exists l0, c'.
    split; [by eapply list_elem_of_lookup_2|done].
  - case_match eqn:E; [|by auto]. repeat split.
    apply write_level_inv in E as (l0 & c' & Hl & ->). right. exists l0, c'.
    split; [by eapply list_elem_of_lookup_2|done].
Qed.

Lemma edits_keep_low (n : nat) (ts : list TemplateObj) (h0 : list Criterion) es :
  forall b,
    forallb is_edit es = true ->
    templates b = ts ->
    (forall l, l ∈ criteria b -> (n <= l)%nat) ->
    (forall l, (l < n)%nat -> heap b !! l = h0 !! l) ->
    let b' := foldl (fun a e => step e a) b es in
    templates b' = ts /\ (forall l, (l < n)%nat -> heap b' !! l = h0 !! l).
Proof.
  induction es as [|e es IH]; intros b Hes Ht Hc Hh; [by split|].
  cbn [forallb] in Hes. apply andb_true_iff in Hes as [He Hes].
  cbn [foldl]. destruct (edit_writes_criterion e b He) as (Et & Ec & Eh).
  apply IH; [done|congruence|by rewrite Ec|].
  intros l Hl. destruct Eh as [->|(l' & c' & Hl' & ->)]; [by apply Hh|].
  rewrite list_lookup_insert_ne; [by apply Hh|].
  specialize (Hc l' Hl'). lia.
Qed.

(** X22.  Loading a template detaches the editor from the library: whatever
    the user then edits in the criteria, focus, score or description, no
    template in memory changes. *)
Theorem edits_after_load (a : App) (k : nat) (t : TemplateObj) (es : list event) :
  well_formed a ->
  templates a !! k = Some t ->
  forallb is_edit es = true ->
  view_templates (foldl (fun a e => step e a) (step (LoadTemplate k) a) es)
  = view_templates a.
Proof.
  intros (Hc & Ht & Hp) Hk Hes. cbn [Editor.step]. rewrite Hk.
  destruct (edits_keep_low (length (heap a)) (templates a) (heap a) es (load t a))
    as [Et Eh]; try done.
  - unfold load. by destruct (deep_copy (heap a) (o_criteria t)).
  - unfold load, deep_copy. rewrite alloc_all_eq. cbn.
    intros l Hl. apply list_elem_of_In, in_seq in Hl. lia.
  - unfold load, deep_copy. rewrite alloc_all_eq. cbn.
    intros l Hl. by apply lookup_app_l.
  - unfold view_templates. rewrite Et. apply map_ext_in. intros o Ho.
    unfold view_template. f_equal. apply view_criteria_ext. intros l Hl.
    apply Eh. rewrite Forall_forall in Ht.
    apply list_elem_of_In in Ho. specialize (Ht o Ho).
    unfold refs_ok in Ht. rewrite Forall_forall in Ht. by apply Ht.
Qed.

Lemma map_insert_same {A B} (f : A -> B) (l : list A) : forall i x y,
  l !! i = Some x -> f y = f x -> map f (<[i := y]> l) = map f l.
Proof.
  induction l as [|a l IH]; intros [|i] x y H E; cbn in *; try done.
  - injection H as ->. by rewrite E.
  - f_equal. by eapply IH.
Qed.

Lemma fill_criteria_skeleton res refs cIdx : forall i h h',
  fill_criteria res i refs cIdx h = Some h' ->
  forall l, skeleton <$> h' !! l = skeleton <$> h !! l.
Proof.
  induction res as [|text res IH]; intros i h h' H l; cbn [fill_criteria] in H.
  - by injection H as <-.
  - destruct (refs !! cIdx) as [l0|]; [|discriminate]. cbn in H.
    destruct (h !! l0) as [c|] eqn:Hl0; [|discriminate]. cbn in H.
    rewrite (IH _ _ _ H l).
    destruct (levels c !! i) as [lvl|] eqn:Hi; [|done].
    destruct (decide (l0 = l)) as [->|Hne].
    + rewrite list_lookup_insert_eq by (by eapply lookup_lt_Some).
      rewrite Hl0. cbn. unfold skeleton. cbn [c_id focus levels set_levels].
      by rewrite (map_insert_same _ _ _ lvl).
    + by rewrite list_lookup_insert_ne.
Qed.

Lemma skeleton_scores c c' :
  skeleton c = skeleton c' -> map score (levels c) = map score (levels c').
Proof.
  unfold skeleton. intros [= _ _ H].
  apply (f_equal (map snd)) in H. rewrite !map_map in H. exact H.
Qed.

Lemma view_criteria_cons (h : list Criterion) (l : loc) (refs : list loc) :
  view_criteria h (l :: refs) =
  match h !! l with
  | Some c => c :: view_criteria h refs
  | None => view_criteria h refs
  end.
Proof. reflexivity. Qed.

Lemma view_scores (h h' : list Criterion) (refs : list loc) :
  (forall l : loc, skeleton <$> h' !! l = skeleton <$> h !! l) ->
  map (fun c => map score (levels c)) (view_criteria h' refs) =
  map (fun c => map score (levels c)) (view_criteria h refs).
Proof.
  intros H. induction refs as [|l refs IH]; [done|].
  rewrite !view_criteria_cons. pose proof (H l) as Hl.
  destruct (h' !! l) as [c'|], (h !! l) as [c|]; try discriminate Hl; [|exact IH].
  cbn [map]. rewrite IH. f_equal. apply skeleton_scores. by apply (inj Some).
Qed.

Lemma spec_level_floor_scores c i :
  spec_level_floor c i =
  match map score (levels c) !! S i with Some z => z + 1 | None => 0 end.
Proof.
  unfold spec_level_floor. rewrite (CSVFacts.lookup_map score).
  by destruct (levels c !! S i).
Qed.

Lemma spec_top_scores c :
  spec_top_score c = match map score (levels c) !! 0%nat with Some z => z | None => 0 end.
Proof.
  unfold spec_top_score. rewrite (CSVFacts.lookup_map score).
  by destruct (levels c !! 0%nat).
Qed.

Lemma spec_floor_scores (cs : list Criterion) (i : nat) :
  spec_floor cs i =
  sumZ (map (fun sc : list Z => match sc !! S i with Some z => z + 1 | None => 0 end)
            (map (fun c => map score (levels c)) cs)).
Proof.
  unfold spec_floor. rewrite map_map. f_equal. apply map_ext.
  intros c. apply spec_level_floor_scores.
Qed.

Lemma spec_top_sum_scores (cs : list Criterion) :
  sumZ (map spec_top_score cs) =
  sumZ (map (fun sc : list Z => match sc !! 0%nat with Some z => z | None => 0 end)
            (map (fun c => map score (levels c)) cs)).
Proof.
  rewrite map_map. f_equal. apply map_ext. intros c. apply spec_top_scores.
Qed.

Lemma level_counts_scores (cs : list Criterion) :
  map (fun c => length (levels c)) cs =
  map (@length Z) (map (fun c => map score (levels c)) cs).
Proof. rewrite map_map. apply map_ext. intros c. by rewrite length_map. Qed.

(** The thresholds are a function of the level scores alone. *)
Lemma thresholds_by_scores (cs cs' : list Criterion) :
  map (fun c => map score (levels c)) cs = map (fun c => map score (levels c)) cs' ->
  totalScoreThresholds cs = totalScoreThresholds cs'.
Proof.
  intros H.
  assert (Hlen : map (fun c => length (levels c)) cs = map (fun c => length (levels c)) cs')
    by (by rewrite !level_counts_scores, H).
  assert (Hfl : forall i, spec_floor cs i = spec_floor cs' i)
    by (intros i; by rewrite !spec_floor_scores, H).
  assert (Htop : sumZ (map spec_top_score cs) = sumZ (map spec_top_score cs'))
    by (by rewrite !spec_top_sum_scores, H).
  assert (Hall : Forall (fun c => length (levels c) = 5%nat) cs ->
                 Forall (fun c => length (levels c) = 5%nat) cs').
  { intros H5.
    apply (Forall_map (fun c => length (levels c)) (fun n => n = 5%nat)).
    rewrite <- Hlen.
    by apply (Forall_map (fun c => length (levels c)) (fun n => n = 5%nat)). }
  assert (Hall' : Forall (fun c => length (levels c) = 5%nat) cs' ->
                  Forall (fun c => length (levels c) = 5%nat) cs).
  { intros H5.
    apply (Forall_map (fun c => length (levels c)) (fun n => n = 5%nat)).
    rewrite Hlen.
    by apply (Forall_map (fun c => length (levels c)) (fun n => n = 5%nat)). }
  destruct (ThresholdFacts.five_or_not cs) as [H5|He].
  - rewrite (totalScoreThresholds_five cs H5), (totalScoreThresholds_five cs' (Hall H5)).
    unfold spec_ceiling. by rewrite !Hfl, Htop.
  - rewrite (ThresholdFacts.thresholds_not_five cs He).
    destruct (ThresholdFacts.five_or_not cs') as [H5'|He'].
    + apply Hall' in H5'. apply Exists_exists in He as (c & Hc & Hn).
      rewrite Forall_forall in H5'. by destruct Hn, (H5' c Hc).
    + by rewrite (ThresholdFacts.thresholds_not_five cs' He').
Qed.

(** X23.  The answer to a rubric generation writes descriptions only: in
    every object the identifier, the focus and the label and score of each
    level stay as they were, so the thresholds of any list of criteria are
    those from before the answer. *)
Theorem generation_writes_descriptions (k : nat) (res : list string) (a : App) :
  (forall l, skeleton <$> heap (step (GenerateDone k res) a) !! l
             = skeleton <$> heap a !! l) /\
  (forall refs,
     totalScoreThresholds (view_criteria (heap (step (GenerateDone k res) a)) refs)
     = totalScoreThresholds (view_criteria (heap a) refs)).
Proof.
  assert (H : forall l, skeleton <$> heap (step (GenerateDone k res) a) !! l
                        = skeleton <$> heap a !! l).
  { intros l. cbn [Editor.step].
    destruct (pending a !! k) as [[refs cIdx]|]; [|done].
    cbn [heap with_pending].
    destruct (fill_criteria res 0 refs cIdx (heap a)) as [h|] eqn:E; [|done].
    cbn [heap setCriteria with_heap]. by apply (fill_criteria_skeleton _ _ _ _ _ _ E). }
  split; [exact H|].
  intros refs. apply thresholds_by_scores. by apply view_scores.
Qed.

Lemma fill_criteria_Some res refs cIdx l : forall i h,
  refs !! cIdx = Some l -> (l < length h)%nat ->
  is_Some (fill_criteria res i refs cIdx h).
Proof.
  induction res as [|text res IH]; intros i h Hl Hlt; cbn [fill_criteria]; [done|].
  rewrite Hl. cbn.
  destruct (lookup_lt_is_Some_2 h l Hlt) as [c Hc]. rewrite Hc. cbn.
  apply IH; [done|]. destruct (levels c !! i); [by rewrite length_insert|done].
Qed.

Lemma pending_load t a : pending (load t a) = pending a.
Proof. unfold load. by destruct (deep_copy (heap a) (o_criteria t)). Qed.

Lemma pending_step e a : is_generate e = false -> pending (step e a) = pending a.
Proof.
  destruct e; cbn [is_generate Editor.step]; intros H; try discriminate H; try done.
  - by case_match.
  - case_decide; [done|]. case_match; [by rewrite pending_load|done].
  - by case_match.
  - by case_match.
  - by case_match.
  - by case_match.
  - case_match; [by rewrite pending_load|done].
  - case_match; [|done]. by case_decide.
Qed.

(** X24.  The answer to a rubric generation puts back the list of criteria
    of the moment the generation was asked for: criteria added, removed or
    loaded while the answer was awaited are undone. *)
Theorem generation_restores_criteria (a : App) (cIdx : nat) (es : list event)
    (res : list string) :
  well_formed a ->
  pending a = [] ->
  is_Some (criteria a !! cIdx) ->
  forallb (fun e => negb (is_generate e)) es = true ->
  criteria (step (GenerateDone 0 res)
              (foldl (fun a e => step e a) (step (GenerateClick cIdx) a) es))
  = criteria a.
Proof.
  intros Hwf Hp [l Hl] Hes.
  set (b := foldl _ _ es).
  assert (Hb : pending b = [(criteria a, cIdx)] /\ well_formed b).
  { unfold b. clear b.
    assert (H0 : pending (step (GenerateClick cIdx) a) = [(criteria a, cIdx)] /\
                 well_formed (step (GenerateClick cIdx) a)).
    { split; [cbn; by rewrite Hp|by apply step_well_formed]. }
    revert H0. generalize (step (GenerateClick cIdx) a). clear Hwf Hp.
    induction es as [|e es IH]; intros b0 [Hp0 Hwf0]; [done|].
    cbn [forallb] in Hes. apply andb_true_iff in Hes as [He Hes].
    cbn [foldl]. apply IH; [done|]. split.
    - rewrite pending_step; [done|]. by destruct (is_generate e).
    - by apply step_well_formed. }
  destruct Hb as [Hpb (_ & _ & Hrefs)].
  cbn [Editor.step]. rewrite Hpb. cbn [lookup list_lookup].
  rewrite Hpb in Hrefs. apply Forall_cons in Hrefs as [Hrefs _]. cbn in Hrefs.
  unfold refs_ok in Hrefs. rewrite Forall_forall in Hrefs.
  destruct (fill_criteria_Some res (criteria a) cIdx l 0 (heap b) Hl) as [h Hh].
  { apply Hrefs. by eapply list_elem_of_lookup_2. }
  cbn [heap with_pending]. by rewrite Hh.
Qed.

End Facts.

Lemma save_then_load_witness :
  selectedTemplateId
    (Editor.step count_templates (LoadTemplate 0)
       (Editor.step count_templates (SaveTemplate "t-1" "essay" 0) (session [])))
  = "t-1".
Proof.
  exact (proj1 (proj2 (proj2
    (save_then_load count_templates (session []) "t-1" "essay" 0)))).
Defined.

Lemma save_then_delete_witness :
  templates (Editor.step count_templates (DeleteTemplate 0)
               (Editor.step count_templates (SaveTemplate "t-1" "essay" 0) (session [])))
  = [].
Proof.
  refine (proj1 (save_then_delete count_templates (session []) "t-1" "essay" 0 _)).
  constructor.
Defined.

Lemma startup_loads_slot_witness :
  view_templates
    (Editor.mount count_templates (fun _ => Some []) "c-0" {[STORAGE_KEY := "[]"]}) = [].
Proof.
  refine (proj1 (startup_loads_slot count_templates (fun _ => Some []) "c-0"
                   {[STORAGE_KEY := "[]"]} "[" "]" [] _ eq_refl)).
  apply lookup_singleton_eq.
Defined.

Lemma startup_bad_slot_witness :
  templates (Editor.mount count_templates no_parse "c-0" {[STORAGE_KEY := "{"]}) = [].
Proof.
  refine (proj1 (startup_bad_slot count_templates no_parse "c-0"
                   {[STORAGE_KEY := "{"]} _)).
  right. right. exists "{". split; [apply lookup_singleton_eq|reflexivity].
Defined.

Lemma storage_written_only_for_templates_witness :
  localStorage (Editor.step count_templates (AddCriterion "c-1") (session []))
  = localStorage (session []).
Proof.
  exact (proj1 (proj2 (storage_written_only_for_templates count_templates
                         (AddCriterion "c-1") (session []) eq_refl))).
Defined.

Lemma tasks_never_empty_witness :
  tasks (session [AddTask; RemoveTask 0; RemoveTask 0]) <> [].
Proof.
  refine (proj1 (tasks_never_empty count_templates no_parse "c-0" ∅ _ _)).
  intros txt ts H. rewrite lookup_empty in H. discriminate H.
Defined.

Lemma session_well_formed es : well_formed (session es).
Proof.
  unfold session, Editor.run.
  apply (foldl_step_invariant count_templates well_formed).
  - intros e a. apply step_well_formed.
  - apply (mount_invariant count_templates no_parse).
    intros txt ts H. rewrite lookup_empty in H. discriminate H.
Defined.

Lemma edits_after_load_witness :
  view_templates
    (foldl (fun a e => Editor.step count_templates e a)
       (Editor.step count_templates (LoadTemplate 0)
          (session [SaveTemplate "t-1" "essay" 0]))
       [EditFocus 0 "clarity"; EditScore 0 1 80])
  = view_templates (session [SaveTemplate "t-1" "essay" 0]).
Proof.
  refine (edits_after_load count_templates (session [SaveTemplate "t-1" "essay" 0])
            0%nat _ [EditFocus 0 "clarity"; EditScore 0 1 80]
            (session_well_formed _) _ eq_refl).
  reflexivity.
Defined.

Lemma generation_restores_criteria_witness :
  criteria
    (Editor.step count_templates (GenerateDone 0 ["a"; "b"])
       (foldl (fun a e => Editor.step count_templates e a)
          (Editor.step count_templates (GenerateClick 0) (session []))
          [AddCriterion "c-1"]))
  = criteria (session []).
Proof.
  refine (generation_restores_criteria count_templates (session []) 0%nat
            [AddCriterion "c-1"] ["a"; "b"] (session_well_formed _) eq_refl _ eq_refl).
  eexists. reflexivity.
Defined.

(** The criterion added while the answer was awaited is gone from the
    editor. *)
Example generation_drops_added_criterion :
  let a := session [GenerateClick 0; AddCriterion "c-1"] in
  length (criteria a) = 2%nat /\
  length (criteria (Editor.step count_templates (GenerateDone 0 ["a"]) a)) = 1%nat.
Proof. by split. Qed.

End LibraryFacts.

(** ** The student table *)

Module TableFacts.
Import Grading Table Samples.

Lemma filter_map_commute {A} (p : A -> bool) (f : A -> A) (l : list A) :
  (forall x, p (f x) = p x) -> List.filter p (map f l) = map f (List.filter p l).
Proof.
  intros H. induction l as [|x l IH]; [done|].
  cbn [map List.filter]. rewrite H. destruct (p x); cbn [map]; by rewrite IH.
Qed.

(** X25.  Renaming a student changes names only: the targets of the next
    run are the renamed targets, and no status, answer, score, feedback or
    label changes.  Removing a student removes its records from the targets
    and leaves the other targets in order. *)
Theorem table_edits_keep_targets (id v : string) (l : list Student) :
  List.filter is_target (renameStudent id v l) = renameStudent id v (List.filter is_target l) /\
  map (fun x => (s_id x, contents x, feedback x, s_score x, levelLabel x, status x))
      (renameStudent id v l)
  = map (fun x => (s_id x, contents x, feedback x, s_score x, levelLabel x, status x)) l /\
  List.filter is_target (removeStudent id l) = removeStudent id (List.filter is_target l).
Proof.
  split; [|split].
  - unfold renameStudent. apply filter_map_commute. intros x. by case_decide.
  - unfold renameStudent. rewrite map_map. apply map_ext. intros x. by case_decide.
  - unfold removeStudent. induction l as [|x l IH]; [done|].
    cbn [List.filter].
    destruct (bool_decide (s_id x = id)) eqn:E1, (is_target x) eqn:E2;
      cbn [negb List.filter]; rewrite ?E1, ?E2; cbn [negb]; by rewrite ?IH.
Qed.

End TableFacts.

(** ** Editing a level score *)

Module RubricFacts.
Import Editor EditorSpec LibrarySpec Samples EditorFacts LibraryFacts.
Import Number NumberFacts Integral DoubleFacts.


Lemma view_criteria_cons_Some (h : list Criterion) (l : loc) (refs : list loc)
    (c : Criterion) :
  h !! l = Some c -> view_criteria h (l :: refs) = c :: view_criteria h refs.
Proof. intros H. rewrite view_criteria_cons. by rewrite H. Qed.

Lemma view_insert (h : list Criterion) (l : loc) (c' : Criterion) (refs : list loc) :
  forall k,
    NoDup refs -> refs_ok h refs -> refs !! k = Some l ->
    view_criteria (<[l := c']> h) refs = <[k := c']> (view_criteria h refs).
Proof.
  induction refs as [|l0 refs IH]; intros k Hnd Hok Hk; [done|].
  apply NoDup_cons in Hnd as [Hl0 Hnd]. apply Forall_cons in Hok as [Hlt Hok].
  destruct (lookup_lt_is_Some_2 h l0 Hlt) as [c0 Hc0].
  rewrite (view_criteria_cons_Some h l0 refs c0 Hc0).
  destruct k as [|k]; cbn in Hk.
  - injection Hk as ->.
    rewrite (view_criteria_cons_Some _ l refs c').
    + cbn. f_equal. apply view_criteria_ext. intros l' Hl'.
      apply list_lookup_insert_ne. by intros ->.
    + by apply list_lookup_insert_eq.
  - assert (l <> l0).
    { intros ->. apply Hl0. by eapply list_elem_of_lookup_2. }
    rewrite (view_criteria_cons_Some _ l0 refs c0).
    + cbn. f_equal. by apply IH.
    + by rewrite list_lookup_insert_ne.
Qed.

Lemma view_lookup (h : list Criterion) (refs : list loc) : forall k l c,
  refs_ok h refs -> refs !! k = Some l -> h !! l = Some c ->
  view_criteria h refs !! k = Some c.
Proof.
  induction refs as [|l0 refs IH]; intros k l c Hok Hk Hl; [done|].
  apply Forall_cons in Hok as [Hlt Hok].
  destruct (lookup_lt_is_Some_2 h l0 Hlt) as [c0 Hc0].
  rewrite (view_criteria_cons_Some h l0 refs c0 Hc0).
  destruct k as [|k]; cbn in Hk |- *.
  - injection Hk as ->. exact (eq_trans (eq_sym Hc0) Hl).
  - by eapply IH.
Qed.

Lemma write_level_Some (f : Level -> Level) (refs : list loc) (cIdx lIdx : nat)
    (h : list Criterion) (l : loc) (c : Criterion) (lvl : Level) :
  refs !! cIdx = Some l -> h !! l = Some c -> levels c !! lIdx = Some lvl ->
  write_level f refs cIdx lIdx h =
  Some (<[l := set_levels (<[lIdx := f lvl]> (levels c)) c]> h).
Proof. intros H1 H2 H3. unfold write_level. by simplify_option_eq. Qed.

Section Facts.

Variable stringify : list Template -> string.

Abbreviation step := (step stringify).

(** On the store, the score handler overwrites one score in the list of
    criteria the editor shows, when the criteria of that list are distinct
    objects. *)
Lemma edit_score_view (a : App) (cIdx lIdx : nat) (v : Z)
    (l : loc) (c : Criterion) (lvl : Level) :
  NoDup (criteria a) ->
  refs_ok (heap a) (criteria a) ->
  criteria a !! cIdx = Some l -> heap a !! l = Some c -> levels c !! lIdx = Some lvl ->
  let a' := step (EditScore cIdx lIdx v) a in
  view_criteria (heap a') (criteria a') =
  <[cIdx := set_levels (<[lIdx := set_level_score v lvl]> (levels c)) c]>
    (view_criteria (heap a) (criteria a)).
Proof.
  intros Hnd Hok Hc Hl Hlvl a'.
  set (c' := set_levels (<[lIdx := set_level_score v lvl]> (levels c)) c).
  assert (Ea : heap a' = <[l := c']> (heap a) /\ criteria a' = criteria a).
  { unfold a'. cbn [Editor.step].
    by rewrite (write_level_Some _ _ _ _ _ _ _ _ Hc Hl Hlvl). }
  destruct Ea as [Eh Ec]. rewrite Eh, Ec. by apply view_insert.
Qed.

End Facts.








(** *** An emptied score field *)

Lemma add_NaN_l x : add NaN x = NaN.
Proof. reflexivity. Qed.


Lemma sub_NaN_l x : sub NaN x = NaN.
Proof. reflexivity. Qed.







End RubricFacts.

(** ** The class analysis *)

Module AnalysisFacts.
Import Analysis.






Example analysis_fallback :
  generateClassAnalysis Samples.row_names (fun _ _ => inr None) 0 [Samples.alice]
  = inr FALLBACK.
Proof. reflexivity. Qed.

End AnalysisFacts.

(** ** An empty rubric *)

Module EmptyRubricFacts.
Import Editor.

Lemma not_below_zero (sc : Q) :
  Qle_bool (inject_Z 0) sc && Qle_bool sc (inject_Z (-1)) = false.
Proof.
  destruct (Qle_bool (inject_Z 0) sc) eqn:E1, (Qle_bool sc (inject_Z (-1))) eqn:E2;
    try reflexivity.
  apply Qle_bool_iff in E1, E2.
  pose proof (Qle_trans _ _ _ E1 E2) as H. rewrite <- Zle_Qle in H. lia.
Qed.

(** X28.  Nothing keeps the last criterion from being removed.  With no
    criterion left the derivation still returns five bands, all of them
    empty but the top one, which holds the score zero alone: a score of zero
    gets the top label and every other score the sentinel. *)
Theorem empty_rubric (stringify : list Template -> string) (a : App)
    (l : loc) (c : Criterion) (sc : Q) :
  criteria a = [l] -> heap a !! l = Some c ->
  criteria (Editor.step stringify (RemoveCriterion 0) a) = [] /\
  exists ths,
    totalScoreThresholds
      (view_criteria (heap (Editor.step stringify (RemoveCriterion 0) a))
                     (criteria (Editor.step stringify (RemoveCriterion 0) a)))
    = Some ths /\
    getLevelLabelFromScore ths sc =
      if Qle_bool (inject_Z 0) sc && Qle_bool sc (inject_Z 0)
      then "超級優異" else UNDETERMINED.
Proof.
  intros Hc Hl.
  assert (E : criteria (Editor.step stringify (RemoveCriterion 0) a) = []).
  { cbn [Editor.step]. rewrite Hc. change ([l] !! 0%nat) with (Some l).
    cbn [mbind option_bind].
    match goal with
    | |- context [match ?x with Some _ => _ | None => _ end] =>
        replace x with (Some c) by (symmetry; exact Hl)
    end.
    cbn [criteria setCriteria List.filter].
    match goal with
    | |- context [match ?x with Some _ => _ | None => _ end] =>
        replace x with (Some c) by (symmetry; exact Hl)
    end.
    by rewrite bool_decide_eq_true_2. }
  split; [exact E|]. rewrite E. eexists.
  split; [apply (totalScoreThresholds_five []); constructor|].
  unfold getLevelLabelFromScore, in_band.
  cbn [List.find floor ceiling spec_floor spec_ceiling map sumZ foldr t_label].
  change (0 - 1) with (-1).
  destruct (Qle_bool (inject_Z 0) sc && Qle_bool sc (inject_Z 0)); [done|].
  by rewrite !not_below_zero.
Qed.

Lemma empty_rubric_witness :
  criteria (Editor.step Samples.count_templates (RemoveCriterion 0) (Samples.session []))
  = [].
Proof.
  exact (proj1 (empty_rubric Samples.count_templates (Samples.session []) 0%nat
                  (new_criterion "c-0") (inject_Z 0) eq_refl eq_refl)).
Defined.

End EmptyRubricFacts.
